(** * ToolHive workload runtime plane: shallow embedding and verification

    The development follows the Go sources:
    - [docker] : pkg/container/docker (egress proxy ACL document,
      container reconciliation, workload deployment);
    - [httpsse] : pkg/transport/proxy/httpsse (SSE fan-out, pending
      messages, POST /messages);
    - [transport] : pkg/transport (stdio transport: stop, dirty output
      recovery).

    Go values are modelled as follows: [string] is a byte string, a nil-able
    pointer is an [option], a Go map is a [gmap] (or the list of its keys in
    the order a [range] visits them, where the order is left open by Go), a
    function that can fail returns a [result]. *)

From Stdlib Require Import ZArith Ascii DecimalString.
From stdpp Require Import base option list gmap strings.

Local Open Scope Z_scope.

(** ** Outcomes of fallible Go code *)

(** Go [error] values, as far as the code tells them apart. The text of a
    wrapped error is not kept. *)
Inductive error : Type :=
  | EngineError (notFound : bool) (msg : string)
      (* returned by the container engine; [notFound] is errdefs.IsNotFound *)
  | ErrContainerNotFound
  | ContainerError (Err : error) (ContainerID Message : string)
  | Errorf (msg : string).

(** errdefs.IsNotFound; a [ContainerError] unwraps to its [Err]. *)
Fixpoint IsNotFound (e : error) : bool :=
  match e with
  | EngineError nf _ => nf
  | ContainerError e _ _ => IsNotFound e
  | _ => false
  end.

Inductive result (A : Type) : Type :=
  | Ok (a : A)            (* normal return, err == nil *)
  | Error (err : error)   (* normal return, err != nil *)
  | Panic (msg : string). (* run-time panic *)
Arguments Ok {A} a.
Arguments Error {A} err.
Arguments Panic {A} msg.

Definition nilDeref : string := "invalid memory address or nil pointer dereference".

(** ** The parts of Go's [strings] and [strconv] packages that are used *)

Module strings.

(** The line feed, written ["\n"] in the Go sources. *)
Definition LF : ascii := "010"%char.
Definition nl : string := String LF "".

(** The upper case form of an ASCII letter; other bytes are kept. *)
Definition upperByte (c : ascii) : ascii :=
  let n := N_of_ascii c in
  if ((97 <=? n) && (n <=? 122))%N then ascii_of_N (n - 32) else c.

(** What [strings.ToUpper] does to a text that is all ASCII: byte by byte. *)
Fixpoint upperASCII (s : string) : string :=
  match s with
  | EmptyString => EmptyString
  | String c r => String (upperByte c) (upperASCII r)
  end.

(** No byte of the text is utf8.RuneSelf (128) or more. *)
Fixpoint isASCII (s : string) : bool :=
  match s with
  | EmptyString => true
  | String c r => (N_of_ascii c <? 128)%N && isASCII r
  end.

(** The case tables of package unicode, as far as they are used:
    [MapToUpper s] is [strings.Map(unicode.ToUpper, s)], the rune by rune
    upper case form of a text. The tables themselves are left open. *)
Class UnicodeTables := { MapToUpper : string -> string }.

(** [strings.ToUpper]: a text that is all ASCII is upper-cased byte by
    byte, any other text rune by rune. *)
Definition ToUpper `{UnicodeTables} (s : string) : string :=
  if isASCII s then upperASCII s else MapToUpper s.

(** Tables that know the ASCII letters only; they serve to run the code
    on given texts. *)
Definition asciiTables : UnicodeTables := {| MapToUpper := upperASCII |}.

(** The text holds no lower case ASCII letter. *)
Fixpoint noLowerASCII (s : string) : bool :=
  match s with
  | EmptyString => true
  | String c r =>
      negb ((97 <=? N_of_ascii c) && (N_of_ascii c <=? 122))%N && noLowerASCII r
  end.

(** [strings.Split(s, "/")[0]]: the part of [s] before its first slash. *)
Fixpoint SplitFirst (s : string) : string :=
  match s with
  | EmptyString => EmptyString
  | String c r => if Ascii.eqb c "/" then EmptyString else String c (SplitFirst r)
  end.

(** [strings.Join(elems, sep)]. *)
Fixpoint Join (elems : list string) (sep : string) : string :=
  match elems with
  | [] => ""
  | [x] => x
  | x :: r => x +:+ sep +:+ Join r sep
  end.

(** [strconv.Itoa]. *)
Definition Itoa (n : Z) : string := NilZero.string_of_int (Z.to_int n).

(** [strings.Split(s, "\n")]: the lines of a text. *)
Fixpoint lines (s : string) : list string :=
  match s with
  | EmptyString => [""]
  | String c r =>
      if Ascii.eqb c LF then "" :: lines r
      else match lines r with
           | [] => [String c ""]
           | h :: t => String c h :: t
           end
  end.

(** A string that holds no line feed. *)
Fixpoint singleLine (s : string) : bool :=
  match s with
  | EmptyString => true
  | String c r => negb (Ascii.eqb c LF) && singleLine r
  end.

(** The text made of the given lines, each closed by a line feed. *)
Fixpoint unlines (ls : list string) : string :=
  match ls with
  | [] => ""
  | l :: r => l +:+ nl +:+ unlines r
  end.

(** The concatenation of [f x] for [x] in [l]. *)
Fixpoint catMap {A} (f : A -> string) (l : list A) : string :=
  match l with
  | [] => ""
  | x :: r => f x +:+ catMap f r
  end.

(** A [strings.Builder] is the text written so far. *)
Definition Builder := string.
Definition WriteString (sb : Builder) (s : string) : Builder := sb +:+ s.

End strings.

(** ** pkg/container/docker: the egress proxy ACL document *)

Module docker.
Import strings.

(** Modelled from the spec: package permissions is not among the sources at
    hand. permissions.OutboundNetworkPermissions, with the fields that the
    spec lists and the code reads. *)
Record OutboundNetworkPermissions := {
  InsecureAllowAll : bool;
  AllowTransport : list string;
  AllowHost : list string;
  AllowPort : list Z
}.

(** permissions.NetworkPermissions; [Outbound] is a pointer. *)
Record NetworkPermissions := {
  Outbound : option OutboundNetworkPermissions
}.

Section WithUnicode.
Context {U : UnicodeTables}.

(** Body of the loop over [outbound.AllowTransport]. *)
Definition writeMethod (sb : Builder) (method : string) : Builder :=
  let sb :=
    if String.eqb (ToUpper method) "TCP"
    then WriteString sb " CONNECT GET POST HEAD"
    else sb in
  WriteString sb (" " +:+ ToUpper method).

(** [outbound] is dereferenced by the first statement: a nil pointer
    panics before anything is written. *)
Definition writeOutboundACLs (sb : Builder)
    (outbound : option OutboundNetworkPermissions) : result Builder :=
  match outbound with
  | None => Panic nilDeref
  | Some outbound =>
      let sb :=
        if (0 <? length (AllowPort outbound))%nat then
          let sb := WriteString sb ("# Define allowed ports" +:+ nl +:+ "acl allowed_ports port") in
          let sb := fold_left (fun sb port => WriteString sb (" " +:+ Itoa port))
                              (AllowPort outbound) sb in
          WriteString sb nl
        else sb in
      let sb :=
        if (0 <? length (AllowHost outbound))%nat then
          let sb := WriteString sb ("# Define allowed destinations" +:+ nl +:+ "acl allowed_dsts dstdomain") in
          let sb := fold_left (fun sb host => WriteString sb (" " +:+ host))
                              (AllowHost outbound) sb in
          WriteString sb nl
        else sb in
      let sb :=
        if (0 <? length (AllowTransport outbound))%nat then
          let sb := WriteString sb ("# Define allowed methods" +:+ nl +:+ "acl allowed_methods method") in
          fold_left writeMethod (AllowTransport outbound) sb
        else sb in
      Ok sb
  end.

End WithUnicode.

(** The [conditions] slice of [writeHttpAccessRules]. *)
Definition conditions (outbound : OutboundNetworkPermissions) : list string :=
  let conditions := [] in
  let conditions :=
    if (0 <? length (AllowPort outbound))%nat then conditions ++ ["allowed_ports"] else conditions in
  let conditions :=
    if (0 <? length (AllowHost outbound))%nat then conditions ++ ["allowed_dsts"] else conditions in
  let conditions :=
    if (0 <? length (AllowTransport outbound))%nat then conditions ++ ["allowed_methods"] else conditions in
  conditions.

Definition writeHttpAccessRules (sb : Builder)
    (outbound : option OutboundNetworkPermissions) : result Builder :=
  match outbound with
  | None => Panic nilDeref
  | Some outbound =>
      let conditions := conditions outbound in
      if (0 <? length conditions)%nat then
        let sb := WriteString sb (nl +:+ "# Define http_access rules" +:+ nl) in
        Ok (WriteString sb ("http_access allow " +:+ Join conditions " " +:+ nl))
      else Ok sb
  end.

(** [ingressPorts] lists the keys of the Go map in the order the [range]
    loop visits them; Go leaves that order open. *)
Definition writeIngressProxyConfig (sb : Builder) (ingressPorts : list string)
    (serverHostname : string) : Builder :=
  fold_left (fun sb port =>
    let portNum := SplitFirst port in
    WriteString sb
      (nl +:+ "# Reverse proxy setup for port " +:+ portNum +:+ nl +:+
       "http_port " +:+ portNum +:+ " accel defaultsite=" +:+ serverHostname +:+ nl +:+
       "cache_peer " +:+ serverHostname +:+ " parent " +:+ portNum +:+
         " 0 no-query originserver name=origin_" +:+ portNum +:+ nl +:+
       "acl site_" +:+ portNum +:+ " dstdomain " +:+ serverHostname +:+ " 127.0.0.1" +:+ nl +:+
       "http_access allow site_" +:+ portNum +:+ nl))
    ingressPorts sb.

(** What [os.CreateTemp] and the write to the file answer. *)
Record TempFileSystem := {
  CreateTemp : result string;   (* name of the fresh file *)
  FileWrite : string -> bool    (* does writing this text succeed *)
}.

Definition squidConfHeader (serverHostname : string) : string :=
  "http_port 3128" +:+ nl +:+
  "visible_hostname " +:+ serverHostname +:+ "-egress" +:+ nl +:+
  "access_log stdio:/var/log/squid/access.log squid" +:+ nl +:+
  "pid_filename /var/run/squid/squid.pid" +:+ nl +:+
  "# Disable memory and disk caching" +:+ nl +:+
  "cache deny all" +:+ nl +:+
  "cache_mem 0 MB" +:+ nl +:+
  "maximum_object_size 0 KB" +:+ nl +:+
  "maximum_object_size_in_memory 0 KB" +:+ nl +:+
  "# Don't use cache directories" +:+ nl +:+
  "cache_dir null /tmp" +:+ nl +:+
  "cache_store_log none" +:+ nl +:+ nl.

Section Document.
Context {U : UnicodeTables}.

(** The text accumulated in [sb] by [createTempSquidConf]. *)
Definition squidConfText (networkPermissions : option NetworkPermissions)
    (serverHostname : string) (ingressPorts : list string) : result string :=
  let sb : Builder := "" in
  let sb := WriteString sb (squidConfHeader serverHostname) in
  let body :=
    match networkPermissions with
    | None => Ok (WriteString sb ("# Allow all traffic" +:+ nl +:+ "http_access allow all" +:+ nl))
    | Some np =>
        if match Outbound np with Some o => InsecureAllowAll o | None => false end
        then Ok (WriteString sb ("# Allow all traffic" +:+ nl +:+ "http_access allow all" +:+ nl))
        else
          match writeOutboundACLs sb (Outbound np) with
          | Ok sb => writeHttpAccessRules sb (Outbound np)
          | Error e => Error e
          | Panic e => Panic e
          end
    end in
  match body with
  | Ok sb =>
      let sb := writeIngressProxyConfig sb ingressPorts serverHostname in
      Ok (WriteString sb ("http_access deny all" +:+ nl))
  | Error e => Error e
  | Panic e => Panic e
  end.

(** [createTempSquidConf]: returns the name of the temporary file together
    with the text written to it. *)
Definition createTempSquidConf (fs : TempFileSystem)
    (networkPermissions : option NetworkPermissions)
    (serverHostname : string) (ingressPorts : list string) : result (string * string) :=
  match squidConfText networkPermissions serverHostname ingressPorts with
  | Ok text =>
      match CreateTemp fs with
      | Ok name =>
          if FileWrite fs text then Ok (name, text)
          else Error (Errorf "failed to write to temporary file")
      | Error e => Error e
      | Panic e => Panic e
      end
  | Error e => Error e
  | Panic e => Panic e
  end.

End Document.

End docker.

(** ** The ACL document, line by line

    The lines that [createTempSquidConf] writes when the outbound permissions
    are present and not allow-all; used to state what the document holds. *)

Module squid.
Import strings docker.

Section WithUnicode.
Context {U : UnicodeTables}.

(** The tokens one [AllowTransport] entry adds to the methods line. *)
Definition methodTokens (method : string) : string := writeMethod "" method.

Definition headerLines (serverHostname : string) : list string :=
  [ "http_port 3128";
    "visible_hostname " +:+ serverHostname +:+ "-egress";
    "access_log stdio:/var/log/squid/access.log squid";
    "pid_filename /var/run/squid/squid.pid";
    "# Disable memory and disk caching";
    "cache deny all";
    "cache_mem 0 MB";
    "maximum_object_size 0 KB";
    "maximum_object_size_in_memory 0 KB";
    "# Don't use cache directories";
    "cache_dir null /tmp";
    "cache_store_log none";
    "" ].

Definition portsLine (o : OutboundNetworkPermissions) : string :=
  "acl allowed_ports port" +:+ catMap (fun port => " " +:+ Itoa port) (AllowPort o).

Definition dstsLine (o : OutboundNetworkPermissions) : string :=
  "acl allowed_dsts dstdomain" +:+ catMap (fun host => " " +:+ host) (AllowHost o).

Definition methodsLine (o : OutboundNetworkPermissions) : string :=
  "acl allowed_methods method" +:+ catMap methodTokens (AllowTransport o).

Definition accessLine (o : OutboundNetworkPermissions) : string :=
  "http_access allow " +:+ Join (conditions o) " ".

Definition portsLines (o : OutboundNetworkPermissions) : list string :=
  if (0 <? length (AllowPort o))%nat then ["# Define allowed ports"; portsLine o] else [].

Definition dstsLines (o : OutboundNetworkPermissions) : list string :=
  if (0 <? length (AllowHost o))%nat then ["# Define allowed destinations"; dstsLine o] else [].

(** The methods line is closed by the line feed that opens the rules. *)
Definition rulesLines (o : OutboundNetworkPermissions) : list string :=
  if (0 <? length (AllowTransport o))%nat
  then ["# Define allowed methods"; methodsLine o; "# Define http_access rules"; accessLine o]
  else if (0 <? length (conditions o))%nat
  then [""; "# Define http_access rules"; accessLine o]
  else [].

Definition ingressBlock (serverHostname port : string) : list string :=
  let portNum := SplitFirst port in
  [ "";
    "# Reverse proxy setup for port " +:+ portNum;
    "http_port " +:+ portNum +:+ " accel defaultsite=" +:+ serverHostname;
    "cache_peer " +:+ serverHostname +:+ " parent " +:+ portNum +:+
      " 0 no-query originserver name=origin_" +:+ portNum;
    "acl site_" +:+ portNum +:+ " dstdomain " +:+ serverHostname +:+ " 127.0.0.1";
    "http_access allow site_" +:+ portNum ].

Definition ingressLines (serverHostname : string) (ingressPorts : list string) : list string :=
  flat_map (ingressBlock serverHostname) ingressPorts.

Definition restrictedLines (o : OutboundNetworkPermissions)
    (serverHostname : string) (ingressPorts : list string) : list string :=
  headerLines serverHostname ++ portsLines o ++ dstsLines o ++ rulesLines o ++
  ingressLines serverHostname ingressPorts ++ ["http_access deny all"].

End WithUnicode.

(** Only the destinations line starts like this. *)
Definition dstsPrefix : string := "acl allowed_d".

(** The document holds the line [l]. *)
Definition hasLine (text l : string) : Prop := In l (lines text).

(** How many lines of the document are [l]. *)
Definition countLine (text l : string) : nat := count_occ String.string_dec (lines text) l.

(** The last [http_access] rule of the document. *)
Definition finalRule (text : string) : option string :=
  last (filter (fun l => String.prefix "http_access" l = true) (lines text)).

End squid.

(** ** pkg/container/docker: comparing an existing container with the
    desired configuration *)

Module reconcile.
Import strings.

(** runtime.Mount *)
Record Mount := { Source : string; Target : string; ReadOnly : bool }.

(** mount.Mount of the engine API (bind mounts only). *)
Record DockerMount := {
  MountType : string; MountSource : string; MountTarget : string; MountReadOnly : bool
}.

(** runtime.PortBinding and nat.PortBinding have the same two fields. *)
Record PortBinding := { HostIP : string; HostPort : string }.

(** container.Config; [ExposedPorts] is a nat.PortSet. *)
Record Config := {
  Image : string;
  Cmd : list string;
  Env : list string;
  Labels : gmap string string;
  AttachStdin : bool;
  AttachStdout : bool;
  AttachStderr : bool;
  OpenStdin : bool;
  Tty : bool;
  ExposedPorts : gset string
}.

(** container.HostConfig; [RestartPolicy] is the policy's name. *)
Record HostConfig := {
  Mounts : list DockerMount;
  NetworkMode : string;
  CapAdd : list string;
  CapDrop : list string;
  SecurityOpt : list string;
  RestartPolicy : string;
  PortBindings : gmap string (list PortBinding);
  DNS : list string
}.

(** container.InspectResponse: name, run state, configuration, and the IP
    address on each attached network. *)
Record InspectResponse := {
  InspectName : string;
  Running : bool;
  ExistingConfig : Config;
  ExistingHostConfig : HostConfig;
  Networks : gmap string string
}.

(** [for i, x := range l { if !f(i, x) { return false } }; return true] *)
Fixpoint rangeAll {A} (f : nat -> A -> bool) (i : nat) (l : list A) : bool :=
  match l with
  | [] => true
  | x :: r => f i x && rangeAll f (S i) r
  end.

(** compareStringSlices *)
Definition compareStringSlices (existing desired : list string) : bool :=
  if negb (length existing =? length desired)%nat then false
  else rangeAll (fun i s =>
         negb ((length desired <=? i)%nat
               || negb (bool_decide (Some s = desired !! i)))) 0 existing.

(** [strings.SplitN(e, "=", 2)]: [Some (k, v)] when [e] is [k=v] (cut at the
    first equals sign), [None] when [e] holds no equals sign. *)
Fixpoint cutEquals (e : string) : option (string * string) :=
  match e with
  | EmptyString => None
  | String c r =>
      if Ascii.eqb c "=" then Some (EmptyString, r)
      else match cutEquals r with
           | Some (k, v) => Some (String c k, v)
           | None => None
           end
  end.

(** envSliceToMap *)
Definition envSliceToMap (env : list string) : gmap string string :=
  fold_left (fun result e =>
               match cutEquals e with
               | Some (k, v) => <[k := v]> result
               | None => result
               end) env ∅.

(** compareLabels: every desired label is present with the same value.
    The order in which the Go loop visits the map does not matter for the
    answer. *)
Definition compareLabels (existingLabels desiredLabels : gmap string string) : bool :=
  bool_decide (map_Forall (fun k v => existingLabels !! k = Some v) desiredLabels).

(** compareEnvVars *)
Definition compareEnvVars (existingEnv desiredEnv : list string) : bool :=
  let existingMap := envSliceToMap existingEnv in
  let desiredMap := envSliceToMap desiredEnv in
  bool_decide (map_Forall (fun k v => existingMap !! k = Some v) desiredMap).

(** compareBasicConfig *)
Definition compareBasicConfig (existing : InspectResponse) (desired : Config) : bool :=
  if negb (String.eqb (Image (ExistingConfig existing)) (Image desired)) then false
  else if negb (length (Cmd (ExistingConfig existing)) =? length (Cmd desired))%nat then false
  else if negb (rangeAll (fun i cmd =>
                  negb ((length (Cmd desired) <=? i)%nat
                        || negb (bool_decide (Some cmd = Cmd desired !! i))))
                0 (Cmd (ExistingConfig existing))) then false
  else if negb (compareEnvVars (Env (ExistingConfig existing)) (Env desired)) then false
  else if negb (compareLabels (Labels (ExistingConfig existing)) (Labels desired)) then false
  else if negb (Bool.eqb (AttachStdin (ExistingConfig existing)) (AttachStdin desired))
          || negb (Bool.eqb (AttachStdout (ExistingConfig existing)) (AttachStdout desired))
          || negb (Bool.eqb (AttachStderr (ExistingConfig existing)) (AttachStderr desired))
          || negb (Bool.eqb (OpenStdin (ExistingConfig existing)) (OpenStdin desired))
  then false
  else true.

(** compareHostConfig *)
Definition compareHostConfig (existing : InspectResponse) (desired : HostConfig) : bool :=
  if negb (String.eqb (NetworkMode (ExistingHostConfig existing)) (NetworkMode desired)) then false
  else if negb (compareStringSlices (CapAdd (ExistingHostConfig existing)) (CapAdd desired)) then false
  else if negb (compareStringSlices (CapDrop (ExistingHostConfig existing)) (CapDrop desired)) then false
  else if negb (compareStringSlices (SecurityOpt (ExistingHostConfig existing)) (SecurityOpt desired)) then false
  else if negb (String.eqb (RestartPolicy (ExistingHostConfig existing)) (RestartPolicy desired)) then false
  else true.

(** compareMounts: the existing mounts are indexed by target (a later mount
    with the same target replaces an earlier one). *)
Definition compareMounts (existing : InspectResponse) (desired : HostConfig) : bool :=
  if negb (length (Mounts (ExistingHostConfig existing)) =? length (Mounts desired))%nat then false
  else
    let existingMountsMap : gmap string DockerMount :=
      fold_left (fun m mt => <[MountTarget mt := mt]> m)
                (Mounts (ExistingHostConfig existing)) ∅ in
    forallb (fun desiredMount =>
               match existingMountsMap !! MountTarget desiredMount with
               | None => false
               | Some existingMount =>
                   String.eqb (MountSource existingMount) (MountSource desiredMount)
                   && Bool.eqb (MountReadOnly existingMount) (MountReadOnly desiredMount)
               end) (Mounts desired).

(** comparePortConfig *)
Definition comparePortConfig (existing : InspectResponse) (desired : Config)
    (desiredHost : HostConfig) : bool :=
  if negb (size (ExposedPorts (ExistingConfig existing)) =? size (ExposedPorts desired))%nat
  then false
  else if negb (bool_decide (set_Forall (fun port => port ∈ ExposedPorts (ExistingConfig existing))
                                        (ExposedPorts desired)))
  then false
  else if negb (size (PortBindings (ExistingHostConfig existing))
                =? size (PortBindings desiredHost))%nat
  then false
  else
    bool_decide (map_Forall (fun port bindings =>
      match PortBindings (ExistingHostConfig existing) !! port with
      | None => false
      | Some existingBindings =>
          (length existingBindings =? length bindings)%nat
          && rangeAll (fun i binding =>
               match existingBindings !! i with
               | None => false
               | Some eb => String.eqb (HostIP eb) (HostIP binding)
                            && String.eqb (HostPort eb) (HostPort binding)
               end) 0 bindings
      end = true) (PortBindings desiredHost)).

(** compareContainerConfig *)
Definition compareContainerConfig (existing : InspectResponse) (desired : Config)
    (desiredHost : HostConfig) : bool :=
  if negb (compareBasicConfig existing desired) then false
  else if negb (compareHostConfig existing desiredHost) then false
  else if negb (compareMounts existing desiredHost) then false
  else if negb (comparePortConfig existing desired desiredHost) then false
  else true.

End reconcile.

(** ** pkg/container/docker: the client, over an abstract container engine *)

Module client.
Import strings docker reconcile.

(** *** The engine API and the log of calls made to it *)

(** container.ListOptions: [All] and the filter arguments. *)
Record ListOptions := { All : bool; Filters : list (string * string) }.

(** container.Summary, as far as it is read. *)
Record Summary := { ID : string; Names : list string }.

(** network.CreateOptions *)
Record NetworkCreateOptions := {
  Driver : string; Internal : bool; NetworkLabels : gmap string string
}.

Inductive Call : Type :=
  | ContainerList (options : ListOptions)
  | ContainerInspect (containerID : string)
  | ContainerCreate (containerName : string) (config : Config) (hostConfig : HostConfig)
      (endpointsConfig : gset string)
  | ContainerStart (containerID : string)
  | ContainerStop (containerID : string) (timeoutSeconds : Z)
  | ContainerRemove (containerID : string) (force : bool)
  | NetworkList (name : string)
  | NetworkCreate (name : string) (options : NetworkCreateOptions)
  | NetworkRemove (networkID : string)
  | ImagePull (imageName : string)
  | WriteTempFile (name text : string).

(** What the engine answers, and the state it is left in. [E] is the state
    of the engine; nothing is assumed about it. *)
Record API (E : Type) := {
  doContainerList : ListOptions -> E -> result (list Summary) * E;
  doContainerInspect : string -> E -> result InspectResponse * E;
  doContainerCreate : string -> Config -> HostConfig -> gset string -> E -> result string * E;
  doContainerStart : string -> E -> result unit * E;
  doContainerStop : string -> Z -> E -> result unit * E;
  doContainerRemove : string -> bool -> E -> result unit * E;
  doNetworkList : string -> E -> result (list string) * E;  (* IDs of the networks found *)
  doNetworkCreate : string -> NetworkCreateOptions -> E -> result string * E;
  doNetworkRemove : string -> E -> result unit * E;
  doImagePull : string -> E -> result unit * E
}.
Arguments doContainerList {E}. Arguments doContainerInspect {E}.
Arguments doContainerCreate {E}. Arguments doContainerStart {E}.
Arguments doContainerStop {E}. Arguments doContainerRemove {E}.
Arguments doNetworkList {E}. Arguments doNetworkCreate {E}.
Arguments doNetworkRemove {E}. Arguments doImagePull {E}.

Record World (E : Type) := { engine : E; calls : list Call }.
Arguments engine {E}. Arguments calls {E}.

(** *** A state and error monad for the client code *)

Definition M (E A : Type) : Type := World E -> result A * World E.

Global Instance M_ret {E} : MRet (M E) := fun A a w => (Ok a, w).
Global Instance M_bind {E} : MBind (M E) := fun A B f m w =>
  match m w with
  | (Ok a, w') => f a w'
  | (Error e, w') => (Error e, w')
  | (Panic p, w') => (Panic p, w')
  end.

Definition fail {E A} (e : error) : M E A := fun w => (Error e, w).
Definition panic {E A} (p : string) : M E A := fun w => (Panic p, w).

(** [x, err := m]: the error is handed to the code that follows. *)
Definition try {E A} (m : M E A) : M E (result A) := fun w =>
  match m w with
  | (Panic p, w') => (Panic p, w')
  | (r, w') => (Ok r, w')
  end.

(** [if err != nil { return wrap(err) }] *)
Definition orFail {E A} (m : M E A) (wrap : error -> error) : M E A :=
  r ← try m;
  match r with
  | Ok a => mret a
  | Error e => fail (wrap e)
  | Panic p => panic p
  end.

(** A result computed without the engine. *)
Definition lift {E A} (r : result A) : M E A := fun w => (r, w).

(** One call of the engine API, logged. *)
Definition call {E A} (c : Call) (f : E -> result A * E) : M E A := fun w =>
  let (r, e) := f (engine w) in
  (r, {| engine := e; calls := calls w ++ [c] |}).

(** What the client takes from outside this package. *)
Record Externals := {
  fs : TempFileSystem;
  (** nat.NewPort(proto, port) *)
  NewPort : string -> string -> result string;
  (** labels.AddStandardLabels and labels.AddNetworkLabels *)
  AddStandardLabels : gmap string string -> string -> string -> string -> Z -> gmap string string;
  AddNetworkLabels : gmap string string -> string -> gmap string string;
  (** A mount declaration resolved to (absolute source, target): its
      [Parse], the skip of resource URIs and
      [convertRelativePathToAbsolute]; [None] when the mount is skipped. *)
  resolveMount : string -> option (string * string)
}.

Definition EgressImage : string := "ubuntu/squid:latest".
Definition DnsImage : string := "dockurr/dnsmasq:latest".

(** Modelled from the spec: permissions.Profile, with the mount declarations
    of [Read] and [Write] and the optional network permissions. *)
Record Profile := {
  Read : list string;
  Write : list string;
  Network : option NetworkPermissions
}.

(** runtime.PermissionConfig *)
Record PermissionConfig := {
  PermMounts : list Mount;
  PermNetworkMode : string;
  PermCapDrop : list string;
  PermCapAdd : list string;
  PermSecurityOpt : list string
}.

(** runtime.DeployWorkloadOptions *)
Record DeployWorkloadOptions := {
  OptExposedPorts : gset string;
  OptPortBindings : gmap string (list PortBinding);
  AttachStdio : bool
}.

(** needsNetworkAccess, from the earlier revision of the client
    (pkg/container/docker/client.go): the outbound permissions are read only
    when both the network permissions and their outbound part are set. *)
Definition needsNetworkAccess (profile : option Profile) (transportType : string)
    : result bool :=
  if String.eqb transportType "sse" then Ok true
  else
    match profile with
    | None => Panic nilDeref
    | Some profile =>
        match Network profile with
        | Some network =>
            match Outbound network with
            | Some outbound =>
                if InsecureAllowAll outbound
                   || (0 <? length (AllowTransport outbound))%nat
                   || (0 <? length (AllowHost outbound))%nat
                   || (0 <? length (AllowPort outbound))%nat
                then Ok true
                else Ok false
            | None => Ok false
            end
        | None => Ok false
        end
    end.

(** [strings.TrimPrefix(s, "/")] *)
Definition TrimSlash (s : string) : string :=
  match s with
  | String c r => if Ascii.eqb c "/" then r else s
  | EmptyString => s
  end.

(** convertEnvVars; the entries come in the order of [map_to_list], Go
    leaves the order open. *)
Definition convertEnvVars (envVars : gmap string string) : list string :=
  (fun kv => fst kv +:+ "=" +:+ snd kv) <$> map_to_list envVars.

(** convertMounts *)
Definition convertMounts (mounts : list Mount) : list DockerMount :=
  (fun m => {| MountType := "bind"; MountSource := Source m;
               MountTarget := Target m; MountReadOnly := ReadOnly m |}) <$> mounts.

Section WithExternals.
Context (ext : Externals).

(** setupExposedPorts; the ports are visited in the order of [elements]. *)
Definition setupExposedPorts (config : Config) (exposedPorts : gset string) : result Config :=
  if (size exposedPorts =? 0)%nat then Ok config
  else
    match
      fold_left (fun acc port =>
                   match acc with
                   | Ok ports =>
                       match NewPort ext "tcp" (SplitFirst port) with
                       | Ok natPort => Ok ({[natPort]} ∪ ports)
                       | Error _ => Error (Errorf "failed to parse port")
                       | Panic p => Panic p
                       end
                   | other => other
                   end) (elements exposedPorts) (Ok (∅ : gset string))
    with
    | Ok ports =>
        Ok {| Image := Image config; Cmd := Cmd config; Env := Env config;
              Labels := Labels config; AttachStdin := AttachStdin config;
              AttachStdout := AttachStdout config; AttachStderr := AttachStderr config;
              OpenStdin := OpenStdin config; Tty := Tty config; ExposedPorts := ports |}
    | Error e => Error e
    | Panic p => Panic p
    end.

(** setupPortBindings *)
Definition setupPortBindings (hostConfig : HostConfig)
    (portBindings : gmap string (list PortBinding)) : result HostConfig :=
  if (size portBindings =? 0)%nat then Ok hostConfig
  else
    match
      fold_left (fun acc pb =>
                   match acc with
                   | Ok bindings =>
                       match NewPort ext "tcp" (SplitFirst (fst pb)) with
                       | Ok natPort => Ok (<[natPort := snd pb]> bindings)
                       | Error _ => Error (Errorf "failed to parse port")
                       | Panic p => Panic p
                       end
                   | other => other
                   end) (map_to_list portBindings)
                (Ok (∅ : gmap string (list PortBinding)))
    with
    | Ok bindings =>
        Ok {| Mounts := Mounts hostConfig; NetworkMode := NetworkMode hostConfig;
              CapAdd := CapAdd hostConfig; CapDrop := CapDrop hostConfig;
              SecurityOpt := SecurityOpt hostConfig;
              RestartPolicy := RestartPolicy hostConfig;
              PortBindings := bindings; DNS := DNS hostConfig |}
    | Error e => Error e
    | Panic p => Panic p
    end.

(** addReadOnlyMounts *)
Definition addReadOnlyMounts (mounts : list Mount) (decls : list string) : list Mount :=
  fold_left (fun mounts mountDecl =>
               match resolveMount ext mountDecl with
               | None => mounts
               | Some (absPath, target) =>
                   mounts ++ [{| Source := absPath; Target := target; ReadOnly := true |}]
               end) decls mounts.

(** The inner loop of addReadWriteMounts: the first mount with this
    target is made read-write. *)
Fixpoint upgradeMount (mounts : list Mount) (target : string) : option (list Mount) :=
  match mounts with
  | [] => None
  | m :: rest =>
      if String.eqb (Target m) target
      then Some ({| Source := Source m; Target := Target m; ReadOnly := false |} :: rest)
      else cons m <$> upgradeMount rest target
  end.

(** addReadWriteMounts *)
Definition addReadWriteMounts (mounts : list Mount) (decls : list string) : list Mount :=
  fold_left (fun mounts mountDecl =>
               match resolveMount ext mountDecl with
               | None => mounts
               | Some (absPath, target) =>
                   match upgradeMount mounts target with
                   | Some mounts' => mounts'
                   | None =>
                       mounts ++ [{| Source := absPath; Target := target; ReadOnly := false |}]
                   end
               end) decls mounts.

(** getPermissionConfigFromProfile; a nil profile is dereferenced. *)
Definition getPermissionConfigFromProfile (profile : option Profile)
    (transportType : string) : result PermissionConfig :=
  match profile with
  | None => Panic nilDeref
  | Some profile =>
      let mounts := addReadOnlyMounts [] (Read profile) in
      let mounts := addReadWriteMounts mounts (Write profile) in
      if negb (String.eqb transportType "sse") && negb (String.eqb transportType "stdio")
         && negb (String.eqb transportType "inspector")
      then Error (Errorf "unsupported transport type")
      else Ok {| PermMounts := mounts; PermNetworkMode := "none";
                 PermCapDrop := ["ALL"]; PermCapAdd := []; PermSecurityOpt := [] |}
  end.

End WithExternals.

(** *** The client methods *)

Section Client.
Context {U : UnicodeTables} {E : Type} (api : API E) (ext : Externals).

(** The inner loops of findExistingContainer: the first container one of
    whose names is [name], with or without the leading slash. *)
Fixpoint findByName (containers : list Summary) (name : string) : string :=
  match containers with
  | [] => ""
  | cont :: rest =>
      if existsb (fun containerName =>
                    String.eqb containerName ("/" +:+ name) || String.eqb containerName name)
                 (Names cont)
      then ID cont
      else findByName rest name
  end.

(** findExistingContainer *)
Definition findExistingContainer (name : string) : M E string :=
  let options := {| All := true; Filters := [("name", name)] |} in
  containers ← orFail (call (ContainerList options) (doContainerList api options))
                      (fun err => ContainerError err "" "failed to list containers");
  mret (findByName containers name).

(** IsWorkloadRunning *)
Definition IsWorkloadRunning (workloadID : string) : M E bool :=
  r ← try (call (ContainerInspect workloadID) (doContainerInspect api workloadID));
  match r with
  | Ok info => mret (Running info)
  | Error err =>
      if IsNotFound err
      then fail (ContainerError ErrContainerNotFound workloadID "workload not found")
      else fail (ContainerError err workloadID "failed to inspect workload")
  | Panic p => panic p
  end.

(** The stop of the egress or dns container in StopWorkload: failures are
    only logged. *)
Definition stopCompanion (companionName : string) (timeoutSeconds : Z) : M E unit :=
  r ← try (findExistingContainer companionName);
  match r with
  | Ok companionId =>
      _ ← try (call (ContainerStop companionId timeoutSeconds)
                    (doContainerStop api companionId timeoutSeconds));
      mret ()
  | _ => mret ()
  end.

(** StopWorkload *)
Definition StopWorkload (workloadID : string) : M E unit :=
  r ← try (IsWorkloadRunning workloadID);
  match r with
  | Error (ContainerError ErrContainerNotFound _ _) => mret ()
  | Error err => fail err
  | Panic p => panic p
  | Ok running =>
      if negb running then mret ()
      else
        let timeoutSeconds := 30 in
        _ ← orFail (call (ContainerStop workloadID timeoutSeconds)
                         (doContainerStop api workloadID timeoutSeconds))
                   (fun err => ContainerError err workloadID "failed to stop workload");
        r ← try (call (ContainerInspect workloadID) (doContainerInspect api workloadID));
        match r with
        | Ok containerResponse =>
            let containerName := TrimSlash (InspectName containerResponse) in
            let egressContainerName := containerName +:+ "-egress" in
            let dnsContainerName := containerName +:+ "-dns" in
            _ ← stopCompanion egressContainerName timeoutSeconds;
            stopCompanion dnsContainerName timeoutSeconds
        | _ => mret ()
        end
  end.

(** deleteNetwork *)
Definition deleteNetwork (name : string) : M E unit :=
  networks ← call (NetworkList name) (doNetworkList api name);
  match networks with
  | [] => fail (Errorf "network not found")
  | networkID :: _ =>
      orFail (call (NetworkRemove networkID) (doNetworkRemove api networkID))
             (fun _ => Errorf "failed to remove network")
  end.

(** createNetwork *)
Definition createNetwork (name : string) (labels : gmap string string)
    (internal : bool) : M E unit :=
  networks ← orFail (call (NetworkList name) (doNetworkList api name))
                    (fun _ => Errorf "failed to list networks");
  if (0 <? length networks)%nat then mret ()
  else
    let networkCreate := {| Driver := "bridge"; Internal := internal;
                            NetworkLabels := labels |} in
    _ ← call (NetworkCreate name networkCreate) (doNetworkCreate api name networkCreate);
    mret ().

(** The removal of the egress or dns container in RemoveWorkload. The
    answer tells whether RemoveWorkload goes on ([true]) or returns nil
    at once because the companion was not found by the engine. *)
Definition removeCompanion (companionName what : string) : M E bool :=
  r ← try (findExistingContainer companionName);
  match r with
  | Ok companionId =>
      r ← try (call (ContainerRemove companionId true)
                    (doContainerRemove api companionId true));
      match r with
      | Ok _ => mret true
      | Error err =>
          if IsNotFound err then mret false
          else fail (ContainerError err companionId what)
      | Panic p => panic p
      end
  | _ => mret true
  end.

(** RemoveWorkload *)
Definition RemoveWorkload (workloadID : string) : M E unit :=
  r ← try (call (ContainerInspect workloadID) (doContainerInspect api workloadID));
  let containerName :=
    match r with
    | Ok containerResponse => TrimSlash (InspectName containerResponse)
    | _ => ""
    end in
  r ← try (call (ContainerRemove workloadID true) (doContainerRemove api workloadID true));
  match r with
  | Error err =>
      if IsNotFound err then mret ()
      else fail (ContainerError err workloadID "failed to remove workload")
  | Panic p => panic p
  | Ok _ =>
      let egressContainerName := containerName +:+ "-egress" in
      let dnsContainerName := containerName +:+ "-dns" in
      goOn ← removeCompanion egressContainerName "failed to remove egress container";
      if negb goOn then mret ()
      else
        goOn ← removeCompanion dnsContainerName "failed to remove dns container";
        if negb goOn then mret ()
        else
          let options := {| All := true; Filters := [("label", "toolhive=true")] |} in
          toolHiveContainers ←
            orFail (call (ContainerList options) (doContainerList api options))
                   (fun _ => Errorf "failed to list containers");
          let networkName := "toolhive-" +:+ containerName +:+ "-internal" in
          _ ← try (deleteNetwork networkName);
          if (length toolHiveContainers =? 0)%nat
          then _ ← try (deleteNetwork "toolhive-external"); mret ()
          else mret ()
  end.

(** handleExistingContainer: [true] when the container is reused, [false]
    when it was removed and has to be created again. *)
Definition handleExistingContainer (containerID : string) (desiredConfig : Config)
    (desiredHostConfig : HostConfig) : M E bool :=
  info ← orFail (call (ContainerInspect containerID) (doContainerInspect api containerID))
                (fun err => ContainerError err containerID "failed to inspect container");
  if compareContainerConfig info desiredConfig desiredHostConfig then
    _ ← (if negb (Running info) then
           orFail (call (ContainerStart containerID) (doContainerStart api containerID))
                  (fun err => ContainerError err containerID
                                "failed to start existing container")
         else mret ());
    mret true
  else
    _ ← StopWorkload containerID;
    _ ← RemoveWorkload containerID;
    mret false.

(** createContainer *)
Definition createContainer (containerName : string) (config : Config)
    (hostConfig : HostConfig) (endpointsConfig : gset string) : M E string :=
  existingID ← findExistingContainer containerName;
  canReuse ←
    (if negb (String.eqb existingID "")
     then handleExistingContainer existingID config hostConfig
     else mret false);
  if negb (String.eqb existingID "") && canReuse then mret existingID
  else
    respID ← orFail (call (ContainerCreate containerName config hostConfig endpointsConfig)
                          (doContainerCreate api containerName config hostConfig
                                             endpointsConfig))
                    (fun err => ContainerError err "" "failed to create container");
    _ ← orFail (call (ContainerStart respID) (doContainerStart api respID))
               (fun err => ContainerError err respID "failed to start container");
    mret respID.

(** PullImage *)
Definition PullImage (imageName : string) : M E unit :=
  orFail (call (ImagePull imageName) (doImagePull api imageName))
         (fun err => ContainerError err "" "failed to pull image").

(** createTempSquidConf, with the file it writes logged. *)
Definition writeSquidConf (perm : option NetworkPermissions) (serverHostname : string)
    (ingressPorts : list string) : M E string := fun w =>
  match createTempSquidConf (fs ext) perm serverHostname ingressPorts with
  | Ok (name, text) =>
      (Ok name, {| engine := engine w; calls := calls w ++ [WriteTempFile name text] |})
  | Error e => (Error e, w)
  | Panic p => (Panic p, w)
  end.

(** createEgressContainers *)
Definition createEgressContainers (containerName egressContainerName dnsContainerName : string)
    (attachStdio : bool) (perm : option NetworkPermissions)
    (portBindings : gmap string (list PortBinding)) (exposedPorts : gset string)
    : M E (string * string * string) :=
  let egressLabels :=
    AddStandardLabels ext ∅ egressContainerName egressContainerName "stdio" 80 in
  let dnsLabels := AddStandardLabels ext ∅ dnsContainerName dnsContainerName "stdio" 80 in
  _ ← orFail (PullImage EgressImage) (fun _ => Errorf "failed to pull egress image");
  _ ← orFail (PullImage DnsImage) (fun _ => Errorf "failed to pull DNS image");
  let config := {| Image := EgressImage; Cmd := []; Env := []; Labels := egressLabels;
                   AttachStdin := attachStdio; AttachStdout := attachStdio;
                   AttachStderr := attachStdio; OpenStdin := attachStdio; Tty := false;
                   ExposedPorts := ∅ |} in
  let configDns := {| Image := DnsImage; Cmd := []; Env := []; Labels := dnsLabels;
                      AttachStdin := attachStdio; AttachStdout := attachStdio;
                      AttachStderr := attachStdio; OpenStdin := attachStdio; Tty := false;
                      ExposedPorts := ∅ |} in
  squidConfPath ← orFail (writeSquidConf perm containerName (elements exposedPorts))
                         (fun _ => Errorf "failed to create temporary squid.conf");
  let mounts := [{| Source := squidConfPath; Target := "/etc/squid/squid.conf";
                    ReadOnly := true |}] in
  let egressHostConfig := {| Mounts := convertMounts mounts; NetworkMode := "bridge";
                             CapAdd := ["CAP_SETUID"; "CAP_SETGID"]; CapDrop := [];
                             SecurityOpt := []; RestartPolicy := "unless-stopped";
                             PortBindings := ∅; DNS := [] |} in
  let dnsHostConfig := {| Mounts := convertMounts mounts; NetworkMode := "bridge";
                          CapAdd := []; CapDrop := []; SecurityOpt := [];
                          RestartPolicy := "unless-stopped";
                          PortBindings := ∅; DNS := [] |} in
  let networkName := "toolhive-" +:+ containerName +:+ "-internal" in
  let endpointsConfig : gset string := {[networkName; "toolhive-external"]} in
  dnsContainerId ← orFail (createContainer dnsContainerName configDns dnsHostConfig
                                           endpointsConfig)
                          (fun _ => Errorf "failed to create dns container");
  dnsContainerResponse ←
    orFail (call (ContainerInspect dnsContainerId) (doContainerInspect api dnsContainerId))
           (fun _ => Errorf "failed to inspect DNS container");
  match Networks dnsContainerResponse !! networkName with
  | None => fail (Errorf "network not found in container's network settings")
  | Some dnsContainerIP =>
      config ← orFail (lift (setupExposedPorts ext config exposedPorts))
                      (fun err => ContainerError err "" "failed to parse port");
      egressHostConfig ← orFail (lift (setupPortBindings ext egressHostConfig portBindings))
                                (fun err => ContainerError err "" "failed to parse port");
      egressContainerId ← orFail (createContainer egressContainerName config egressHostConfig
                                                  endpointsConfig)
                                 (fun _ => Errorf "failed to create egress container");
      mret (egressContainerId, dnsContainerId, dnsContainerIP)
  end.

(** createContainerNetworks: a failure to create the external network is
    only logged. *)
Definition createContainerNetworks (internalNetworkName externalNetworkName : string)
    : M E unit :=
  let internalNetworkLabels := AddNetworkLabels ext ∅ internalNetworkName in
  _ ← orFail (createNetwork internalNetworkName internalNetworkLabels true)
             (fun _ => Errorf "failed to create internal network");
  let externalNetworkLabels := AddNetworkLabels ext ∅ externalNetworkName in
  _ ← try (createNetwork externalNetworkName externalNetworkLabels false);
  mret ().

(** The egress set-up of DeployWorkload for an MCP workload: the
    additional DNS server and the environment with the proxy variables.
    [permissionProfile.Network], [options.PortBindings] and
    [options.ExposedPorts] are read before the call. *)
Definition deployEgress (name : string) (envVars : option (gmap string string))
    (permissionProfile : option Profile) (options : option DeployWorkloadOptions)
    (attachStdio : bool) : M E (string * option (gmap string string)) :=
  let egressContainerName := name +:+ "-egress" in
  let dnsContainerName := name +:+ "-dns" in
  match permissionProfile, options with
  | None, _ | _, None => panic nilDeref
  | Some profile, Some opts =>
      '(_, _, dnsContainerIP) ←
        orFail (createEgressContainers name egressContainerName dnsContainerName attachStdio
                  (Network profile) (OptPortBindings opts) (OptExposedPorts opts))
               (fun _ => Errorf "failed to create egress container");
      let additionalDNS := dnsContainerIP in
      let egressHost := "http://" +:+ egressContainerName +:+ ":3128" in
      let envVars := match envVars with Some m => m | None => ∅ end in
      let envVars := <["HTTP_PROXY" := egressHost]> envVars in
      let envVars := <["HTTPS_PROXY" := egressHost]> envVars in
      let envVars := <["http_proxy" := egressHost]> envVars in
      let envVars := <["https_proxy" := egressHost]> envVars in
      let envVars := <["NO_PROXY" := "localhost,127.0.0.1,::1"]> envVars in
      let envVars := <["no_proxy" := "localhost,127.0.0.1,::1"]> envVars in
      mret (additionalDNS, Some envVars)
  end.

(** DeployWorkload. [envVars] and [labels] are Go maps and may be nil;
    [permissionProfile] and [options] are pointers. *)
Definition DeployWorkload (image name : string) (command : list string)
    (envVars labels : option (gmap string string))
    (permissionProfile : option Profile) (transportType : string)
    (options : option DeployWorkloadOptions) : M E string :=
  let isMcpWorkload := negb (String.eqb name "inspector") in
  permissionConfig ←
    orFail (lift (getPermissionConfigFromProfile ext permissionProfile transportType))
           (fun _ => Errorf "failed to get permission config");
  let attachStdio := match options with None => true | Some o => AttachStdio o end in
  let networkName := "toolhive-" +:+ name +:+ "-internal" in
  _ ← orFail (createContainerNetworks networkName "toolhive-external")
             (fun _ => Errorf "failed to create container networks");
  '(additionalDNS, envVars) ←
    (if isMcpWorkload
     then deployEgress name envVars permissionProfile options attachStdio
     else mret ("", envVars));
  match labels with
  | None => panic "assignment to entry in nil map"
  | Some labels =>
      let labels := <["toolhive-main-workload" := "true"]> labels in
      let config := {| Image := image; Cmd := command;
                       Env := convertEnvVars (default ∅ envVars);
                       Labels := labels;
                       AttachStdin := attachStdio; AttachStdout := attachStdio;
                       AttachStderr := attachStdio; OpenStdin := attachStdio; Tty := false;
                       ExposedPorts := ∅ |} in
      let hostConfig := {| Mounts := convertMounts (PermMounts permissionConfig);
                           NetworkMode := PermNetworkMode permissionConfig;
                           CapAdd := PermCapAdd permissionConfig;
                           CapDrop := PermCapDrop permissionConfig;
                           SecurityOpt := PermSecurityOpt permissionConfig;
                           RestartPolicy := "unless-stopped";
                           PortBindings := ∅;
                           DNS := if String.eqb additionalDNS "" then []
                                  else [additionalDNS] |} in
      '(config, hostConfig) ←
        match options with
        | None => mret (config, hostConfig)
        | Some opts =>
            config ← orFail (lift (setupExposedPorts ext config (OptExposedPorts opts)))
                            (fun err => ContainerError err "" "failed to parse port");
            hostConfig ← orFail (lift (setupPortBindings ext hostConfig
                                                         (OptPortBindings opts)))
                                (fun err => ContainerError err "" "failed to parse port");
            mret (config, hostConfig)
        end;
      let endpointsConfig : gset string := {[networkName]} in
      let endpointsConfig :=
        if negb isMcpWorkload then endpointsConfig ∪ {["toolhive-external"]}
        else endpointsConfig in
      orFail (createContainer name config hostConfig endpointsConfig)
             (fun _ => Errorf "failed to create container")
  end.

End Client.

End client.

(** ** A small container engine, to run the client on *)

Module fake.
Import strings docker reconcile client.

(** The small engine is run on ASCII texts. *)
#[local] Existing Instance asciiTables.

Record Container := {
  cID : string;
  cName : string;
  cRunning : bool;
  cConfig : Config;
  cHostConfig : HostConfig;
  cNetworks : gset string
}.

Definition Engine := list Container.

Definition notFound : error := EngineError true "No such container".

Definition lookupContainer (e : Engine) (id : string) : option Container :=
  List.find (fun c => String.eqb (cID c) id) e.

Definition setRunning (id : string) (running : bool) (e : Engine) : Engine :=
  (fun c => if String.eqb (cID c) id
            then {| cID := cID c; cName := cName c; cRunning := running;
                    cConfig := cConfig c; cHostConfig := cHostConfig c;
                    cNetworks := cNetworks c |}
            else c) <$> e.

Definition inspect (c : Container) : InspectResponse :=
  {| InspectName := "/" +:+ cName c; Running := cRunning c;
     ExistingConfig := cConfig c; ExistingHostConfig := cHostConfig c;
     Networks := gset_to_gmap "172.18.0.2" (cNetworks c) |}.

Definition api : API Engine := {|
  doContainerList := fun _ e =>
    (Ok ((fun c => {| ID := cID c; Names := ["/" +:+ cName c] |}) <$> e), e);
  doContainerInspect := fun id e =>
    match lookupContainer e id with
    | Some c => (Ok (inspect c), e)
    | None => (Error notFound, e)
    end;
  doContainerCreate := fun name config hostConfig endpoints e =>
    (Ok ("id-" +:+ name),
     e ++ [{| cID := "id-" +:+ name; cName := name; cRunning := false;
              cConfig := config; cHostConfig := hostConfig; cNetworks := endpoints |}]);
  doContainerStart := fun id e =>
    match lookupContainer e id with
    | Some _ => (Ok (), setRunning id true e)
    | None => (Error notFound, e)
    end;
  doContainerStop := fun id _ e =>
    match lookupContainer e id with
    | Some _ => (Ok (), setRunning id false e)
    | None => (Error notFound, e)
    end;
  doContainerRemove := fun id _ e =>
    match lookupContainer e id with
    | Some _ => (Ok (), List.filter (fun c => negb (String.eqb (cID c) id)) e)
    | None => (Error notFound, e)
    end;
  doNetworkList := fun _ e => (Ok [], e);
  doNetworkCreate := fun name _ e => (Ok ("net-" +:+ name), e);
  doNetworkRemove := fun _ e => (Ok (), e);
  doImagePull := fun _ e => (Ok (), e)
|}.

(** [tmp] is the name that os.CreateTemp gives to the next file. *)
Definition extWith (tmp : string) : Externals := {|
  fs := {| CreateTemp := Ok tmp; FileWrite := fun _ => true |};
  NewPort := fun proto port => Ok (port +:+ "/" +:+ proto);
  AddStandardLabels := fun labels name _ transport _ =>
    <["toolhive" := "true"]> (<["toolhive-name" := name]>
      (<["toolhive-transport" := transport]> labels));
  AddNetworkLabels := fun labels name =>
    <["toolhive" := "true"]> (<["toolhive-network-name" := name]> labels);
  resolveMount := fun _ => None
|}.

Definition ext : Externals := extWith "/tmp/squid-1.conf".

Definition emptyWorld : World Engine := {| engine := []; calls := [] |}.

Definition fetchProfile : Profile :=
  {| Read := []; Write := [];
     Network := Some {| Outbound := Some {| InsecureAllowAll := false;
                                            AllowTransport := ["TCP"];
                                            AllowHost := ["api.example.com"];
                                            AllowPort := [443] |} |} |}.

Definition fetchOptions : DeployWorkloadOptions :=
  {| OptExposedPorts := {["8080/tcp"]};
     OptPortBindings := {["8080/tcp" := [{| HostIP := ""; HostPort := "8080" |}]]};
     AttachStdio := true |}.

(** Deploying a workload under the given name, the proxy configuration
    going to the file [tmp]. *)
Definition deployOn (tmp name : string) (w : World Engine) : result string * World Engine :=
  DeployWorkload api (extWith tmp) "ghcr.io/example/fetch:latest" name ["--serve"]
    (Some {["MCP_TRANSPORT" := "stdio"]})
    (Some {["toolhive" := "true"; "toolhive-name" := name]})
    (Some fetchProfile) "stdio" (Some fetchOptions) w.

(** Deploying a workload under the given name on an empty engine. *)
Definition deploy (name : string) : result string * World Engine :=
  deployOn "/tmp/squid-1.conf" name emptyWorld.

(** The stop, remove and create calls of a log, by container. *)
Definition churn (cs : list Call) : list (string * string) :=
  omap (fun c => match c with
                 | ContainerStop id _ => Some ("stop", id)
                 | ContainerRemove id _ => Some ("remove", id)
                 | ContainerCreate name _ _ _ => Some ("create", name)
                 | _ => None
                 end) cs.

(** The endpoints named in the create calls for the container [name]. *)
Definition createdEndpoints (name : string) (cs : list Call) : list (list string) :=
  omap (fun c => match c with
                 | ContainerCreate n _ _ eps =>
                     if String.eqb n name then Some (elements eps) else None
                 | _ => None
                 end) cs.

Definition fetchConfig : Config :=
  {| Image := "ghcr.io/example/fetch:latest"; Cmd := ["--serve"];
     Env := ["MCP_TRANSPORT=stdio"];
     Labels := {["toolhive" := "true"; "toolhive-name" := "fetch"]};
     AttachStdin := true; AttachStdout := true; AttachStderr := true;
     OpenStdin := true; Tty := false; ExposedPorts := {["8080/tcp"]} |}.

Definition fetchHostConfig : HostConfig :=
  {| Mounts := [{| MountType := "bind"; MountSource := "/home/u/data";
                   MountTarget := "/data"; MountReadOnly := true |}];
     NetworkMode := "none";
     CapAdd := []; CapDrop := ["ALL"]; SecurityOpt := [];
     RestartPolicy := "unless-stopped";
     PortBindings := {["8080/tcp" := [{| HostIP := ""; HostPort := "8080" |}]]};
     DNS := ["172.18.0.2"] |}.

(** The engine holds a stopped container "fetch" with more environment and
    labels than desired. *)
Definition existingFetch : Container :=
  {| cID := "abc123"; cName := "fetch"; cRunning := false;
     cConfig :=
       {| Image := "ghcr.io/example/fetch:latest"; Cmd := ["--serve"];
          Env := ["PATH=/usr/bin"; "MCP_TRANSPORT=stdio"];
          Labels := {["toolhive" := "true"; "toolhive-name" := "fetch";
                      "maintainer" := "example"]};
          AttachStdin := true; AttachStdout := true; AttachStderr := true;
          OpenStdin := true; Tty := false; ExposedPorts := {["8080/tcp"]} |};
     cHostConfig := fetchHostConfig;
     cNetworks := {["toolhive-fetch-internal"]} |}.




End fake.
(** ** What a run of the client adds to the log of calls *)

Module calllog.
Import client.

(** Running [m] only adds calls that satisfy [P] to the log. *)
Definition logs {E A} (P : Call -> Prop) (m : M E A) : Prop :=
  forall w, exists cs, calls (snd (m w)) = calls w ++ cs /\ Forall P cs.

(** Calls that are no container creation, and creations that satisfy [Q]. *)
Definition creations (Q : string -> gset string -> Prop) (c : Call) : Prop :=
  match c with
  | ContainerCreate n _ _ eps => Q n eps
  | _ => True
  end.


End calllog.

(** ** pkg/transport/proxy/httpsse: the HTTP and SSE proxy

    The handlers are modelled as steps on the state of the proxy: the
    mutexes make each access to the client map and to the pending list
    atomic, and the steps below are the handlers run one after the other.
    The critical sections of a forward and of a connection, for runs that
    overlap, are in [httpsseSteps]. *)

Module httpsse.
Import strings.

(** *** Buffered channels with non-blocking sends *)

Record Chan (A : Type) := {
  buffer : list A;      (* sent and not yet received, oldest first *)
  capacity : nat
}.
Arguments buffer {A}. Arguments capacity {A}.

(** [make(chan A, n)] *)
Definition makeChan {A} (n : nat) : Chan A := {| buffer := []; capacity := n |}.

(** [select { case ch <- v: ...; default: ... }]: [Some ch'] when the value
    was sent, [None] when the default branch was taken. Nothing receives
    while the step runs, so the send goes through when the buffer has room. *)
Definition trySend {A} (ch : Chan A) (v : A) : option (Chan A) :=
  if (length (buffer ch) <? capacity ch)%nat
  then Some {| buffer := buffer ch ++ [v]; capacity := capacity ch |}
  else None.

(** *** Package ssecommon *)

(** Modelled from the spec: package ssecommon is not part of the sources at
    hand. An SSE message has an event type and data; the spec gives its
    wire form: [event: <type>\ndata: <data>\n\n]. *)
Record SSEMessage := { EventType : string; Data : string }.

Definition NewSSEMessage (eventType data : string) : SSEMessage :=
  {| EventType := eventType; Data := data |}.

Definition ToSSEString (m : SSEMessage) : string :=
  "event: " +:+ EventType m +:+ nl +:+ "data: " +:+ Data m +:+ nl +:+ nl.

(** Modelled from the spec: a pending message is an SSE-framed payload that
    waits for the first client. *)
Record PendingSSEMessage := { Message : SSEMessage }.

Definition NewPendingSSEMessage (m : SSEMessage) : PendingSSEMessage :=
  {| Message := m |}.

Record SSEClient := { MessageCh : Chan string; CreatedAt : Z }.

Definition HTTPSSEEndpoint : string := "/sse".
Definition HTTPMessagesEndpoint : string := "/messages".

(** *** The proxy *)

Section Proxy.
(** jsonrpc2.Message with its encoder and decoder, from
    golang.org/x/exp/jsonrpc2. *)
Context {Msg : Type}.
Context (EncodeMessage : Msg -> result string).
Context (DecodeMessage : string -> result Msg).

Record HTTPSSEProxy := {
  sseClients : gmap string SSEClient;
  pendingMessages : list PendingSSEMessage;
  messageCh : Chan Msg;
  responseCh : Chan Msg
}.

(** NewHTTPSSEProxy *)
Definition NewHTTPSSEProxy : HTTPSSEProxy :=
  {| sseClients := ∅; pendingMessages := [];
     messageCh := makeChan 100; responseCh := makeChan 100 |}.

Definition withClients (p : HTTPSSEProxy) (cs : gmap string SSEClient) : HTTPSSEProxy :=
  {| sseClients := cs; pendingMessages := pendingMessages p;
     messageCh := messageCh p; responseCh := responseCh p |}.

Definition withPending (p : HTTPSSEProxy) (ms : list PendingSSEMessage) : HTTPSSEProxy :=
  {| sseClients := sseClients p; pendingMessages := ms;
     messageCh := messageCh p; responseCh := responseCh p |}.

(** SendMessageToDestination *)
Definition SendMessageToDestination (p : HTTPSSEProxy) (msg : Msg) : HTTPSSEProxy * result unit :=
  match trySend (messageCh p) msg with
  | Some ch =>
      ({| sseClients := sseClients p; pendingMessages := pendingMessages p;
          messageCh := ch; responseCh := responseCh p |}, Ok ())
  | None => (p, Error (Errorf "failed to send message to destination"))
  end.

(** SendResponseMessage *)
Definition SendResponseMessage (p : HTTPSSEProxy) (msg : Msg) : HTTPSSEProxy * result unit :=
  match trySend (responseCh p) msg with
  | Some ch =>
      ({| sseClients := sseClients p; pendingMessages := pendingMessages p;
          messageCh := messageCh p; responseCh := ch |}, Ok ())
  | None => (p, Error (Errorf "failed to send message to response channel"))
  end.

(** sendSSEEvent: a client whose queue is full is deleted from the map
    and its queue closed; it leaves the state. The clients are
    independent of one another, so the order in which the Go loop visits
    the map does not matter. *)
Definition sendSSEEvent (p : HTTPSSEProxy) (msg : SSEMessage) : HTTPSSEProxy * result unit :=
  let sseString := ToSSEString msg in
  (withClients p
     (omap (fun client =>
              match trySend (MessageCh client) sseString with
              | Some ch => Some {| MessageCh := ch; CreatedAt := CreatedAt client |}
              | None => None
              end) (sseClients p)),
   Ok ()).

(** ForwardResponseToClients *)
Definition ForwardResponseToClients (p : HTTPSSEProxy) (msg : Msg) : HTTPSSEProxy * result unit :=
  match EncodeMessage msg with
  | Ok data =>
      let sseMsg := NewSSEMessage "message" data in
      let hasClients := (0 <? size (sseClients p))%nat in
      if hasClients then sendSSEEvent p sseMsg
      else (withPending p (pendingMessages p ++ [NewPendingSSEMessage sseMsg]), Ok ())
  | Error e => (p, Error (Errorf "failed to encode JSON-RPC message"))
  | Panic m => (p, Panic m)
  end.

(** The loop of processPendingMessages: the queue after the sends, and
    whether every message was sent. *)
Fixpoint sendPending (messageCh : Chan string) (pending : list PendingSSEMessage)
    : Chan string * bool :=
  match pending with
  | [] => (messageCh, true)
  | pendingMsg :: rest =>
      let sseString := ToSSEString (Message pendingMsg) in
      match trySend messageCh sseString with
      | Some ch => sendPending ch rest
      | None => (messageCh, false)   (* channel full, stop sending *)
      end
  end.

(** processPendingMessages: returns the proxy and the client's queue. *)
Definition processPendingMessages (p : HTTPSSEProxy) (clientID : string)
    (messageCh : Chan string) : HTTPSSEProxy * Chan string :=
  if (length (pendingMessages p) =? 0)%nat then (p, messageCh)
  else
    match sendPending messageCh (pendingMessages p) with
    | (ch, true) => (withPending p [], ch)   (* clear the pending messages *)
    | (ch, false) => (p, ch)                 (* early return, nothing cleared *)
    end.

(** The part of an HTTP request that the handlers read. *)
Record Request := {
  Method : string;
  Host : string;
  TLS : bool;                     (* r.TLS != nil *)
  XForwardedProto : string;       (* r.Header.Get("X-Forwarded-Proto") *)
  SessionID : string;             (* r.URL.Query().Get("session_id") *)
  Body : result string            (* io.ReadAll(r.Body) *)
}.

(** The status code and the text written, as given to [http.Error] or
    to [w.Write]. *)
Record Response := { Status : Z; Text : string }.

(** handleSSEConnection, up to the start of its message loop: the client
    is registered under the fresh [clientID] (drawn by uuid.New) with a
    queue of 100, the pending messages are processed, and the endpoint
    event is written. The queue handed to processPendingMessages is the
    one held by the registered client, so what is sent to it shows in
    the client map. [flusher] tells whether the writer can stream. The
    text of the endpoint event is returned with the new state. *)
Definition handleSSEConnection (p : HTTPSSEProxy) (r : Request) (clientID : string)
    (now : Z) (flusher : bool) : HTTPSSEProxy * result string :=
  let messageCh : Chan string := makeChan 100 in
  let p := withClients p (<[clientID := {| MessageCh := messageCh; CreatedAt := now |}]>
                            (sseClients p)) in
  let '(p, messageCh) := processPendingMessages p clientID messageCh in
  let p := withClients p (<[clientID := {| MessageCh := messageCh; CreatedAt := now |}]>
                            (sseClients p)) in
  if negb flusher then (p, Error (Errorf "Streaming not supported"))
  else
    let scheme := if TLS r then "https" else "http" in
    let scheme := if negb (String.eqb (XForwardedProto r) "") then XForwardedProto r
                  else scheme in
    let baseURL := scheme +:+ "://" +:+ Host r in
    let endpointURL := baseURL +:+ HTTPMessagesEndpoint +:+ "?session_id=" +:+ clientID in
    let endpointMsg := NewSSEMessage "endpoint" endpointURL in
    (p, Ok (ToSSEString endpointMsg)).

(** One round of the message loop of handleSSEConnection: the oldest
    queued message is written to the client. *)
Definition receive (p : HTTPSSEProxy) (clientID : string) : HTTPSSEProxy * option string :=
  match sseClients p !! clientID with
  | Some client =>
      match buffer (MessageCh client) with
      | msg :: rest =>
          (withClients p
             (<[clientID := {| MessageCh := {| buffer := rest;
                                               capacity := capacity (MessageCh client) |};
                               CreatedAt := CreatedAt client |}]> (sseClients p)),
           Some msg)
      | [] => (p, None)
      end
  | None => (p, None)
  end.

(** handlePostRequest *)
Definition handlePostRequest (p : HTTPSSEProxy) (r : Request) : HTTPSSEProxy * Response :=
  if negb (String.eqb (Method r) "POST")
  then (p, {| Status := 405; Text := "Method not allowed" |})
  else
    let sessionID := SessionID r in
    if String.eqb sessionID ""
    then (p, {| Status := 400; Text := "session_id is required" |})
    else
      match sseClients p !! sessionID with
      | None => (p, {| Status := 404; Text := "Could not find session" |})
      | Some _ =>
          match Body r with
          | Ok body =>
              match DecodeMessage body with
              | Ok msg =>
                  match SendMessageToDestination p msg with
                  | (p, Ok _) => (p, {| Status := 202; Text := "Accepted" |})
                  | (p, _) =>
                      (p, {| Status := 500; Text := "Failed to send message to destination" |})
                  end
              | _ => (p, {| Status := 400; Text := "Error parsing JSON-RPC message" |})
              end
          | _ => (p, {| Status := 500; Text := "Error reading request body" |})
          end
      end.

(** The messages queued for a client, oldest first. *)
Definition queueOf (p : HTTPSSEProxy) (clientID : string) : option (list string) :=
  (fun client => buffer (MessageCh client)) <$> sseClients p !! clientID.

(** The container emits the messages one after the other. *)
Definition forwardAll (p : HTTPSSEProxy) (msgs : list Msg) : HTTPSSEProxy :=
  fold_left (fun p msg => fst (ForwardResponseToClients p msg)) msgs p.

(** The wire form of a message event. *)
Definition messageEvent (data : string) : string :=
  ToSSEString (NewSSEMessage "message" data).

End Proxy.

End httpsse.

(** ** pkg/transport: the stdio transport

    A line of container output is modelled by its sequence of runes, as the
    [range] loops of the Go code see it (the output is taken to be valid
    UTF-8, so that runes and bytes determine each other, and the braces that
    [strings.Index] looks for are runes of their own). *)

Module transport.
Import strings httpsse.

Definition rune := Z.

(** The runes of an ASCII text. *)
Definition runes (s : string) : list rune :=
  (fun c => Z.of_N (N_of_ascii c)) <$> String.list_ascii_of_string s.

Definition openBrace : rune := 123.   (* '{' *)
Definition closeBrace : rune := 125.  (* '}' *)

(** isSpace: the space and the line feed. *)
Definition isSpace (r : rune) : bool := (r =? 32) || (r =? 10).

(** [strings.Index(input, c)] for a one-rune [c]: the first position, or -1. *)
Fixpoint Index (input : list rune) (c : rune) : Z :=
  match input with
  | [] => -1
  | r :: rest =>
      if r =? c then 0
      else let i := Index rest c in if i =? -1 then -1 else i + 1
  end.

(** [strings.LastIndex(input, c)]: the last position, or -1. *)
Fixpoint LastIndex (input : list rune) (c : rune) : Z :=
  match input with
  | [] => -1
  | r :: rest =>
      let i := LastIndex rest c in
      if i =? -1 then (if r =? c then 0 else -1) else i + 1
  end.

(** [input[lo:hi]] for [0 <= lo <= hi <= len(input)]. *)
Definition slice (input : list rune) (lo hi : Z) : list rune :=
  take (Z.to_nat (hi - lo)) (drop (Z.to_nat lo) input).

(** What happens when the transport is stopped. *)
Inductive Effect : Type :=
  | CloseShutdownCh
  | StopMonitoring
  | ProxyStop
  | StdinClose
  | IsContainerRunning (containerID : string)
  | StopContainer (containerID : string)
  | RemoveContainer (containerID : string).

(** What the monitor, the proxy, the stream and the runtime answer. *)
Record Answers := {
  proxyStop : result unit;
  stdinClose : result unit;
  isContainerRunning : result bool;
  stopContainer : result unit;
  removeContainer : result unit
}.

(** StdioTransport: [shutdownCh] tells whether the channel is closed, the
    pointer fields whether they are set. *)
Record StdioTransport := {
  containerID : string;
  containerName : string;
  runtime : bool;
  debug : bool;
  shutdownCh : bool;
  httpProxy : bool;
  stdin : bool;
  monitor : bool
}.

(** StdioTransport.Stop. The two looks at [shutdownCh], before and after
    the mutex is taken, see the same thing when the calls do not overlap. *)
Definition Stop (a : Answers) (t : StdioTransport)
    : StdioTransport * list Effect * result unit :=
  if shutdownCh t then (t, [], Ok ())
  else if shutdownCh t then (t, [], Ok ())
  else
    let effects := [CloseShutdownCh] in
    let effects := if monitor t then effects ++ [StopMonitoring] else effects in
    let effects := if httpProxy t then effects ++ [ProxyStop] else effects in
    let effects := if stdin t then effects ++ [StdinClose] else effects in
    let effects :=
      if runtime t && negb (String.eqb (containerID t) "") then
        let effects := effects ++ [IsContainerRunning (containerID t)] in
        match isContainerRunning a with
        | Ok true => effects ++ [StopContainer (containerID t)]
        | _ => effects
        end
      else effects in
    ({| containerID := containerID t; containerName := containerName t;
        runtime := runtime t; debug := debug t;
        shutdownCh := true; httpProxy := httpProxy t; stdin := false; monitor := false |},
     effects, Ok ()).

(** *** Calls to [Stop] that overlap

    Each call goes through the steps of [Stop] one at a time: the look at
    [shutdownCh] without the mutex, the wait for the mutex, the second look,
    the close, the teardown (which ends with the release of the mutex). A
    schedule says which call takes the next step. *)

Inductive pc : Type :=
  | AtStart     (* before the first look at shutdownCh *)
  | AtLock      (* waiting for the mutex *)
  | Locked      (* holding the mutex, before the second look *)
  | Closing     (* about to close shutdownCh *)
  | TearDown    (* shutdownCh closed, teardown under way *)
  | Returned    (* returned nil *)
  | Panicked.   (* close of a closed channel *)

Definition holdsMutex (p : pc) : bool :=
  match p with
  | Locked | Closing | TearDown => true
  | _ => false
  end.

(** What the calls share: the transport, its mutex, and the effects so far. *)
Record Shared := {
  transportOf : StdioTransport;
  mutex : bool;
  effectsOf : list Effect
}.

Definition closeShutdown (t : StdioTransport) : StdioTransport :=
  {| containerID := containerID t; containerName := containerName t;
     runtime := runtime t; debug := debug t;
     shutdownCh := true; httpProxy := httpProxy t; stdin := stdin t; monitor := monitor t |}.

(** The part of [Stop] that follows the close of [shutdownCh]. *)
Definition teardown (a : Answers) (t : StdioTransport) : StdioTransport * list Effect :=
  let effects := [] in
  let effects := if monitor t then effects ++ [StopMonitoring] else effects in
  let effects := if httpProxy t then effects ++ [ProxyStop] else effects in
  let effects := if stdin t then effects ++ [StdinClose] else effects in
  let effects :=
    if runtime t && negb (String.eqb (containerID t) "") then
      let effects := effects ++ [IsContainerRunning (containerID t)] in
      match isContainerRunning a with
      | Ok true => effects ++ [StopContainer (containerID t)]
      | _ => effects
      end
    else effects in
  ({| containerID := containerID t; containerName := containerName t;
      runtime := runtime t; debug := debug t;
      shutdownCh := shutdownCh t; httpProxy := httpProxy t; stdin := false;
      monitor := false |},
   effects).

(** One step of a call that is at [p]. A call that waits for a held mutex
    stays where it is. *)
Definition stepCall (a : Answers) (p : pc) (s : Shared) : pc * Shared :=
  match p with
  | AtStart =>
      if shutdownCh (transportOf s) then (Returned, s) else (AtLock, s)
  | AtLock =>
      if mutex s then (AtLock, s)
      else (Locked, {| transportOf := transportOf s; mutex := true;
                       effectsOf := effectsOf s |})
  | Locked =>
      if shutdownCh (transportOf s)
      then (Returned, {| transportOf := transportOf s; mutex := false;
                         effectsOf := effectsOf s |})
      else (Closing, s)
  | Closing =>
      if shutdownCh (transportOf s) then (Panicked, s)
      else (TearDown, {| transportOf := closeShutdown (transportOf s); mutex := mutex s;
                         effectsOf := effectsOf s ++ [CloseShutdownCh] |})
  | TearDown =>
      let (t, effects) := teardown a (transportOf s) in
      (Returned, {| transportOf := t; mutex := false;
                    effectsOf := effectsOf s ++ effects |})
  | Returned => (Returned, s)
  | Panicked => (Panicked, s)
  end.

(** The call number [i] takes a step. *)
Definition step (a : Answers) (st : list pc * Shared) (i : nat) : list pc * Shared :=
  match fst st !! i with
  | Some p => let (p', s') := stepCall a p (snd st) in (<[i := p']> (fst st), s')
  | None => st
  end.

Definition run (a : Answers) (schedule : list nat) (st : list pc * Shared)
    : list pc * Shared :=
  fold_left (step a) schedule st.

(** [n] calls to [Stop] on the transport [t], none of which has started. *)
Definition calling (n : nat) (t : StdioTransport) : list pc * Shared :=
  (replicate n AtStart, {| transportOf := t; mutex := false; effectsOf := [] |}).

(** At most one of the calls holds the mutex. *)
Definition exclusive (pcs : list pc) : Prop :=
  forall i j p q, pcs !! i = Some p -> pcs !! j = Some q ->
                  holdsMutex p = true -> holdsMutex q = true -> i = j.

(** The three phases of a transport that starts open: still open; closed
    by the one call that is tearing down; torn down. *)
Definition phase (a : Answers) (t0 : StdioTransport) (st : list pc * Shared) : Prop :=
  let '(pcs, s) := st in
  (transportOf s = t0 /\ effectsOf s = []
   /\ Forall (fun p => p = AtStart \/ p = AtLock \/ p = Locked \/ p = Closing) pcs)
  \/ (transportOf s = closeShutdown t0 /\ effectsOf s = [CloseShutdownCh]
      /\ mutex s = true
      /\ Forall (fun p => p = AtStart \/ p = AtLock \/ p = TearDown \/ p = Returned) pcs
      /\ Exists (fun p => p = TearDown) pcs)
  \/ (transportOf s = fst (teardown a (closeShutdown t0))
      /\ effectsOf s = CloseShutdownCh :: snd (teardown a (closeShutdown t0))
      /\ Forall (fun p => p = AtStart \/ p = AtLock \/ p = Locked \/ p = Returned) pcs).

(** At most one call holds the mutex, and none when it is free. *)
Definition exclusion (st : list pc * Shared) : Prop :=
  let '(pcs, s) := st in
  exclusive pcs
  /\ (mutex s = false -> Forall (fun p => holdsMutex p = false) pcs).

Section Stdout.
(** unicode.IsPrint, and jsonrpc2.Message with its decoder and encoder. *)
Context (IsPrint : rune -> bool).
Context {Msg : Type}.
Context (DecodeMessage : list rune -> result Msg).
Context (EncodeMessage : Msg -> result string).

(** The loop of parseAndForwardJSONRPC that looks for binary data. *)
Definition hasBinaryData (line : list rune) : bool :=
  fold_left (fun hasBinaryData c =>
               if negb (IsPrint c) && negb (isSpace c) then true else hasBinaryData)
            line false.

(** sanitizeBinaryString *)
Definition sanitizeBinaryString (input : list rune) : list rune :=
  let startIdx := Index input openBrace in
  if startIdx =? -1 then []
  else
    let endIdx := LastIndex input closeBrace in
    if (endIdx =? -1) || (endIdx <? startIdx) then []
    else
      let jsonObj := slice input startIdx (endIdx + 1) in
      fold_left (fun buffer r => if IsPrint r || isSpace r then buffer ++ [r] else buffer)
                jsonObj [].

(** sanitizeJSONString *)
Definition sanitizeJSONString (input : list rune) : list rune :=
  sanitizeBinaryString input.

(** The text that parseAndForwardJSONRPC hands to the decoder. *)
Definition jsonData (line : list rune) : list rune :=
  if hasBinaryData line then sanitizeJSONString line else line.

(** parseAndForwardJSONRPC: a line that does not decode is dropped;
    failures to forward are only logged. *)
Definition parseAndForwardJSONRPC (p : HTTPSSEProxy (Msg:=Msg)) (line : list rune)
    : HTTPSSEProxy (Msg:=Msg) :=
  match DecodeMessage (jsonData line) with
  | Ok msg =>
      let (p, _) := ForwardResponseToClients EncodeMessage p msg in
      let (p, _) := SendResponseMessage p msg in
      p
  | _ => p
  end.

(** processBuffer: every complete, non-empty line of the buffer is
    parsed; [line] is the line read so far. The text after the last line
    feed stays in the buffer, and is returned. *)
Fixpoint processBuffer (p : HTTPSSEProxy (Msg:=Msg)) (line buffer : list rune)
    : HTTPSSEProxy (Msg:=Msg) * list rune :=
  match buffer with
  | [] => (p, line)
  | c :: rest =>
      if c =? 10
      then processBuffer (match line with
                          | [] => p
                          | _ => parseAndForwardJSONRPC p line
                          end) [] rest
      else processBuffer p (line ++ [c]) rest
  end.

End Stdout.

(** unicode.IsPrint on ASCII: the graphic characters and the space. *)
Definition asciiIsPrint (r : rune) : bool := (32 <=? r) && (r <=? 126).

End transport.

(** ** pkg/transport, the earlier revision of the stdio transport *)

Module legacy.
Import strings transport.

(** StdioTransport.Stop without the look at [shutdownCh]: closing a closed
    channel panics. *)
Definition Stop (a : Answers) (t : StdioTransport)
    : StdioTransport * list Effect * result unit :=
  if shutdownCh t then (t, [], Panic "close of closed channel")
  else
    let effects := [CloseShutdownCh] in
    let effects := if monitor t then effects ++ [StopMonitoring] else effects in
    let effects := if httpProxy t then effects ++ [ProxyStop] else effects in
    let effects := if stdin t then effects ++ [StdinClose] else effects in
    let t' := {| containerID := containerID t; containerName := containerName t;
                 runtime := runtime t; debug := debug t;
                 shutdownCh := true; httpProxy := httpProxy t; stdin := false;
                 monitor := false |} in
    if runtime t && negb (String.eqb (containerID t) "") then
      let effects := effects ++ [StopContainer (containerID t)] in
      match stopContainer a with
      | Ok _ =>
          if negb (debug t)
          then (t', effects ++ [RemoveContainer (containerID t)], Ok ())
          else (t', effects, Ok ())
      | _ => (t', effects, Error (Errorf "failed to stop container"))
      end
    else (t', effects, Ok ()).

Section Stdout.
(** unicode.IsPrint and unicode.IsSpace. *)
Context (IsPrint IsSpace : rune -> bool).

Definition doubleQuote : rune := 34.

(** The loop of parseAndForwardJSONRPC that looks for binary data:
    control characters other than tab, carriage return and line feed. *)
Definition hasBinaryData (line : list rune) : bool :=
  fold_left (fun hasBinaryData c =>
               if (c <? 32) && negb (c =? 9) && negb (c =? 13) && negb (c =? 10)
               then true else hasBinaryData)
            line false.

(** sanitizeBinaryString: white space is removed everywhere, and inside
    string literals only printable runes are kept. *)
Definition sanitizeBinaryString (input : list rune) : list rune :=
  let startIdx := Index input openBrace in
  if startIdx =? -1 then []
  else
    let endIdx := LastIndex input closeBrace in
    if (endIdx =? -1) || (endIdx <? startIdx) then []
    else
      let jsonObj := slice input startIdx (endIdx + 1) in
      fst (fold_left (fun '(buffer, inString) r =>
             if r =? doubleQuote then (buffer ++ [r], negb inString)
             else if inString : bool then
               (if IsPrint r && negb (IsSpace r) then buffer ++ [r] else buffer, inString)
             else
               (if negb (IsSpace r) then buffer ++ [r] else buffer, inString))
           jsonObj ([], false)).

(** The text that parseAndForwardJSONRPC hands to json.Unmarshal. *)
Definition jsonData (line : list rune) : list rune :=
  if hasBinaryData line then sanitizeBinaryString line else line.

End Stdout.

(** unicode.IsSpace on ASCII. *)
Definition asciiIsSpace (r : rune) : bool :=
  (r =? 32) || ((9 <=? r) && (r <=? 13)).

End legacy.

(** ** What a run of the client creates, and what its methods return *)

Module trace.
Import strings docker reconcile client.

(** Calls that create nothing, creations of containers that satisfy [R] and
    creations of networks that satisfy [N]. *)
Definition creating (R : string -> Config -> HostConfig -> gset string -> Prop)
    (N : string -> NetworkCreateOptions -> Prop) (c : Call) : Prop :=
  match c with
  | ContainerCreate n config hostConfig eps => R n config hostConfig eps
  | NetworkCreate n options => N n options
  | _ => True
  end.

(** When [m] returns without error, what it returns satisfies [R]. *)
Definition returns {E A} (R : A -> Prop) (m : M E A) : Prop :=
  forall w a w', m w = (Ok a, w') -> R a.

(** [m] may panic, but it never returns an error. *)
Definition neverFails {E A} (m : M E A) : Prop :=
  forall w e, fst (m w) <> Error e.

(** The names of the variables that point a workload to its egress proxy. *)
Definition proxyVariables : list string :=
  ["HTTP_PROXY"; "HTTPS_PROXY"; "http_proxy"; "https_proxy"; "NO_PROXY"; "no_proxy"].

Section Deployed.
Context {U : UnicodeTables} (ext : Externals).
Context (image name : string) (command : list string).
Context (envVars labels : option (gmap string string)).
Context (permissionProfile : option Profile) (options : option DeployWorkloadOptions).

(** The create request for the main container of a deployment. *)
Definition mainCreate (n : string) (config : Config) (hostConfig : HostConfig)
    (eps : gset string) : Prop :=
  n = name
  /\ Image config = image /\ Cmd config = command /\ Tty config = false
  /\ (exists l, labels = Some l
                /\ Labels config = <["toolhive-main-workload" := "true"]> l)
  /\ (exists m, Env config = convertEnvVars m
        /\ if String.eqb name "inspector" then m = default ∅ envVars
           else m !! "HTTP_PROXY" = Some ("http://" +:+ name +:+ "-egress:3128")
                /\ m !! "HTTPS_PROXY" = Some ("http://" +:+ name +:+ "-egress:3128")
                /\ m !! "http_proxy" = Some ("http://" +:+ name +:+ "-egress:3128")
                /\ m !! "https_proxy" = Some ("http://" +:+ name +:+ "-egress:3128")
                /\ m !! "NO_PROXY" = Some "localhost,127.0.0.1,::1"
                /\ m !! "no_proxy" = Some "localhost,127.0.0.1,::1"
                /\ forall k, k ∉ proxyVariables -> m !! k = default ∅ envVars !! k)
  /\ NetworkMode hostConfig = "none" /\ CapDrop hostConfig = ["ALL"]
  /\ CapAdd hostConfig = [] /\ SecurityOpt hostConfig = []
  /\ RestartPolicy hostConfig = "unless-stopped".

(** The create request for the dns or the egress container. *)
Definition companionCreate (suffix companionImage : string) (capAdd : list string)
    (n : string) (config : Config) (hostConfig : HostConfig) (eps : gset string) : Prop :=
  n = name +:+ suffix /\ name <> "inspector"
  /\ Image config = companionImage /\ Cmd config = [] /\ Env config = []
  /\ Tty config = false
  /\ (exists profile opts path text,
        permissionProfile = Some profile /\ options = Some opts
        /\ createTempSquidConf (fs ext) (Network profile) name
             (elements (OptExposedPorts opts)) = Ok (path, text)
        /\ Mounts hostConfig
           = [{| MountType := "bind"; MountSource := path;
                 MountTarget := "/etc/squid/squid.conf"; MountReadOnly := true |}])
  /\ NetworkMode hostConfig = "bridge" /\ CapAdd hostConfig = capAdd
  /\ CapDrop hostConfig = [] /\ SecurityOpt hostConfig = []
  /\ RestartPolicy hostConfig = "unless-stopped"
  /\ eps = {["toolhive-" +:+ name +:+ "-internal"; "toolhive-external"]}.

(** The three kinds of create request of a deployment. *)
Definition deploymentCreate (n : string) (config : Config) (hostConfig : HostConfig)
    (eps : gset string) : Prop :=
  mainCreate n config hostConfig eps
  \/ companionCreate "-dns" DnsImage [] n config hostConfig eps
  \/ companionCreate "-egress" EgressImage ["CAP_SETUID"; "CAP_SETGID"]
       n config hostConfig eps.

(** The create request for one of the two networks of a deployment. *)
Definition networkCreate (n : string) (networkOptions : NetworkCreateOptions) : Prop :=
  Driver networkOptions = "bridge"
  /\ NetworkLabels networkOptions = AddNetworkLabels ext ∅ n
  /\ ((n = "toolhive-" +:+ name +:+ "-internal" /\ Internal networkOptions = true)
      \/ (n = "toolhive-external" /\ Internal networkOptions = false)).

End Deployed.

End trace.
(** ** pkg/transport: more of the stdio transport *)

Module stdio.
Import strings httpsse transport.

(** StdioTransport.IsRunning: the transport runs until the shutdown channel
    is closed. *)
Definition IsRunning (t : StdioTransport) : result bool :=
  if shutdownCh t then Ok false else Ok true.

(** handleContainerExit, once the monitor has reported that the container
    exited: the transport is stopped, unless it is stopping or stopped
    already; an error of [Stop] is only logged. *)
Definition handleContainerExit (a : Answers) (t : StdioTransport)
    : StdioTransport * list Effect :=
  if shutdownCh t then (t, [])
  else let '(t', effects, _) := Stop a t in (t', effects).

End stdio.

(** ** pkg/transport/proxy/httpsse: the middleware chain *)

Module middlewares.

Section Handlers.
(** http.Handler; a types.Middleware maps handlers to handlers. *)
Context {Handler : Type}.

(** applyMiddlewares: the loop runs from the last middleware down to the
    first. *)
Definition applyMiddlewares (handler : Handler) (middlewares : list (Handler -> Handler))
    : Handler :=
  fold_left (fun handler middleware => middleware handler) (rev middlewares) handler.

End Handlers.

End middlewares.

(** ** pkg/transport/types: the transport types *)

Module types.

Definition TransportType := string.

Definition TransportTypeStdio : TransportType := "stdio".
Definition TransportTypeSSE : TransportType := "sse".

(** TransportType.String *)
Definition TypeString (t : TransportType) : string := t.

(** ParseTransportType; [None] stands for errors.ErrUnsupportedTransport. *)
Definition ParseTransportType (s : string) : option TransportType :=
  if String.eqb s "stdio" || String.eqb s "STDIO" then Some TransportTypeStdio
  else if String.eqb s "sse" || String.eqb s "SSE" then Some TransportTypeSSE
  else None.

End types.

(** ** pkg/container: the monitor of a container *)

Module monitor.

(** The sentinel error of the package that StartMonitoring uses. *)
Definition ErrContainerNotRunning : error := Errorf "container not running".

(** Monitor, as far as StartMonitoring and StopMonitoring go: [stopCh]
    tells whether the channel is closed, [running] is the flag of that
    name. The channel is made by NewMonitor and by nothing else. *)
Record Monitor := {
  containerID : string;
  containerName : string;
  stopCh : bool;
  running : bool
}.

(** NewMonitor *)
Definition NewMonitor (containerID containerName : string) : Monitor :=
  {| containerID := containerID; containerName := containerName;
     stopCh := false; running := false |}.

(** StartMonitoring; [isRunning] and [err] are the two values that
    runtime.IsContainerRunning returns. The answer [Ok ()] stands for the
    return of the error channel; the goroutine that watches the container
    is started then, unless the monitor is running already. *)
Definition StartMonitoring (isRunning : bool) (err : option error) (m : Monitor)
    : Monitor * result unit :=
  if running m then (m, Ok ())   (* already monitoring *)
  else
    match err with
    | Some err => (m, Error err)
    | None =>
        if negb isRunning
        then (m, Error (ContainerError ErrContainerNotRunning (containerID m)
                          "container is not running"))
        else ({| containerID := containerID m; containerName := containerName m;
                 stopCh := stopCh m; running := true |}, Ok ())
    end.

(** StopMonitoring: closing a closed channel panics; the wait for the
    wait group ends when the goroutine has seen the closed channel and
    left its loop. *)
Definition StopMonitoring (m : Monitor) : Monitor * result unit :=
  if negb (running m) then (m, Ok ())   (* not monitoring *)
  else if stopCh m then (m, Panic "close of closed channel")
  else
    ({| containerID := containerID m; containerName := containerName m;
        stopCh := true; running := false |}, Ok ()).

End monitor.

(** ** pkg/container/docker: how a mount declaration is resolved *)
Module mounts.
Import strings docker reconcile client.

(** strings.Contains *)
Fixpoint Contains (s substr : string) : bool :=
  String.prefix substr s
  || match s with
     | EmptyString => false
     | String _ rest => Contains rest substr
     end.

Section Resolve.
(** MountDeclaration.Parse of package permissions, filepath.IsAbs,
    os.Getwd and filepath.Join. *)
Context (Parse : string -> result (string * string)).
Context (IsAbs : string -> bool) (Getwd : result string).
Context (Join : string -> string -> string).

(** convertRelativePathToAbsolute *)
Definition convertRelativePathToAbsolute (source : string) : string * bool :=
  if IsAbs source then (source, true)
  else match Getwd with
       | Ok cwd => (Join cwd source, true)
       | _ => ("", false)
       end.

(** The head of the loops of addReadOnlyMounts and addReadWriteMounts: the
    declaration is skipped ([None]) when it does not parse, when its source
    is a resource URI, and when its source cannot be made absolute. *)
Definition resolveMountDeclaration (mountDecl : string) : option (string * string) :=
  match Parse mountDecl with
  | Ok (source, target) =>
      if Contains source "://" then None
      else
        let '(absPath, ok) := convertRelativePathToAbsolute source in
        if negb ok then None else Some (absPath, target)
  | _ => None
  end.

(** The externals of the client, with the declarations resolved this way. *)
Definition withMounts (ext : Externals) : Externals :=
  {| fs := fs ext; NewPort := NewPort ext;
     AddStandardLabels := AddStandardLabels ext;
     AddNetworkLabels := AddNetworkLabels ext;
     resolveMount := resolveMountDeclaration |}.

End Resolve.
End mounts.

(** ** pkg/container/docker: matching, in the words of the specification *)
Module reuse.
Import strings docker reconcile.


End reuse.

(** ** pkg/transport/proxy/httpsse: the critical sections of a forward, and
    the message loop of a connection

    ForwardResponseToClients looks at the client map under
    sseClientsMutex, releases the mutex, and only then sends the event or
    appends it to the pending messages under pendingMutex: another handler
    may run between the two. *)
Module httpsseSteps.
Import strings httpsse.

Section Steps.
Context {Msg : Type}.

(** The first critical section of ForwardResponseToClients:
    [hasClients := len(p.sseClients) > 0]. *)
Definition lookForClients (p : HTTPSSEProxy (Msg:=Msg)) : bool :=
  (0 <? size (sseClients p))%nat.

(** What follows the look, on the state that the proxy has by then: the
    event is sent to the clients, or appended to the pending messages,
    by what the look saw. *)
Definition forwardLooked (hasClients : bool) (p : HTTPSSEProxy (Msg:=Msg))
    (sseMsg : SSEMessage) : HTTPSSEProxy (Msg:=Msg) * result unit :=
  if hasClients then sendSSEEvent p sseMsg
  else (withPending p (pendingMessages p ++ [NewPendingSSEMessage sseMsg]), Ok ()).

(** The first critical section of handleSSEConnection: the client is
    registered with a fresh queue of 100. *)
Definition registerClient (p : HTTPSSEProxy (Msg:=Msg)) (clientID : string) (now : Z)
    : HTTPSSEProxy (Msg:=Msg) :=
  withClients p (<[clientID := {| MessageCh := makeChan 100; CreatedAt := now |}]>
                   (sseClients p)).

(** The second one: processPendingMessages on the queue of the client,
    as the proxy is by then. The queue is the one that the client map
    holds; when sendSSEEvent has meanwhile removed the client, it has
    closed the queue, and a send on it panics. *)
Definition drainPending (p : HTTPSSEProxy (Msg:=Msg)) (clientID : string)
    : HTTPSSEProxy (Msg:=Msg) * result unit :=
  match sseClients p !! clientID with
  | Some client =>
      let '(p, messageCh) := processPendingMessages p clientID (MessageCh client) in
      (withClients p (<[clientID := {| MessageCh := messageCh;
                                       CreatedAt := CreatedAt client |}]> (sseClients p)),
       Ok ())
  | None =>
      if (length (pendingMessages p) =? 0)%nat then (p, Ok ())
      else (p, Panic "send on closed channel")
  end.

(** [n] rounds of the message loop of handleSSEConnection: the texts
    written to the client, oldest first. The loop stops at an empty
    queue. *)
Fixpoint receiveN (p : HTTPSSEProxy (Msg:=Msg)) (clientID : string) (n : nat)
    : HTTPSSEProxy (Msg:=Msg) * list string :=
  match n with
  | O => (p, [])
  | S n =>
      match receive p clientID with
      | (p, Some msg) =>
          let '(p, written) := receiveN p clientID n in (p, msg :: written)
      | (p, None) => (p, [])
      end
  end.

End Steps.
End httpsseSteps.

(** * Properties *)

(** ** Strings and lines *)

Section StringFacts.
Import strings.

Lemma string_app_cons (c : ascii) (s t : string) : String c s +:+ t = String c (s +:+ t).
Proof. reflexivity. Qed.

Lemma string_app_nil_r (s : string) : s +:+ "" = s.
Proof.
  induction s as [|c s IH]; [reflexivity|].
  rewrite string_app_cons. by rewrite IH.
Qed.

Lemma string_app_assoc (a b c : string) : (a +:+ b) +:+ c = a +:+ b +:+ c.
Proof.
  induction a as [|x a IH]; [reflexivity|].
  rewrite !string_app_cons. by rewrite IH.
Qed.

Lemma singleLine_app (a b : string) :
  singleLine (a +:+ b) = singleLine a && singleLine b.
Proof.
  induction a as [|x a IH]; [reflexivity|].
  rewrite string_app_cons. cbn [singleLine]. rewrite IH. by rewrite andb_assoc.
Qed.

Lemma lines_nonempty (s : string) : lines s <> [].
Proof.
  destruct s as [|c s]; cbn [lines]; [discriminate|].
  destruct (Ascii.eqb c LF); [discriminate|].
  destruct (lines s); discriminate.
Qed.

(** Splitting distributes over a line feed. *)
Lemma lines_app_nl (a b : string) : lines (a +:+ nl +:+ b) = lines a ++ lines b.
Proof.
  induction a as [|x a IH].
  - reflexivity.
  - rewrite string_app_cons. cbn [lines]. rewrite IH.
    destruct (Ascii.eqb x LF); [reflexivity|].
    pose proof (lines_nonempty a) as Hne.
    destruct (lines a) as [|h t]; [done|reflexivity].
Qed.

Lemma lines_singleLine (a : string) : singleLine a = true -> lines a = [a].
Proof.
  induction a as [|x a IH]; [reflexivity|].
  cbn [singleLine lines]. intros [Hx Ha]%andb_true_iff.
  apply negb_true_iff in Hx. rewrite Hx, (IH Ha). reflexivity.
Qed.

Lemma unlines_app (l1 l2 : list string) : unlines (l1 ++ l2) = unlines l1 +:+ unlines l2.
Proof.
  induction l1 as [|l l1 IH]; [reflexivity|].
  cbn [unlines app]. rewrite IH. by rewrite !string_app_assoc.
Qed.

Lemma lines_unlines_app (ls : list string) (rest : string) :
  Forall (fun l => singleLine l = true) ls ->
  lines (unlines ls +:+ rest) = ls ++ lines rest.
Proof.
  induction 1 as [|l ls Hl _ IH]; [reflexivity|].
  cbn [unlines]. rewrite !string_app_assoc, lines_app_nl, IH.
  by rewrite (lines_singleLine _ Hl).
Qed.

Lemma lines_unlines (ls : list string) :
  Forall (fun l => singleLine l = true) ls -> lines (unlines ls) = ls ++ [""].
Proof.
  intros H. rewrite <- (string_app_nil_r (unlines ls)). by rewrite lines_unlines_app.
Qed.

Lemma lines_unlines_flat (ls : list string) :
  lines (unlines ls) = flat_map lines ls ++ [""].
Proof.
  induction ls as [|l ls IH]; [reflexivity|].
  cbn [unlines flat_map]. by rewrite lines_app_nl, IH, app_assoc.
Qed.

Lemma flat_map_lines_singleLine (ls : list string) :
  Forall (fun l => singleLine l = true) ls -> flat_map lines ls = ls.
Proof.
  induction 1 as [|l ls Hl _ IH]; [reflexivity|].
  cbn [flat_map]. by rewrite (lines_singleLine _ Hl), IH.
Qed.

(** A text without line feed in front of a text joins its first line. *)
Lemma lines_app_singleLine (a b : string) :
  singleLine a = true ->
  lines (a +:+ b) = match lines b with
                    | [] => [a]
                    | h :: t => (a +:+ h) :: t
                    end.
Proof.
  induction a as [|x a IH]; intros Ha.
  - change ("" +:+ b) with b. pose proof (lines_nonempty b).
    by destruct (lines b).
  - rewrite string_app_cons. cbn [singleLine] in Ha.
    apply andb_true_iff in Ha as [Hx Ha]. apply negb_true_iff in Hx.
    cbn [lines]. rewrite Hx, (IH Ha). by destruct (lines b).
Qed.

Lemma catMap_app {A} (f : A -> string) (l1 l2 : list A) :
  catMap f (l1 ++ l2) = catMap f l1 +:+ catMap f l2.
Proof.
  induction l1 as [|x l1 IH]; [reflexivity|].
  cbn [catMap app]. by rewrite IH, string_app_assoc.
Qed.

Lemma upperByte_noLower (c : ascii) :
  ((97 <=? N_of_ascii (upperByte c)) && (N_of_ascii (upperByte c) <=? 122))%N = false.
Proof. destruct c as [[] [] [] [] [] [] [] []]; reflexivity. Qed.

Lemma noLowerASCII_upperASCII (s : string) : noLowerASCII (upperASCII s) = true.
Proof.
  induction s as [|c s IH]; [reflexivity|].
  cbn [upperASCII noLowerASCII]. by rewrite upperByte_noLower, IH.
Qed.

Lemma noLowerASCII_app (a b : string) :
  noLowerASCII (a +:+ b) = noLowerASCII a && noLowerASCII b.
Proof.
  induction a as [|x a IH]; [reflexivity|].
  rewrite string_app_cons. cbn [noLowerASCII]. rewrite IH. by rewrite andb_assoc.
Qed.

Lemma noLowerASCII_catMap {A} (f : A -> string) (l : list A) :
  (forall x, noLowerASCII (f x) = true) -> noLowerASCII (catMap f l) = true.
Proof.
  intros Hf. induction l as [|x l IH]; [reflexivity|].
  cbn [catMap]. by rewrite noLowerASCII_app, Hf, IH.
Qed.

(** The lines of a text without lower case letters have none either. *)
Lemma noLowerASCII_lines (s : string) :
  noLowerASCII s = true -> Forall (fun l => noLowerASCII l = true) (lines s).
Proof.
  induction s as [|c s IH]; [by repeat constructor|].
  cbn [noLowerASCII lines]. intros [Hc Hs]%andb_true_iff. specialize (IH Hs).
  destruct (Ascii.eqb c LF); [by constructor|].
  destruct (lines s) as [|h t]; [by repeat constructor; cbn; rewrite Hc|].
  apply Forall_cons in IH as [Hh Ht]. constructor; [|done].
  cbn [noLowerASCII]. by rewrite Hc, Hh.
Qed.

(** With lawful tables, an upper case form holds no lower case ASCII letter. *)
Lemma noLowerASCII_ToUpper `{!UnicodeTables} (s : string) :
  (forall s, noLowerASCII (MapToUpper s) = true) ->
  noLowerASCII (ToUpper s) = true.
Proof.
  intros Hlaw. unfold ToUpper.
  destruct (isASCII s); [apply noLowerASCII_upperASCII|apply Hlaw].
Qed.

Lemma singleLine_SplitFirst (s : string) :
  singleLine s = true -> singleLine (SplitFirst s) = true.
Proof.
  induction s as [|c s IH]; [reflexivity|].
  cbn [SplitFirst singleLine]. intros [Hc Hs]%andb_true_iff.
  destruct (Ascii.eqb c "/"); [reflexivity|].
  cbn [singleLine]. by rewrite Hc, (IH Hs).
Qed.

Lemma singleLine_uint (d : Decimal.uint) : singleLine (NilEmpty.string_of_uint d) = true.
Proof. induction d; cbn; auto. Qed.

Lemma singleLine_Itoa (n : Z) : singleLine (Itoa n) = true.
Proof.
  unfold Itoa. destruct (Z.to_int n) as [d|d]; cbn.
  - destruct d; try reflexivity; apply (singleLine_uint (_ d)).
  - destruct d; try reflexivity; apply (singleLine_uint (_ d)).
Qed.

Lemma singleLine_catMap {A} (f : A -> string) (l : list A) :
  Forall (fun x => singleLine (f x) = true) l -> singleLine (catMap f l) = true.
Proof.
  induction 1 as [|x l Hx _ IH]; [reflexivity|].
  cbn [catMap]. by rewrite singleLine_app, Hx, IH.
Qed.

Lemma fold_left_WriteString {A} (f : A -> string) (l : list A) (sb : Builder) :
  fold_left (fun sb x => WriteString sb (f x)) l sb = sb +:+ catMap f l.
Proof.
  revert sb. induction l as [|x l IH]; intros sb; cbn [fold_left catMap].
  - by rewrite string_app_nil_r.
  - rewrite IH. unfold WriteString. by rewrite string_app_assoc.
Qed.

End StringFacts.

(** ** The egress proxy ACL document *)

Section SquidFacts.
Import strings docker squid.
Context {U : UnicodeTables}.

Lemma writeMethod_app (sb : Builder) (m : string) :
  writeMethod sb m = sb +:+ methodTokens m.
Proof.
  unfold methodTokens, writeMethod, WriteString.
  destruct (String.eqb (ToUpper m) "TCP"); by rewrite ?string_app_assoc.
Qed.

Lemma fold_left_writeMethod (l : list string) (sb : Builder) :
  fold_left writeMethod l sb = sb +:+ catMap methodTokens l.
Proof.
  rewrite <- fold_left_WriteString. revert sb.
  induction l as [|m l IH]; intros sb; [reflexivity|].
  cbn [fold_left]. rewrite IH. by rewrite writeMethod_app.
Qed.

Lemma writeIngressProxyConfig_lines (sb : Builder) (ports : list string) (host : string) :
  writeIngressProxyConfig sb ports host = sb +:+ unlines (ingressLines host ports).
Proof.
  unfold writeIngressProxyConfig. rewrite fold_left_WriteString. f_equal.
  induction ports as [|p ports IH]; [reflexivity|].
  cbn [catMap ingressLines flat_map]. rewrite unlines_app.
  fold (ingressLines host ports). rewrite <- IH.
  unfold ingressBlock. cbn [unlines].
  by rewrite ?string_app_assoc, ?string_app_nil_r.
Qed.

Lemma squidConfHeader_lines (host : string) :
  squidConfHeader host = unlines (headerLines host).
Proof.
  unfold squidConfHeader, headerLines. cbn [unlines].
  by rewrite ?string_app_assoc, ?string_app_nil_r.
Qed.

(** The restricted document is exactly its lines. *)
Lemma squidConfText_restricted (o : OutboundNetworkPermissions) (host : string)
    (ports : list string) :
  InsecureAllowAll o = false ->
  squidConfText (Some {| Outbound := Some o |}) host ports
  = Ok (unlines (restrictedLines o host ports)).
Proof.
  intros Hins. unfold squidConfText. cbn [Outbound]. rewrite Hins.
  unfold writeOutboundACLs, writeHttpAccessRules.
  rewrite !fold_left_WriteString.
  unfold restrictedLines, portsLines, dstsLines, rulesLines,
    portsLine, dstsLine, methodsLine, accessLine.
  destruct (0 <? length (AllowPort o))%nat eqn:Hp;
  destruct (0 <? length (AllowHost o))%nat eqn:Hh;
  destruct (0 <? length (AllowTransport o))%nat eqn:Ht;
  unfold conditions; rewrite ?Hp, ?Hh, ?Ht; cbn [app length Nat.ltb Nat.leb];
  rewrite ?fold_left_writeMethod, writeIngressProxyConfig_lines;
  unfold WriteString; rewrite squidConfHeader_lines; f_equal;
  repeat (rewrite ?unlines_app; cbn [unlines app]);
  by rewrite ?string_app_assoc, ?string_app_nil_r.
Qed.

End SquidFacts.

Section SquidLemmas.
Import strings docker squid.
Context {U : UnicodeTables}.

Lemma hasLine_unlines (ls : list string) (l : string) :
  In l ls -> singleLine l = true -> hasLine (unlines ls) l.
Proof.
  unfold hasLine. intros Hin Hl.
  induction ls as [|x ls IH]; [destruct Hin|].
  cbn [unlines]. rewrite lines_app_nl. apply in_or_app.
  destruct Hin as [->|Hin].
  - left. rewrite (lines_singleLine _ Hl). by left.
  - right. by apply IH.
Qed.

Lemma createTempSquidConf_text (fs : TempFileSystem) (name text : string)
    (np : option NetworkPermissions) (host : string) (ports : list string) :
  CreateTemp fs = Ok name -> (forall t, FileWrite fs t = true) ->
  squidConfText np host ports = Ok text ->
  createTempSquidConf fs np host ports = Ok (name, text).
Proof.
  intros Hc Hw Ht. unfold createTempSquidConf. by rewrite Ht, Hc, Hw.
Qed.

Lemma squidConfText_allow_all (np : option NetworkPermissions) (host : string)
    (ports : list string) :
  np = None \/ (exists o, Outbound <$> np = Some (Some o) /\ InsecureAllowAll o = true) ->
  exists text, squidConfText np host ports = Ok text /\ hasLine text "http_access allow all".
Proof.
  intros Hnp.
  assert (squidConfText np host ports
          = Ok (unlines (headerLines host ++ ["# Allow all traffic"; "http_access allow all"]
                         ++ ingressLines host ports ++ ["http_access deny all"]))) as ->.
  { unfold squidConfText.
    assert (match np with
            | None => true
            | Some np => match Outbound np with Some o => InsecureAllowAll o | None => false end
            end = true) as Hb.
    { destruct Hnp as [->|(o & Ho & Hins)]; [done|].
      destruct np as [[ob]|]; [|done]. cbn in Ho. by simplify_eq. }
    destruct np as [np|]; [rewrite Hb|];
      rewrite writeIngressProxyConfig_lines; unfold WriteString;
      rewrite squidConfHeader_lines; f_equal;
      repeat (rewrite ?unlines_app; cbn [unlines app]);
      by rewrite ?string_app_assoc, ?string_app_nil_r. }
  eexists; split; [reflexivity|].
  apply hasLine_unlines; [|reflexivity].
  apply in_or_app; right. right; by left.
Qed.

(** What one entry of [AllowTransport] adds to the methods line. *)
Lemma methodTokens_eq (m : string) :
  methodTokens m
  = if String.eqb (ToUpper m) "TCP" then " CONNECT GET POST HEAD TCP"
    else " " +:+ ToUpper m.
Proof.
  unfold methodTokens, writeMethod, WriteString.
  destruct (String.eqb_spec (ToUpper m) "TCP") as [->|_]; reflexivity.
Qed.

Lemma catMap_methodTokens (l : list string) :
  catMap methodTokens l
  = catMap (fun m => if String.eqb (ToUpper m) "TCP" then " CONNECT GET POST HEAD TCP"
                     else " " +:+ ToUpper m) l.
Proof.
  induction l as [|m l IH]; [reflexivity|].
  cbn [catMap]. by rewrite methodTokens_eq, IH.
Qed.

Lemma singleLine_accessLine (o : OutboundNetworkPermissions) :
  singleLine (accessLine o) = true.
Proof.
  unfold accessLine, conditions.
  by destruct (0 <? length (AllowPort o))%nat, (0 <? length (AllowHost o))%nat,
    (0 <? length (AllowTransport o))%nat.
Qed.

(** The conditions are the names of the lists that are not empty, in the
    order ports, destinations, methods. *)
Lemma conditions_nonempty_lists (o : OutboundNetworkPermissions) :
  conditions o
  = match AllowPort o with [] => [] | _ => ["allowed_ports"] end
    ++ match AllowHost o with [] => [] | _ => ["allowed_dsts"] end
    ++ match AllowTransport o with [] => [] | _ => ["allowed_methods"] end.
Proof.
  unfold conditions. by destruct (AllowPort o), (AllowHost o), (AllowTransport o).
Qed.

Lemma ltb_length_nonempty {A} (l : list A) : (0 <? length l)%nat = true <-> l <> [].
Proof. destruct l; cbn; split; done. Qed.

(** A line written between two line feeds is a line of the text. *)
Lemma hasLine_between (before l after : string) :
  singleLine l = true -> hasLine (before +:+ nl +:+ l +:+ nl +:+ after) l.
Proof.
  intros Hl. unfold hasLine. rewrite !lines_app_nl, (lines_singleLine _ Hl).
  apply in_or_app. right. by left.
Qed.

End SquidLemmas.

Section SquidTheorems.
Import strings docker squid.
Context {U : UnicodeTables}.

(** X3: The document is allow-all when the profile has no network permissions,
    or when the outbound permissions set [InsecureAllowAll]. *)
Lemma allow_all_document (fs : TempFileSystem) (name : string)
    (np : option NetworkPermissions) (host : string) (ports : list string) :
  CreateTemp fs = Ok name -> (forall t, FileWrite fs t = true) ->
  np = None \/ (exists o, Outbound <$> np = Some (Some o) /\ InsecureAllowAll o = true) ->
  exists text, createTempSquidConf fs np host ports = Ok (name, text)
               /\ hasLine text "http_access allow all".
Proof.
  intros Hc Hw Hnp.
  destruct (squidConfText_allow_all np host ports Hnp) as (text & Ht & Hl).
  exists text. split; [by apply createTempSquidConf_text|done].
Qed.

(** C2, at the input where the code departs from it: network permissions
    that are present but hold no outbound part make [createTempSquidConf]
    dereference the nil [Outbound] pointer in [writeOutboundACLs]; no
    document is produced, whatever the file system answers. *)
Theorem createTempSquidConf_nil_outbound (fs : TempFileSystem) (host : string)
    (ports : list string) :
  createTempSquidConf fs (Some {| Outbound := None |}) host ports = Panic nilDeref.
Proof. reflexivity. Qed.

(** The earlier [needsNetworkAccess] takes the same profile, network
    permissions without an outbound part, in its stride. *)
Lemma needsNetworkAccess_nil_outbound :
  client.needsNetworkAccess
    (Some {| client.Read := []; client.Write := [];
             client.Network := Some {| Outbound := None |} |}) "stdio"
  = Ok false.
Proof. reflexivity. Qed.

(** C3, amended: with [InsecureAllowAll] false and an entry [t] among the
    allowed transports that upper-cases to TCP (TCP, tcp, Tcp, ...), the
    document is generated, and its text holds, one after the other: the
    start of the methods list; the tokens of the entries before [t]; for
    [t] the four methods CONNECT GET POST HEAD followed by the token TCP
    itself; the tokens of the entries after [t]; the line feed that closes
    the list; and the rule [http_access allow] with the names of the lists
    that are not empty, in the order allowed_ports, allowed_dsts,
    allowed_methods. Every entry that upper-cases to TCP gets the same five
    tokens, every other entry its upper case form. The rule is a line of
    the document; so is the methods list when no token holds a line
    feed. *)
Theorem tcp_expansion (fs : TempFileSystem) (name : string)
    (o : OutboundNetworkPermissions) (host : string) (ports : list string) (t : string) :
  CreateTemp fs = Ok name -> (forall x, FileWrite fs x = true) ->
  InsecureAllowAll o = false ->
  In t (AllowTransport o) ->
  ToUpper t = "TCP" ->
  let tokens :=
    catMap (fun m => if String.eqb (ToUpper m) "TCP" then " CONNECT GET POST HEAD TCP"
                     else " " +:+ ToUpper m) in
  let lists :=
    match AllowPort o with [] => [] | _ => ["allowed_ports"] end
    ++ match AllowHost o with [] => [] | _ => ["allowed_dsts"] end
    ++ ["allowed_methods"] in
  let rule := "http_access allow " +:+ Join lists " " in
  exists text l1 l2 before after,
    createTempSquidConf fs (Some {| Outbound := Some o |}) host ports = Ok (name, text)
    /\ AllowTransport o = l1 ++ t :: l2
    /\ text = before +:+ "acl allowed_methods method" +:+ tokens l1
              +:+ " CONNECT GET POST HEAD TCP" +:+ tokens l2 +:+ nl
              +:+ "# Define http_access rules" +:+ nl +:+ rule +:+ nl +:+ after
    /\ hasLine text rule
    /\ (singleLine (tokens (AllowTransport o)) = true ->
        hasLine text ("acl allowed_methods method" +:+ tokens (AllowTransport o))).
Proof.
  intros Hc Hw Hins Hin Htcp tokens lists rule.
  apply in_split in Hin as (l1 & l2 & Hl).
  assert ((0 <? length (AllowTransport o))%nat = true) as Ht
    by (apply ltb_length_nonempty; rewrite Hl; by destruct l1).
  assert (accessLine o = rule) as Hrule.
  { unfold accessLine, rule, lists. rewrite conditions_nonempty_lists, Hl.
    by destruct l1. }
  set (pre := headerLines host ++ portsLines o ++ dstsLines o).
  set (post := ingressLines host ports ++ ["http_access deny all"]).
  assert (restrictedLines o host ports
          = pre ++ ["# Define allowed methods"; methodsLine o;
                    "# Define http_access rules"; rule] ++ post) as Hlines.
  { unfold restrictedLines, rulesLines, pre, post. rewrite Ht, Hrule.
    by rewrite <- !app_assoc. }
  exists (unlines (restrictedLines o host ports)), l1, l2,
    (unlines pre +:+ "# Define allowed methods" +:+ nl), (unlines post).
  split; [apply createTempSquidConf_text; auto using squidConfText_restricted|].
  split; [exact Hl|].
  assert (methodsLine o
          = "acl allowed_methods method" +:+ tokens l1
            +:+ " CONNECT GET POST HEAD TCP" +:+ tokens l2) as Hm.
  { unfold methodsLine. rewrite Hl, catMap_app. cbn [catMap].
    rewrite methodTokens_eq, Htcp. cbn [String.eqb Ascii.eqb Bool.eqb].
    unfold tokens. by rewrite !catMap_methodTokens, ?string_app_assoc. }
  assert (unlines (restrictedLines o host ports)
          = (unlines pre +:+ "# Define allowed methods" +:+ nl)
            +:+ "acl allowed_methods method" +:+ tokens l1
            +:+ " CONNECT GET POST HEAD TCP" +:+ tokens l2 +:+ nl
            +:+ "# Define http_access rules" +:+ nl +:+ rule +:+ nl +:+ unlines post)
    as Htext.
  { rewrite Hlines, !unlines_app. cbn [unlines]. rewrite Hm.
    by rewrite ?string_app_assoc, ?string_app_nil_r. }
  split; [exact Htext|]. split.
  - rewrite Hlines. apply hasLine_unlines.
    + apply in_or_app. right. do 3 right. by left.
    + rewrite <- Hrule. apply singleLine_accessLine.
  - intros Hs. rewrite Hlines. apply hasLine_unlines.
    + apply in_or_app. right. right. left.
      unfold methodsLine, tokens. by rewrite catMap_methodTokens.
    + by rewrite singleLine_app, Hs.
Qed.

End SquidTheorems.

Section SquidExamples.
Import strings docker squid.
Existing Instance asciiTables.

(** C3 as stated fails: for [AllowTransport = ["TCP"]] the methods line
    carries five tokens, the fifth being TCP itself, and the line with
    exactly the four methods is not in the document. *)
Lemma tcp_entry_emits_tcp_token :
  let o := {| InsecureAllowAll := false; AllowTransport := ["TCP"];
              AllowHost := []; AllowPort := [] |} in
  exists text,
    squidConfText (Some {| Outbound := Some o |}) "srv" [] = Ok text
    /\ hasLine text "acl allowed_methods method CONNECT GET POST HEAD TCP"
    /\ ~ hasLine text "acl allowed_methods method CONNECT GET POST HEAD".
Proof.
  eexists. split; [vm_compute; reflexivity|]. split.
  - vm_compute. do 14 right. by left.
  - vm_compute. intros H.
    repeat (destruct H as [H|H]; [discriminate H|]). exact H.
Qed.

Lemma tcp_expansion_witness :
  exists text,
    createTempSquidConf
      {| CreateTemp := Ok "/tmp/squid-1.conf"; FileWrite := fun _ => true |}
      (Some {| Outbound := Some {| InsecureAllowAll := false;
                                   AllowTransport := ["udp"; "tcp"; "TCP"];
                                   AllowHost := ["api.example.com"];
                                   AllowPort := [443] |} |})
      "fetch" ["8080/tcp"] = Ok ("/tmp/squid-1.conf", text)
    /\ hasLine text "http_access allow allowed_ports allowed_dsts allowed_methods"
    /\ hasLine text
         "acl allowed_methods method UDP CONNECT GET POST HEAD TCP CONNECT GET POST HEAD TCP".
Proof.
  destruct (tcp_expansion
              {| CreateTemp := Ok "/tmp/squid-1.conf"; FileWrite := fun _ => true |}
              "/tmp/squid-1.conf"
              {| InsecureAllowAll := false; AllowTransport := ["udp"; "tcp"; "TCP"];
                 AllowHost := ["api.example.com"]; AllowPort := [443] |}
              "fetch" ["8080/tcp"] "tcp")
    as (text & l1 & l2 & before & after & Htext & _ & _ & Hrule & Hm).
  - reflexivity.
  - reflexivity.
  - reflexivity.
  - right. by left.
  - reflexivity.
  - exists text. split; [exact Htext|]. split; [exact Hrule|].
    apply Hm. reflexivity.
Defined.

End SquidExamples.

Section SingleHost.
Import strings docker squid.
Context {U : UnicodeTables}.

Lemma count_occ_prefix (p x : string) (ls : list string) :
  String.prefix p x = true ->
  Forall (fun l => String.prefix p l = false) ls ->
  count_occ String.string_dec ls x = 0%nat.
Proof.
  intros Hx. induction 1 as [|l ls Hl _ IH]; [reflexivity|].
  cbn [count_occ]. destruct (String.string_dec l x) as [->|_]; [congruence|exact IH].
Qed.

Lemma ingressLines_prefix (host : string) (ports : list string) :
  Forall (fun l => String.prefix dstsPrefix l = false) (ingressLines host ports).
Proof.
  induction ports as [|p ports IH]; [constructor|].
  cbn [ingressLines flat_map]. apply Forall_app. split; [|exact IH].
  unfold ingressBlock. by repeat constructor.
Qed.

Lemma ingressLines_singleLine (host : string) (ports : list string) :
  singleLine host = true ->
  Forall (fun p => singleLine (SplitFirst p) = true) ports ->
  Forall (fun l => singleLine l = true) (ingressLines host ports).
Proof.
  intros Hh. induction 1 as [|p ports Hp _ IH]; [constructor|].
  cbn [ingressLines flat_map]. apply Forall_app. split; [|exact IH].
  unfold ingressBlock. repeat constructor; by rewrite ?singleLine_app, ?Hh, ?Hp.
Qed.

(** No line that starts like the destinations line has an upper case
    letter in front. *)
Lemma noLowerASCII_dstsPrefix (l : string) :
  noLowerASCII l = true -> String.prefix dstsPrefix l = false.
Proof.
  destruct l as [|c l]; [reflexivity|].
  cbn [noLowerASCII]. intros [Hc _]%andb_true_iff.
  unfold dstsPrefix. cbn [String.prefix].
  destruct (Ascii.ascii_dec "a" c) as [<-|_]; [discriminate Hc|reflexivity].
Qed.

(** The methods list, however many lines its entries break it into,
    holds no line that starts like the destinations line. *)
Lemma methodsLine_prefix (o : OutboundNetworkPermissions) :
  (forall s, noLowerASCII (MapToUpper s) = true) ->
  Forall (fun l => String.prefix dstsPrefix l = false) (lines (methodsLine o)).
Proof.
  intros Hlaw. unfold methodsLine.
  rewrite lines_app_singleLine by reflexivity.
  assert (noLowerASCII (catMap methodTokens (AllowTransport o)) = true) as Hno.
  { apply noLowerASCII_catMap. intros m. rewrite methodTokens_eq.
    destruct (String.eqb _ _); [reflexivity|].
    rewrite noLowerASCII_app. by rewrite noLowerASCII_ToUpper. }
  apply noLowerASCII_lines in Hno.
  destruct (lines (catMap methodTokens (AllowTransport o))) as [|h t];
    [by repeat constructor|].
  apply Forall_cons in Hno as [_ Ht]. constructor; [reflexivity|].
  eapply Forall_impl; [exact Ht|]. intros l. apply noLowerASCII_dstsPrefix.
Qed.

(** The lines of the restricted document, where the methods list may be
    broken by line feeds in its entries. *)
Lemma restrictedLines_lines (o : OutboundNetworkPermissions) (host : string)
    (ports : list string) (H : string) :
  AllowHost o = [H] ->
  singleLine H = true ->
  singleLine host = true ->
  Forall (fun p => singleLine (SplitFirst p) = true) ports ->
  lines (unlines (restrictedLines o host ports))
  = headerLines host ++ portsLines o
    ++ ["# Define allowed destinations"; "acl allowed_dsts dstdomain " +:+ H]
    ++ (if (0 <? length (AllowTransport o))%nat
        then ["# Define allowed methods"] ++ lines (methodsLine o)
             ++ ["# Define http_access rules"; accessLine o]
        else [""; "# Define http_access rules"; accessLine o])
    ++ ingressLines host ports ++ ["http_access deny all"; ""].
Proof.
  intros HH HsH Hsh Hsp. rewrite lines_unlines_flat.
  unfold restrictedLines. rewrite !flat_map_app.
  rewrite (flat_map_lines_singleLine (headerLines host))
    by (unfold headerLines; repeat constructor; by rewrite !singleLine_app, Hsh).
  rewrite (flat_map_lines_singleLine (portsLines o)).
  2:{ unfold portsLines. destruct (0 <? _)%nat; repeat constructor.
      unfold portsLine. rewrite singleLine_app. apply singleLine_catMap.
      apply Forall_forall. intros n _. by rewrite singleLine_app, singleLine_Itoa. }
  rewrite (flat_map_lines_singleLine (ingressLines host ports))
    by (by apply ingressLines_singleLine).
  assert (dstsLines o
          = ["# Define allowed destinations"; "acl allowed_dsts dstdomain " +:+ H]) as ->.
  { unfold dstsLines, dstsLine. rewrite HH. cbn [length Nat.ltb Nat.leb catMap].
    by rewrite ?string_app_assoc, ?string_app_nil_r. }
  rewrite (flat_map_lines_singleLine [_; _])
    by (repeat constructor; by rewrite singleLine_app, HsH).
  assert (flat_map lines (rulesLines o)
          = if (0 <? length (AllowTransport o))%nat
            then ["# Define allowed methods"] ++ lines (methodsLine o)
                 ++ ["# Define http_access rules"; accessLine o]
            else [""; "# Define http_access rules"; accessLine o]) as ->.
  { unfold rulesLines, conditions. rewrite HH.
    destruct (0 <? length (AllowTransport o))%nat.
    - cbn [flat_map]. rewrite (lines_singleLine (accessLine o))
        by apply singleLine_accessLine.
      by rewrite app_nil_r.
    - destruct (0 <? length (AllowPort o))%nat; cbn [flat_map length Nat.ltb Nat.leb app];
        rewrite (lines_singleLine (accessLine o)) by apply singleLine_accessLine;
        reflexivity. }
  rewrite (flat_map_lines_singleLine ["http_access deny all"]) by (by repeat constructor).
  rewrite <- !app_assoc. reflexivity.
Qed.

(** C4, amended: with [InsecureAllowAll] false and [AllowHost = [H]],
    where H, the server host name and the port number of every ingress
    port hold no line feed, the document is generated, holds exactly one
    line "acl allowed_dsts dstdomain H", and its last [http_access] line is
    "http_access deny all". The allowed transports are not restricted: an
    upper case form holds no lower case ASCII letter, as for the tables of
    Go, so no line that it breaks the methods list into starts with acl. *)
Theorem single_host_acl (fs : TempFileSystem) (name : string)
    (o : OutboundNetworkPermissions) (host : string) (ports : list string) (H : string) :
  CreateTemp fs = Ok name -> (forall t, FileWrite fs t = true) ->
  InsecureAllowAll o = false ->
  AllowHost o = [H] ->
  singleLine H = true ->
  singleLine host = true ->
  Forall (fun p => singleLine (SplitFirst p) = true) ports ->
  (forall s, noLowerASCII (MapToUpper s) = true) ->
  exists text,
    createTempSquidConf fs (Some {| Outbound := Some o |}) host ports = Ok (name, text)
    /\ countLine text ("acl allowed_dsts dstdomain " +:+ H) = 1%nat
    /\ finalRule text = Some "http_access deny all".
Proof.
  intros Hc Hw Hins HH HsH Hsh Hsp Hlaw.
  exists (unlines (restrictedLines o host ports)).
  split; [apply createTempSquidConf_text; auto using squidConfText_restricted|].
  unfold countLine, finalRule. rewrite (restrictedLines_lines o host ports H) by done.
  assert (String.prefix dstsPrefix ("acl allowed_dsts dstdomain " +:+ H) = true) as Hx
    by reflexivity.
  split.
  - rewrite !count_occ_app.
    rewrite (count_occ_prefix dstsPrefix _ (headerLines host) Hx)
      by (unfold headerLines; by repeat constructor).
    rewrite (count_occ_prefix dstsPrefix _ (portsLines o) Hx)
      by (unfold portsLines, portsLine; destruct (0 <? _)%nat; by repeat constructor).
    rewrite (count_occ_prefix dstsPrefix _ (ingressLines host ports) Hx)
      by apply ingressLines_prefix.
    rewrite (count_occ_prefix dstsPrefix _ ["http_access deny all"; ""] Hx)
      by (by repeat constructor).
    rewrite (count_occ_prefix dstsPrefix _ (if (0 <? length (AllowTransport o))%nat
                                            then _ else _) Hx).
    2:{ destruct (0 <? length (AllowTransport o))%nat.
        - apply Forall_app. split; [by repeat constructor|].
          apply Forall_app. split; [by apply methodsLine_prefix|].
          unfold accessLine. by repeat constructor.
        - unfold accessLine. by repeat constructor. }
    cbn [count_occ].
    destruct (String.string_dec "# Define allowed destinations" _) as [E|_].
    { apply (f_equal (String.prefix dstsPrefix)) in E. discriminate E. }
    destruct (String.string_dec _ _) as [_|N]; [reflexivity|].
    exfalso. by apply N.
  - rewrite !app_assoc, filter_app.
    change (filter _ ["http_access deny all"; ""]) with ["http_access deny all"].
    by rewrite last_snoc.
Qed.

End SingleHost.

Section SingleHostExamples.
Import strings docker squid.
Existing Instance asciiTables.

(** C4 as stated fails when a name that is written into the document holds
    a line feed. With the allowed host a, line feed, http_access allow all,
    the document holds no line "acl allowed_dsts dstdomain H", and a rule
    that allows everything. A server host name or an ingress port that
    ends in a line feed and acl allowed_dsts dstdomain h adds lines of that
    text to the one written for the allowed host h. *)
Lemma line_feed_breaks_single_host_acl :
  let H := "a" +:+ nl +:+ "http_access allow all" in
  let inject := "x" +:+ nl +:+ "acl allowed_dsts dstdomain h" in
  let np := fun host =>
    Some {| Outbound := Some {| InsecureAllowAll := false; AllowTransport := [];
                                AllowHost := [host]; AllowPort := [] |} |} in
  exists text1 text2 text3,
    squidConfText (np H) "srv" [] = Ok text1
    /\ countLine text1 ("acl allowed_dsts dstdomain " +:+ H) = 0%nat
    /\ hasLine text1 "http_access allow all"
    /\ squidConfText (np "h") inject ["8080/tcp"] = Ok text2
    /\ countLine text2 "acl allowed_dsts dstdomain h" = 2%nat
    /\ squidConfText (np "h") "srv" [inject +:+ "/tcp"] = Ok text3
    /\ countLine text3 "acl allowed_dsts dstdomain h" = 4%nat.
Proof.
  do 3 eexists.
  split; [vm_compute; reflexivity|]. split; [by vm_compute|].
  split; [vm_compute; do 15 right; by left|].
  split; [vm_compute; reflexivity|]. split; [by vm_compute|].
  split; [vm_compute; reflexivity|by vm_compute].
Qed.

Lemma single_host_acl_witness :
  exists text,
    createTempSquidConf
      {| CreateTemp := Ok "/tmp/squid-2.conf"; FileWrite := fun _ => true |}
      (Some {| Outbound := Some {| InsecureAllowAll := false;
                                   AllowTransport := ["TCP"];
                                   AllowHost := ["api.example.com"];
                                   AllowPort := [443] |} |})
      "fetch" ["8080/tcp"] = Ok ("/tmp/squid-2.conf", text)
    /\ countLine text "acl allowed_dsts dstdomain api.example.com" = 1%nat
    /\ finalRule text = Some "http_access deny all".
Proof.
  apply (single_host_acl
           {| CreateTemp := Ok "/tmp/squid-2.conf"; FileWrite := fun _ => true |}
           "/tmp/squid-2.conf"
           {| InsecureAllowAll := false; AllowTransport := ["TCP"];
              AllowHost := ["api.example.com"]; AllowPort := [443] |}
           "fetch" ["8080/tcp"] "api.example.com").
  - reflexivity.
  - reflexivity.
  - reflexivity.
  - reflexivity.
  - reflexivity.
  - reflexivity.
  - by repeat constructor.
  - apply noLowerASCII_upperASCII.
Defined.

End SingleHostExamples.

(** ** Reusing an existing container *)

Section Dimensions.
Import strings docker reconcile.

Lemma rangeAll_lookup (desired existing : list string) (k : nat) :
  rangeAll (fun i s =>
              negb ((length desired <=? i)%nat
                    || negb (bool_decide (Some s = desired !! i)))) k existing = true
  <-> forall j s, existing !! j = Some s -> desired !! (k + j)%nat = Some s.
Proof.
  revert k. induction existing as [|x existing IH]; intros k; cbn [rangeAll].
  - split; [intros _ j s Hj; by rewrite lookup_nil in Hj|done].
  - rewrite andb_true_iff, IH, negb_true_iff, orb_false_iff, negb_false_iff,
      bool_decide_eq_true. split.
    + intros [[_ Hx] Hrest] [|j] s Hj; cbn in Hj.
      * simplify_eq. by rewrite Nat.add_0_r.
      * rewrite <- Nat.add_succ_comm. by apply Hrest.
    + intros H. split; [split|].
      * apply Nat.leb_gt. apply (lookup_lt_Some _ _ x).
        specialize (H 0%nat x eq_refl). by rewrite Nat.add_0_r in H.
      * specialize (H 0%nat x eq_refl). by rewrite Nat.add_0_r in H.
      * intros j s Hj. rewrite Nat.add_succ_comm. by apply (H (S j)).
Qed.

(** Two slices compare equal exactly when they are the same list. *)
Lemma compareStringSlices_eq (existing desired : list string) :
  compareStringSlices existing desired = true <-> existing = desired.
Proof.
  unfold compareStringSlices.
  destruct (Nat.eqb_spec (length existing) (length desired)) as [Hlen|Hlen]; cbn [negb].
  - rewrite rangeAll_lookup. split.
    + intros H. apply list_eq_same_length with (length existing); [done..|].
      intros j x y _ Hx Hy. apply H in Hx. cbn in Hx. congruence.
    + intros -> j s Hj. done.
  - split; [done|]. intros ->. done.
Qed.

(** X4: What a match of the basic configuration says, dimension by
    dimension: image and command are the same, the desired environment and
    labels are included in the existing ones, and the stdio flags are the
    same. *)
Lemma compareBasicConfig_dimensions (existing : InspectResponse) (desired : Config) :
  compareBasicConfig existing desired = true <->
  Image (ExistingConfig existing) = Image desired
  /\ Cmd (ExistingConfig existing) = Cmd desired
  /\ envSliceToMap (Env desired) ⊆ envSliceToMap (Env (ExistingConfig existing))
  /\ Labels desired ⊆ Labels (ExistingConfig existing)
  /\ AttachStdin (ExistingConfig existing) = AttachStdin desired
  /\ AttachStdout (ExistingConfig existing) = AttachStdout desired
  /\ AttachStderr (ExistingConfig existing) = AttachStderr desired
  /\ OpenStdin (ExistingConfig existing) = OpenStdin desired.
Proof.
  unfold compareBasicConfig, compareEnvVars, compareLabels.
  rewrite !map_subseteq_spec.
  destruct (String.eqb_spec (Image (ExistingConfig existing)) (Image desired));
    cbn [negb]; [|intuition (done || congruence)].
  pose proof (compareStringSlices_eq (Cmd (ExistingConfig existing)) (Cmd desired)) as Hcmd.
  unfold compareStringSlices in Hcmd.
  destruct (Nat.eqb_spec (length (Cmd (ExistingConfig existing))) (length (Cmd desired)));
    cbn [negb] in *; [|intuition (done || congruence)].
  destruct (rangeAll _ _ _); cbn [negb]; [|intuition (done || congruence)].
  destruct (bool_decide_reflect (map_Forall
              (fun k v => envSliceToMap (Env (ExistingConfig existing)) !! k = Some v)
              (envSliceToMap (Env desired)))) as [He|He]; cbn [negb]; [|intuition (done || congruence)].
  destruct (bool_decide_reflect (map_Forall
              (fun k v => Labels (ExistingConfig existing) !! k = Some v)
              (Labels desired))) as [Hl|Hl]; cbn [negb]; [|intuition (done || congruence)].
  destruct (AttachStdin (ExistingConfig existing)), (AttachStdin desired),
    (AttachStdout (ExistingConfig existing)), (AttachStdout desired),
    (AttachStderr (ExistingConfig existing)), (AttachStderr desired),
    (OpenStdin (ExistingConfig existing)), (OpenStdin desired); cbn; intuition (done || congruence).
Qed.



End Dimensions.

Section Redeploy.
Import strings docker reconcile client fake.

(** Deploying the same workload a second time on the small engine reuses
    all three containers when the proxy configuration goes to the same file. *)
Lemma redeploy_no_churn :
  let w1 := snd (deploy "fetch") in
  let r := deployOn "/tmp/squid-1.conf" "fetch" w1 in
  fst (deploy "fetch") = Ok "id-fetch"
  /\ fst r = Ok "id-fetch"
  /\ churn (drop (length (calls w1)) (calls (snd r))) = [].
Proof. vm_compute. done. Qed.

End Redeploy.

(** ** The networks of the main container *)

Section CallLog.
Import strings docker reconcile client calllog.
Context {E : Type}.

Lemma logs_ret {A} P (a : A) : logs (E:=E) P (mret a).
Proof. intros w. exists []. by rewrite app_nil_r. Qed.

Lemma logs_fail {A} P e : logs P (@fail E A e).
Proof. intros w. exists []. by rewrite app_nil_r. Qed.

Lemma logs_panic {A} P p : logs P (@panic E A p).
Proof. intros w. exists []. by rewrite app_nil_r. Qed.

Lemma logs_lift {A} P (r : result A) : logs P (@lift E A r).
Proof. intros w. exists []. by rewrite app_nil_r. Qed.

Lemma logs_call {A} (P : Call -> Prop) c (f : E -> result A * E) : P c -> logs P (call c f).
Proof.
  intros Hc w. exists [c]. unfold call. destruct (f (engine w)). by repeat constructor.
Qed.

Lemma logs_bind {A B} P (m : M E A) (f : A -> M E B) :
  logs P m -> (forall a, logs P (f a)) -> logs P (m ≫= f).
Proof.
  intros Hm Hf w. unfold mbind, M_bind.
  destruct (Hm w) as (cs1 & E1 & F1).
  destruct (m w) as [[a|e|p] w1]; cbn [snd] in *; [|by exists cs1..].
  destruct (Hf a w1) as (cs2 & E2 & F2).
  exists (cs1 ++ cs2). rewrite E2, E1, app_assoc. split; [done|by apply Forall_app].
Qed.

Lemma logs_try {A} P (m : M E A) : logs P m -> logs P (try m).
Proof.
  intros Hm w. unfold try. destruct (Hm w) as (cs & E1 & F1).
  destruct (m w) as [[a|e|p] w1]; by exists cs.
Qed.

Lemma logs_orFail {A} P (m : M E A) wrap : logs P m -> logs P (orFail m wrap).
Proof.
  intros Hm. unfold orFail. apply logs_bind; [by apply logs_try|].
  intros [a|e|p]; [apply logs_ret|apply logs_fail|apply logs_panic].
Qed.

End CallLog.

Create HintDb logs discriminated.

Ltac logs_step :=
  first
    [ apply logs_ret | apply logs_fail | apply logs_panic | apply logs_lift
    | apply logs_call; exact I
    | apply logs_orFail | apply logs_try
    | apply logs_bind; [|intros ?] ].

Ltac logs_case :=
  match goal with
  | |- calllog.logs _ (match ?x with _ => _ end) => destruct x
  | |- calllog.logs _ (let '(_, _) := ?x in _) => destruct x
  end.

Ltac logs_auto :=
  repeat first [ solve [eauto 4 with logs] | logs_step | logs_case ].

Section DeployLog.
Import strings docker reconcile client calllog.
Context {U : UnicodeTables} {E : Type} (api : API E) (ext : Externals).
Context (Q : string -> gset string -> Prop).

Lemma logs_findExistingContainer name : logs (creations Q) (findExistingContainer api name).
Proof. unfold findExistingContainer. logs_auto. Qed.
Local Hint Resolve logs_findExistingContainer : logs.

Lemma logs_IsWorkloadRunning id : logs (creations Q) (IsWorkloadRunning api id).
Proof. unfold IsWorkloadRunning. logs_auto. Qed.
Local Hint Resolve logs_IsWorkloadRunning : logs.

Lemma logs_stopCompanion n t : logs (creations Q) (stopCompanion api n t).
Proof. unfold stopCompanion. logs_auto. Qed.
Local Hint Resolve logs_stopCompanion : logs.

Lemma logs_StopWorkload id : logs (creations Q) (StopWorkload api id).
Proof. unfold StopWorkload. logs_auto. Qed.
Local Hint Resolve logs_StopWorkload : logs.

Lemma logs_deleteNetwork n : logs (creations Q) (deleteNetwork api n).
Proof. unfold deleteNetwork. logs_auto. Qed.
Local Hint Resolve logs_deleteNetwork : logs.

Lemma logs_createNetwork n l i : logs (creations Q) (createNetwork api n l i).
Proof. unfold createNetwork. logs_auto. Qed.
Local Hint Resolve logs_createNetwork : logs.

Lemma logs_removeCompanion n what : logs (creations Q) (removeCompanion api n what).
Proof. unfold removeCompanion. logs_auto. Qed.
Local Hint Resolve logs_removeCompanion : logs.

Lemma logs_RemoveWorkload id : logs (creations Q) (RemoveWorkload api id).
Proof. unfold RemoveWorkload. logs_auto. Qed.
Local Hint Resolve logs_RemoveWorkload : logs.

Lemma logs_handleExistingContainer id config hostConfig :
  logs (creations Q) (handleExistingContainer api id config hostConfig).
Proof. unfold handleExistingContainer. logs_auto. Qed.
Local Hint Resolve logs_handleExistingContainer : logs.

Lemma logs_createContainer name config hostConfig eps :
  Q name eps -> logs (creations Q) (createContainer api name config hostConfig eps).
Proof.
  intros HQ. unfold createContainer. logs_auto.
  apply logs_call. exact HQ.
Qed.
Local Hint Resolve logs_createContainer : logs.

Lemma logs_writeSquidConf perm host ports :
  logs (creations Q) (writeSquidConf (E:=E) ext perm host ports).
Proof.
  intros w. unfold writeSquidConf.
  destruct (createTempSquidConf _ _ _ _) as [[n t]|e|p]; cbn [snd calls].
  - exists [WriteTempFile n t]. by repeat constructor.
  - exists []. by rewrite app_nil_r.
  - exists []. by rewrite app_nil_r.
Qed.
Local Hint Resolve logs_writeSquidConf : logs.

Lemma logs_createEgressContainers name egressName dnsName attach perm pb ep :
  (forall eps, Q egressName eps) -> (forall eps, Q dnsName eps) ->
  logs (creations Q)
       (createEgressContainers api ext name egressName dnsName attach perm pb ep).
Proof.
  intros Hegress Hdns. unfold createEgressContainers, PullImage. logs_auto.
Qed.
Local Hint Resolve logs_createEgressContainers : logs.

Lemma logs_createContainerNetworks i e :
  logs (creations Q) (createContainerNetworks api ext i e).
Proof. unfold createContainerNetworks. logs_auto. Qed.
Local Hint Resolve logs_createContainerNetworks : logs.

Lemma logs_deployEgress name envVars profile options attach :
  (forall eps, Q (name +:+ "-egress") eps) -> (forall eps, Q (name +:+ "-dns") eps) ->
  logs (creations Q) (deployEgress api ext name envVars profile options attach).
Proof. intros Hegress Hdns. unfold deployEgress. logs_auto. Qed.
Local Hint Resolve logs_deployEgress : logs.

Lemma logs_DeployWorkload image name command envVars labels profile transportType options :
  (forall eps, Q (name +:+ "-egress") eps) -> (forall eps, Q (name +:+ "-dns") eps) ->
  Q name (if negb (negb (String.eqb name "inspector"))
          then {["toolhive-" +:+ name +:+ "-internal"]} ∪ {["toolhive-external"]}
          else {["toolhive-" +:+ name +:+ "-internal"]}) ->
  logs (creations Q)
       (DeployWorkload api ext image name command envVars labels profile transportType
                       options).
Proof. intros Hegress Hdns Hmain. unfold DeployWorkload. logs_auto. Qed.

End DeployLog.

Section MainContainerNetworks.
Import strings docker reconcile client calllog fake.

Lemma string_length_app (a b : string) :
  String.length (a +:+ b) = (String.length a + String.length b)%nat.
Proof. induction a as [|c a IH]; [reflexivity|]. cbn. by rewrite <- IH. Qed.

Lemma string_app_neq (s t : string) : t <> "" -> s +:+ t <> s.
Proof.
  intros Ht Heq. apply (f_equal String.length) in Heq.
  rewrite string_length_app in Heq. destruct t; [done|]. cbn in Heq. lia.
Qed.

Lemma internal_not_external (name : string) :
  "toolhive-external" <> "toolhive-" +:+ name +:+ "-internal".
Proof.
  intros Heq. apply (f_equal String.length) in Heq.
  rewrite !string_length_app in Heq. cbn in Heq. lia.
Qed.

Lemma createdEndpoints_In (name : string) (cs : list Call) (l : list string) :
  In l (createdEndpoints name cs) ->
  exists config hostConfig eps,
    In (ContainerCreate name config hostConfig eps) cs /\ l = elements eps.
Proof.
  unfold createdEndpoints. induction cs as [|c cs IH]; cbn [omap list_omap]; [done|].
  destruct c as [| |n cfg h eps| | | | | | | |];
    try (intros H; destruct (IH H) as (?&?&?&?&?); eauto 8 using in_cons).
  destruct (String.eqb_spec n name) as [->|Hn].
  - intros [<-|H].
    + exists cfg, h, eps. split; [by left|done].
    + destruct (IH H) as (?&?&?&?&?); eauto 8 using in_cons.
  - intros H. destruct (IH H) as (?&?&?&?&?); eauto 8 using in_cons.
Qed.

(** C6 as stated fails for the workload named "inspector": on the small
    engine the deployment succeeds and the create request for the main
    container names the external network too. *)
Lemma inspector_on_external_network :
  fst (deploy "inspector") = Ok "id-inspector"
  /\ ~ (forall config hostConfig eps,
          In (ContainerCreate "inspector" config hostConfig eps)
             (calls (snd (deploy "inspector"))) ->
          "toolhive-external" ∉ eps).
Proof.
  split; [vm_compute; reflexivity|].
  intros H.
  assert (In ["toolhive-external"; "toolhive-inspector-internal"]
             (createdEndpoints "inspector" (calls (snd (deploy "inspector"))))) as Hin.
  { vm_compute. by left. }
  apply createdEndpoints_In in Hin as (config & hostConfig & eps & Hin & Heps).
  apply (H _ _ _ Hin). apply elem_of_elements. rewrite <- Heps. by left.
Qed.

(** C6, amended: for every workload whose name is not "inspector",
    whatever the engine answers, each create request that [DeployWorkload]
    issues for the main container names exactly the workload's internal
    network toolhive-<W>-internal, and so not toolhive-external. *)
Theorem main_container_networks {U : UnicodeTables} {E : Type} (api : API E)
    (ext : Externals)
    (image name : string) (command : list string)
    (envVars labels : option (gmap string string)) (profile : option Profile)
    (transportType : string) (options : option DeployWorkloadOptions) (w : World E) :
  name <> "inspector" ->
  exists newCalls,
    calls (snd (DeployWorkload api ext image name command envVars labels profile
                               transportType options w)) = calls w ++ newCalls
    /\ forall config hostConfig eps,
         In (ContainerCreate name config hostConfig eps) newCalls ->
         eps = {["toolhive-" +:+ name +:+ "-internal"]}
         /\ "toolhive-" +:+ name +:+ "-internal" ∈ eps
         /\ "toolhive-external" ∉ eps.
Proof.
  intros Hname.
  pose (Q := fun n (eps : gset string) =>
               n = name -> eps = {["toolhive-" +:+ name +:+ "-internal"]}).
  destruct (logs_DeployWorkload api ext Q image name command envVars labels profile
              transportType options) with (w := w) as (cs & Hcs & HP).
  - intros eps Heq. by apply string_app_neq in Heq.
  - intros eps Heq. by apply string_app_neq in Heq.
  - apply String.eqb_neq in Hname. rewrite Hname. done.
  - exists cs. split; [exact Hcs|].
    intros config hostConfig eps Hin.
    rewrite Forall_forall in HP. apply list_elem_of_In in Hin.
    specialize (HP _ Hin eq_refl). cbn in HP. subst eps.
    split; [done|]. split; [set_solver|].
    apply not_elem_of_singleton, internal_not_external.
Qed.

Lemma main_container_networks_witness :
  fst (deploy "fetch") = Ok "id-fetch"
  /\ createdEndpoints "fetch" (calls (snd (deploy "fetch"))) = [["toolhive-fetch-internal"]]
  /\ exists newCalls,
       calls (snd (deploy "fetch")) = [] ++ newCalls
       /\ forall config hostConfig eps,
            In (ContainerCreate "fetch" config hostConfig eps) newCalls ->
            eps = {["toolhive-fetch-internal"]}
            /\ "toolhive-fetch-internal" ∈ eps
            /\ "toolhive-external" ∉ eps.
Proof.
  split; [vm_compute; reflexivity|]. split; [vm_compute; reflexivity|].
  apply (main_container_networks (U:=asciiTables) api ext
           "ghcr.io/example/fetch:latest" "fetch" ["--serve"]
           (Some {["MCP_TRANSPORT" := "stdio"]})
           (Some {["toolhive" := "true"; "toolhive-name" := "fetch"]})
           (Some fetchProfile) "stdio" (Some fetchOptions) emptyWorld).
  discriminate.
Defined.

End MainContainerNetworks.

(** ** The pending messages and POST /messages *)

Section Pending.
Import strings httpsse httpsseSteps.
Context {Msg : Type} (EncodeMessage : Msg -> result string).

Lemma sendPending_fits (ch : Chan string) (pending : list PendingSSEMessage) :
  (length (buffer ch) + length pending <= capacity ch)%nat ->
  sendPending ch pending
  = ({| buffer := buffer ch ++ ((fun m => ToSSEString (Message m)) <$> pending);
        capacity := capacity ch |}, true).
Proof.
  revert ch. induction pending as [|m pending IH]; intros ch Hlen.
  - cbn. rewrite app_nil_r. by destruct ch.
  - cbn [sendPending]. unfold trySend. cbn [length] in Hlen.
    destruct (Nat.ltb_spec (length (buffer ch)) (capacity ch)); [|lia].
    rewrite IH; cbn [buffer capacity]; [|rewrite length_app; cbn; lia].
    by rewrite <- app_assoc.
Qed.

Lemma forwardAll_no_clients (p : HTTPSSEProxy (Msg:=Msg)) (msgs : list Msg)
    (datas : list string) :
  sseClients p = ∅ ->
  Forall2 (fun m d => EncodeMessage m = Ok d) msgs datas ->
  forwardAll EncodeMessage p msgs
  = withPending p (pendingMessages p
                   ++ ((fun d => NewPendingSSEMessage (NewSSEMessage "message" d)) <$> datas)).
Proof.
  intros Hc H. revert p Hc. induction H as [|m d msgs datas Hm _ IH]; intros p Hc.
  - cbn. rewrite app_nil_r. by destruct p.
  - cbn [forwardAll fold_left]. unfold ForwardResponseToClients at 2.
    rewrite Hm, Hc, map_size_empty. cbn [Nat.ltb Nat.leb fst].
    unfold forwardAll in IH. rewrite IH by done.
    unfold withPending; cbn. by rewrite <- app_assoc.
Qed.

(** ForwardResponseToClients is the look followed at once by what the look
    decides. *)
Lemma ForwardResponseToClients_steps (p : HTTPSSEProxy (Msg:=Msg)) (msg : Msg) :
  ForwardResponseToClients EncodeMessage p msg
  = match EncodeMessage msg with
    | Ok data => forwardLooked (lookForClients p) p (NewSSEMessage "message" data)
    | Error e => (p, Error (Errorf "failed to encode JSON-RPC message"))
    | Panic m => (p, Panic m)
    end.
Proof. reflexivity. Qed.

(** handleSSEConnection is the registration followed at once by the
    processing of the pending messages. *)
Lemma handleSSEConnection_steps (p : HTTPSSEProxy (Msg:=Msg)) (r : Request)
    (clientID : string) (now : Z) (flusher : bool) :
  fst (handleSSEConnection p r clientID now flusher)
  = fst (drainPending (registerClient p clientID now) clientID).
Proof.
  unfold handleSSEConnection, drainPending, registerClient.
  cbn [withClients sseClients]. rewrite lookup_insert_eq. cbn [MessageCh CreatedAt].
  destruct (processPendingMessages _ _ _) as [p' ch]. by destruct flusher.
Qed.

(** The message loop writes what is queued, oldest first. *)
Lemma receiveN_queue (p : HTTPSSEProxy (Msg:=Msg)) (clientID : string)
    (queue : list string) :
  queueOf p clientID = Some queue ->
  snd (receiveN p clientID (length queue)) = queue.
Proof.
  revert p. induction queue as [|msg queue IH]; intros p Hq; [reflexivity|].
  cbn [length receiveN]. unfold receive. unfold queueOf in Hq.
  destruct (sseClients p !! clientID) as [client|] eqn:Hc; [|done].
  cbn in Hq. injection Hq as Hq. rewrite Hq.
  match goal with |- context [receiveN ?q _ _] => specialize (IH q) end.
  destruct (receiveN _ clientID (length queue)) as [p' written]. cbn [snd] in *.
  f_equal. apply IH. unfold queueOf. cbn [withClients sseClients].
  by rewrite lookup_insert_eq.
Qed.

End Pending.

Section PendingTheorems.
Import strings httpsse httpsseSteps.

(** C7 as stated fails in four ways. More messages pending than a client
    queue holds (100): with 101 messages emitted while no client is
    connected, the first client gets the first 100, the pending list is not
    cleared, and the second client is sent the same 100 messages again.
    An emission that overlaps a connection: the forward looks at the
    client map and sees no client, then the first client connects, and
    only then is the message appended; the first client is never sent it,
    the second client is. A connection whose writer cannot stream: it is
    refused, but the pending message has been moved to its queue, which
    nothing reads, and the next client is not sent it either. And an
    emission between the registration of a client and the processing of
    the pending messages: the new message is queued for the client before
    the pending one. *)
Lemma pending_redelivered_on_overflow :
  let encode := fun m : string => Ok m in
  let msgs := (fun i => Itoa (Z.of_nat i)) <$> seq 0 101 in
  let r := {| Method := "GET"; Host := "localhost:8080"; TLS := false;
              XForwardedProto := ""; SessionID := ""; Body := Ok "" |} in
  let p1 := forwardAll encode NewHTTPSSEProxy msgs in
  let p2 := fst (handleSSEConnection p1 r "client-1" 0 true) in
  let p3 := fst (handleSSEConnection p2 r "client-2" 1 true) in
  let looked := lookForClients (NewHTTPSSEProxy (Msg:=string)) in
  let q1 := fst (handleSSEConnection (NewHTTPSSEProxy (Msg:=string)) r "client-1" 0 true) in
  let q2 := fst (forwardLooked looked q1 (NewSSEMessage "message" "first")) in
  let q3 := fst (handleSSEConnection q2 r "client-2" 1 true) in
  let s1 := forwardAll encode NewHTTPSSEProxy ["first"] in
  let s2 := handleSSEConnection s1 r "client-1" 0 false in
  let s3 := fst (handleSSEConnection (fst s2) r "client-2" 1 true) in
  let t2 := registerClient s1 "client-1" 0 in
  let t3 := fst (ForwardResponseToClients encode t2 "second") in
  let t4 := fst (drainPending t3 "client-1") in
  queueOf p2 "client-1" = Some (messageEvent <$> take 100 msgs)
  /\ length (pendingMessages p2) = 101%nat
  /\ queueOf p3 "client-2" = Some (messageEvent <$> take 100 msgs)
  /\ looked = false
  /\ queueOf q2 "client-1" = Some []
  /\ pendingMessages q2 = [NewPendingSSEMessage (NewSSEMessage "message" "first")]
  /\ queueOf q3 "client-1" = Some []
  /\ queueOf q3 "client-2" = Some [messageEvent "first"]
  /\ snd s2 = Error (Errorf "Streaming not supported")
  /\ pendingMessages (fst s2) = []
  /\ queueOf s3 "client-2" = Some []
  /\ queueOf t4 "client-1" = Some [messageEvent "second"; messageEvent "first"].
Proof. vm_compute. done. Qed.

(** C7, amended: messages emitted while no client is connected are
    appended to the pending list. When every emission has returned before
    the next connection is handled, the pending messages fit the queue of
    a client (at most 100) and the writer of the connection can stream,
    the connection is accepted, the client is sent all the pending
    messages, oldest first (they are queued for it in that order, and its
    message loop writes them in that order), the pending list is then
    empty, and a client that connects afterwards is sent none of them. *)
Theorem pending_fifo_delivery {Msg : Type} (EncodeMessage : Msg -> result string)
    (p : HTTPSSEProxy (Msg:=Msg)) (msgs : list Msg) (datas : list string)
    (r1 r2 : Request) (c1 c2 : string) (now1 now2 : Z) (flusher2 : bool) :
  sseClients p = ∅ ->
  Forall2 (fun m d => EncodeMessage m = Ok d) msgs datas ->
  (length (pendingMessages p) + length msgs <= 100)%nat ->
  c1 <> c2 ->
  let p1 := forwardAll EncodeMessage p msgs in
  let p2 := fst (handleSSEConnection p1 r1 c1 now1 true) in
  let p3 := fst (handleSSEConnection p2 r2 c2 now2 flusher2) in
  let sent := ((fun m => ToSSEString (Message m)) <$> pendingMessages p)
              ++ (messageEvent <$> datas) in
  pendingMessages p1
    = pendingMessages p
      ++ ((fun d => NewPendingSSEMessage (NewSSEMessage "message" d)) <$> datas)
  /\ sseClients p1 = ∅
  /\ (exists endpoint, snd (handleSSEConnection p1 r1 c1 now1 true) = Ok endpoint)
  /\ queueOf p2 c1 = Some sent
  /\ snd (receiveN p2 c1 (length sent)) = sent
  /\ pendingMessages p2 = []
  /\ queueOf p3 c2 = Some []
  /\ queueOf p3 c1 = Some sent.
Proof.
  intros Hc Henc Hlen Hne p1 p2 p3 sent.
  assert (length msgs = length datas) as Hlen2 by (by eapply Forall2_length).
  assert (p1 = withPending p (pendingMessages p
            ++ ((fun d => NewPendingSSEMessage (NewSSEMessage "message" d)) <$> datas)))
    as Hp1 by (by apply forwardAll_no_clients).
  assert (pendingMessages p2 = [] /\ sseClients p2
            = {[c1 := {| MessageCh := {| buffer := sent; capacity := 100 |};
                         CreatedAt := now1 |}]}) as [Hpend2 Hcl2].
  { subst p2. unfold handleSSEConnection, processPendingMessages.
    rewrite Hp1. cbn [withClients withPending pendingMessages sseClients].
    rewrite sendPending_fits
      by (cbn; rewrite length_app, length_fmap; lia).
    destruct (length _ =? 0)%nat eqn:Hz.
    - apply Nat.eqb_eq, length_zero_iff_nil in Hz.
      apply app_eq_nil in Hz as [Hz1 Hz2]. apply fmap_nil_inv in Hz2.
      subst sent. rewrite Hz1, Hz2, Hc. cbn.
      by rewrite insert_insert_eq, insert_empty.
    - cbn [makeChan buffer capacity withClients withPending pendingMessages sseClients].
      rewrite Hc. subst sent. rewrite fmap_app, <- list_fmap_compose.
      cbn; by rewrite insert_insert_eq, insert_empty. }
  assert (queueOf p2 c1 = Some sent) as Hq2
    by (unfold queueOf; by rewrite Hcl2, lookup_singleton_eq).
  split; [by rewrite Hp1|]. split; [by rewrite Hp1|].
  split.
  { unfold handleSSEConnection.
    destruct (processPendingMessages _ _ _) as [p' ch]. cbn [negb]. by eexists. }
  split; [exact Hq2|]. split; [by apply receiveN_queue|].
  split; [done|].
  assert (sseClients p3
          = <[c2 := {| MessageCh := makeChan 100; CreatedAt := now2 |}]> (sseClients p2))
    as Hcl3.
  { subst p3. unfold handleSSEConnection, processPendingMessages.
    cbn [withClients withPending pendingMessages sseClients]. rewrite Hpend2.
    cbn. destruct flusher2; cbn; by rewrite insert_insert_eq. }
  unfold queueOf. rewrite Hcl3, Hcl2. split.
  - by rewrite lookup_insert_eq.
  - rewrite lookup_insert_ne by done. by rewrite lookup_singleton_eq.
Qed.

Lemma pending_fifo_delivery_witness :
  let encode := fun m : string => Ok m in
  let r := {| Method := "GET"; Host := "localhost:8080"; TLS := false;
              XForwardedProto := ""; SessionID := ""; Body := Ok "" |} in
  let p1 := forwardAll encode NewHTTPSSEProxy ["first"; "second"] in
  let p2 := fst (handleSSEConnection p1 r "client-1" 0 true) in
  let p3 := fst (handleSSEConnection p2 r "client-2" 1 true) in
  queueOf p2 "client-1" = Some [messageEvent "first"; messageEvent "second"]
  /\ snd (receiveN p2 "client-1" 2) = [messageEvent "first"; messageEvent "second"]
  /\ pendingMessages p2 = []
  /\ queueOf p3 "client-2" = Some [].
Proof.
  intros encode r p1 p2 p3.
  destruct (pending_fifo_delivery encode NewHTTPSSEProxy
              ["first"; "second"] ["first"; "second"]
              r r "client-1" "client-2" 0 1 true)
    as (_ & _ & _ & H2 & Hr & H3 & H4 & _).
  - reflexivity.
  - by repeat constructor.
  - cbn. lia.
  - discriminate.
  - split; [exact H2|]. split; [exact Hr|]. split; [exact H3|exact H4].
Defined.

End PendingTheorems.

Section PostTheorems.
Import strings httpsse.

(** C9 as stated fails for the empty session id, which names no client:
    the answer is 400, not 404. *)
Lemma post_empty_session_not_404 :
  let decode := fun body : string => Ok body in
  let r := {| Method := "POST"; Host := "localhost:8080"; TLS := false;
              XForwardedProto := ""; SessionID := ""; Body := Ok "ping" |} in
  sseClients (NewHTTPSSEProxy (Msg:=string)) !! SessionID r = None
  /\ Status (snd (handlePostRequest decode NewHTTPSSEProxy r)) = 400
  /\ Status (snd (handlePostRequest decode NewHTTPSSEProxy r)) <> 404.
Proof. vm_compute. split; [done|]. split; [done|discriminate]. Qed.

(** C9, amended: a POST to /messages whose session id is not empty and
    names no SSE client is answered 404, and the proxy is left as it was:
    nothing is put on the channel to the container. *)
Theorem post_unknown_session {Msg : Type} (DecodeMessage : string -> result Msg)
    (p : HTTPSSEProxy (Msg:=Msg)) (r : Request) :
  Method r = "POST" ->
  SessionID r <> "" ->
  sseClients p !! SessionID r = None ->
  handlePostRequest DecodeMessage p r
  = (p, {| Status := 404; Text := "Could not find session" |})
  /\ messageCh (fst (handlePostRequest DecodeMessage p r)) = messageCh p.
Proof.
  intros Hm Hs Hc. unfold handlePostRequest.
  apply String.eqb_neq in Hs. rewrite Hm, Hs, Hc. done.
Qed.

Lemma post_unknown_session_witness :
  handlePostRequest (fun body : string => Ok body) NewHTTPSSEProxy
    {| Method := "POST"; Host := "localhost:8080"; TLS := false;
       XForwardedProto := ""; SessionID := "bogus"; Body := Ok "ping" |}
  = (NewHTTPSSEProxy, {| Status := 404; Text := "Could not find session" |}).
Proof.
  apply (post_unknown_session (fun body : string => Ok body) NewHTTPSSEProxy
           {| Method := "POST"; Host := "localhost:8080"; TLS := false;
              XForwardedProto := ""; SessionID := "bogus"; Body := Ok "ping" |}).
  - reflexivity.
  - discriminate.
  - reflexivity.
Defined.

(** C10: a POST to /messages with an empty session id is answered 400
    "session_id is required", whatever clients are registered, whatever
    the body holds and whatever the decoder would answer: the check of the
    parameter comes before the session lookup, the read of the body and
    the decoding. The proxy is left as it was. *)
Theorem post_missing_session_id {Msg : Type} (DecodeMessage : string -> result Msg)
    (p : HTTPSSEProxy (Msg:=Msg)) (r : Request) :
  Method r = "POST" ->
  SessionID r = "" ->
  handlePostRequest DecodeMessage p r
  = (p, {| Status := 400; Text := "session_id is required" |}).
Proof. intros Hm Hs. unfold handlePostRequest. by rewrite Hm, Hs. Qed.

(** Here a client is registered under the empty id, the body cannot be
    read and the decoder rejects everything: the answer is still 400. *)
Lemma post_missing_session_id_witness :
  let p := withClients (NewHTTPSSEProxy (Msg:=string))
             {["" := {| MessageCh := makeChan 100; CreatedAt := 0 |}]} in
  handlePostRequest (fun _ : string => Error (Errorf "invalid")) p
    {| Method := "POST"; Host := "localhost:8080"; TLS := false;
       XForwardedProto := ""; SessionID := ""; Body := Error (Errorf "read failed") |}
  = (p, {| Status := 400; Text := "session_id is required" |}).
Proof.
  intros p.
  apply (post_missing_session_id (fun _ : string => Error (Errorf "invalid")) p
           {| Method := "POST"; Host := "localhost:8080"; TLS := false;
              XForwardedProto := ""; SessionID := "";
              Body := Error (Errorf "read failed") |}).
  - reflexivity.
  - reflexivity.
Defined.

End PostTheorems.

(** ** Stopping the stdio transport *)

Section StopTheorems.
Import strings transport.

Lemma stop_when_shut_down (a : Answers) (t : StdioTransport) :
  shutdownCh t = true -> Stop a t = (t, [], Ok ()).
Proof. intros H. unfold Stop. by rewrite H. Qed.

(** C8: whatever the first call to [Stop] did, it leaves the shutdown
    channel closed and returns no error; a second call then sees the closed
    channel and returns at once, with no error, no effect (no monitor stop,
    no proxy stop, no stdin close, no container stop) and the transport
    unchanged. *)
Theorem stop_idempotent (a1 a2 : Answers) (t : StdioTransport) :
  let '(t1, _, r1) := Stop a1 t in
  shutdownCh t1 = true /\ r1 = Ok () /\ Stop a2 t1 = (t1, [], Ok ()).
Proof.
  destruct (Stop a1 t) as [[t1 effects1] r1] eqn:H1.
  assert (shutdownCh t1 = true /\ r1 = Ok ()) as [Hshut Hr].
  { unfold Stop in H1. destruct (shutdownCh t) eqn:Hs; by simplify_eq. }
  split; [done|]. split; [done|]. by apply stop_when_shut_down.
Qed.

(** A first stop of a running transport tears everything down once; the
    second stop does nothing. *)
Example stop_twice :
  let a := {| proxyStop := Ok (); stdinClose := Ok (); isContainerRunning := Ok true;
              stopContainer := Ok (); removeContainer := Ok () |} in
  let t := {| containerID := "abc123"; containerName := "fetch"; runtime := true;
              debug := false; shutdownCh := false; httpProxy := true; stdin := true;
              monitor := true |} in
  snd (fst (Stop a t))
  = [CloseShutdownCh; StopMonitoring; ProxyStop; StdinClose;
     IsContainerRunning "abc123"; StopContainer "abc123"]
  /\ Stop a (fst (fst (Stop a t))) = (fst (fst (Stop a t)), [], Ok ()).
Proof. split; reflexivity. Qed.

(** The earlier revision of [Stop] has no such check: a second call panics
    on closing the closed channel. *)
Lemma legacy_stop_twice_panics (a : Answers) (t : StdioTransport) :
  shutdownCh t = true -> legacy.Stop a t = (t, [], Panic "close of closed channel").
Proof. intros H. unfold legacy.Stop. by rewrite H. Qed.

End StopTheorems.

(** ** Recovery of dirty container output *)

Section Recovery.
Import strings httpsse transport.
Context (IsPrint : rune -> bool).

Lemma hasBinaryData_fold (line : list rune) (b : bool) :
  fold_left (fun hasBinaryData c =>
               if negb (IsPrint c) && negb (isSpace c) then true else hasBinaryData)
            line b
  = b || existsb (fun c => negb (IsPrint c) && negb (isSpace c)) line.
Proof.
  revert b. induction line as [|c line IH]; intros b; cbn [fold_left existsb].
  - by rewrite orb_false_r.
  - rewrite IH. destruct (negb (IsPrint c) && negb (isSpace c)), b; done.
Qed.

Lemma hasBinaryData_existsb (line : list rune) :
  hasBinaryData IsPrint line
  = existsb (fun c => negb (IsPrint c) && negb (isSpace c)) line.
Proof. unfold hasBinaryData. by rewrite hasBinaryData_fold. Qed.

Lemma Index_nonneg_or_none (input : list rune) (c : rune) :
  Index input c = -1 \/ 0 <= Index input c.
Proof.
  induction input as [|r input IH]; cbn [Index]; [by left|].
  destruct (r =? c); [right; lia|].
  destruct (Z.eqb_spec (Index input c) (-1)); [by left|right; lia].
Qed.

Lemma Index_first (g rest : list rune) (c : rune) :
  c ∉ g -> Index (g ++ c :: rest) c = Z.of_nat (length g).
Proof.
  induction g as [|r g IH]; intros Hg; cbn [Index app length].
  - by rewrite Z.eqb_refl.
  - apply not_elem_of_cons in Hg as [Hr Hg].
    destruct (Z.eqb_spec r c); [congruence|].
    rewrite (IH Hg). destruct (Z.eqb_spec (Z.of_nat (length g)) (-1)); lia.
Qed.

Lemma LastIndex_none (g : list rune) (c : rune) : c ∉ g -> LastIndex g c = -1.
Proof.
  induction g as [|r g IH]; intros Hg; cbn [LastIndex]; [done|].
  apply not_elem_of_cons in Hg as [Hr Hg]. rewrite (IH Hg). cbn.
  destruct (Z.eqb_spec r c); [congruence|done].
Qed.

Lemma LastIndex_last (pre g : list rune) (c : rune) :
  c ∉ g -> LastIndex (pre ++ c :: g) c = Z.of_nat (length pre).
Proof.
  intros Hg. induction pre as [|r pre IH]; cbn [LastIndex app length].
  - rewrite (LastIndex_none _ _ Hg). cbn. by rewrite Z.eqb_refl.
  - rewrite IH. destruct (Z.eqb_spec (Z.of_nat (length pre)) (-1)); lia.
Qed.

Lemma keep_fold_filter (l acc : list rune) :
  fold_left (fun buffer r => if IsPrint r || isSpace r then buffer ++ [r] else buffer) l acc
  = acc ++ List.filter (fun r => IsPrint r || isSpace r) l.
Proof.
  revert acc. induction l as [|r l IH]; intros acc; cbn [fold_left List.filter].
  - by rewrite app_nil_r.
  - rewrite IH. destruct (IsPrint r || isSpace r); [|done]. by rewrite <- app_assoc.
Qed.

Lemma filter_all (f : rune -> bool) (l : list rune) :
  Forall (fun r => f r = true) l -> List.filter f l = l.
Proof.
  induction 1 as [|r l Hr _ IH]; cbn [List.filter]; [done|]. by rewrite Hr, IH.
Qed.

Lemma filter_all_inv (f : rune -> bool) (l : list rune) :
  List.filter f l = l -> Forall (fun r => f r = true) l.
Proof.
  intros Heq. rewrite <- Heq. clear Heq.
  induction l as [|r l IH]; cbn [List.filter]; [constructor|].
  destruct (f r) eqn:Hr; [by constructor|done].
Qed.

(** The recovery cuts out the text from the first opening brace to the
    last closing brace, and keeps its printable runes, spaces and line
    feeds. *)
Lemma sanitize_cut_and_filter (g1 body g2 : list rune) :
  let json := openBrace :: body ++ [closeBrace] in
  openBrace ∉ g1 -> closeBrace ∉ g2 ->
  sanitizeBinaryString IsPrint (g1 ++ json ++ g2)
  = List.filter (fun r => IsPrint r || isSpace r) json.
Proof.
  intros json H1 H2. unfold sanitizeBinaryString.
  assert (Index (g1 ++ json ++ g2) openBrace = Z.of_nat (length g1)) as ->
    by (subst json; cbn [app]; by apply Index_first).
  assert (LastIndex (g1 ++ json ++ g2) closeBrace
          = Z.of_nat (length (g1 ++ openBrace :: body))) as ->.
  { rewrite <- (LastIndex_last (g1 ++ openBrace :: body) g2 closeBrace H2).
    f_equal. subst json. cbn [app]. by rewrite <- !app_assoc. }
  rewrite length_app. cbn [length].
  destruct (Z.eqb_spec (Z.of_nat (length g1)) (-1)); [lia|].
  destruct (Z.eqb_spec (Z.of_nat (length g1 + S (length body))) (-1)); [lia|].
  destruct (Z.ltb_spec (Z.of_nat (length g1 + S (length body))) (Z.of_nat (length g1)));
    [lia|]. cbn [orb].
  assert (slice (g1 ++ json ++ g2) (Z.of_nat (length g1))
            (Z.of_nat (length g1 + S (length body)) + 1) = json) as ->.
  { unfold slice. rewrite Nat2Z.id, drop_app_length.
    replace (Z.to_nat _) with (length json)
      by (subst json; cbn [length]; rewrite length_app; cbn [length]; lia).
    by rewrite take_app_length. }
  by rewrite keep_fold_filter.
Qed.

(** The recovery cuts out exactly the object between garbage that holds no
    opening brace before it and no closing brace after it. *)
Lemma sanitize_between_garbage (g1 body g2 : list rune) :
  let json := openBrace :: body ++ [closeBrace] in
  openBrace ∉ g1 -> closeBrace ∉ g2 ->
  Forall (fun r => IsPrint r || isSpace r = true) json ->
  sanitizeBinaryString IsPrint (g1 ++ json ++ g2) = json.
Proof.
  intros json H1 H2 Hp. subst json.
  rewrite sanitize_cut_and_filter by done. by apply filter_all.
Qed.

End Recovery.

Section RecoveryTheorems.
Import strings httpsse transport.

(** C1 as stated fails in four ways. When the garbage is printable no
    recovery is attempted: the decoder is handed the whole line, garbage
    included, and a decoder that rejects it makes the bridge drop the line.
    When the garbage after the object holds a closing brace (here the bell
    character 7 and a brace), or the garbage before it an opening brace,
    the recovery cuts too far and hands over the object with that brace
    attached. And when the object itself holds a rune that is not
    printable (here the delete character 127 inside a string, between the
    quotes 34), the decoder is handed another object: the one without
    that rune. *)
Lemma printable_garbage_not_recovered :
  let line := runes "log: {}" in
  let line2 := runes "{}" ++ [7] ++ runes "}" in
  let line3 := runes "{" ++ [7] ++ runes "{}" in
  let object := runes "{" ++ [34] ++ runes "k" ++ [34] ++ runes ":" ++ [34]
                ++ runes "a" ++ [127] ++ runes "b" ++ [34] ++ runes "}" in
  hasBinaryData asciiIsPrint line = false
  /\ jsonData asciiIsPrint line = line
  /\ jsonData asciiIsPrint line <> runes "{}"
  /\ (forall (Msg : Type) (decode : list rune -> result Msg) (encode : Msg -> result string)
             (p : HTTPSSEProxy (Msg:=Msg)) (e : error),
        decode line = Error e ->
        parseAndForwardJSONRPC asciiIsPrint decode encode p line = p)
  /\ hasBinaryData asciiIsPrint line2 = true
  /\ jsonData asciiIsPrint line2 = runes "{}}"
  /\ jsonData asciiIsPrint line2 <> runes "{}"
  /\ hasBinaryData asciiIsPrint line3 = true
  /\ jsonData asciiIsPrint line3 = runes "{{}"
  /\ jsonData asciiIsPrint line3 <> runes "{}"
  /\ hasBinaryData asciiIsPrint object = true
  /\ jsonData asciiIsPrint object
     = runes "{" ++ [34] ++ runes "k" ++ [34] ++ runes ":" ++ [34]
       ++ runes "ab" ++ [34] ++ runes "}"
  /\ jsonData asciiIsPrint object <> object.
Proof.
  split; [reflexivity|]. split; [reflexivity|]. split; [discriminate|].
  split; [|repeat split; try reflexivity; discriminate].
  intros Msg decode encode p e Hd. unfold parseAndForwardJSONRPC.
  change (jsonData asciiIsPrint (runes "log: {}")) with (runes "log: {}").
  by rewrite Hd.
Qed.

(** C1, amended: recovery is attempted exactly when the line holds a rune
    that is neither printable nor a space nor a line feed. For a line
    <garbage>{json}<garbage> that holds such a rune, whose leading garbage
    holds no opening brace and whose trailing garbage holds no closing
    brace, the decoder is handed the object with every rune removed that
    is neither printable nor a space nor a line feed: the object itself
    exactly when it holds no such rune. When what is handed over decodes,
    the message is forwarded to the clients and sent to the response
    channel. *)
Theorem dirty_line_recovery (IsPrint : rune -> bool) {Msg : Type}
    (DecodeMessage : list rune -> result Msg) (EncodeMessage : Msg -> result string)
    (p : HTTPSSEProxy (Msg:=Msg)) (g1 body g2 : list rune) (msg : Msg) :
  let json := openBrace :: body ++ [closeBrace] in
  let line := g1 ++ json ++ g2 in
  let kept := List.filter (fun r => IsPrint r || isSpace r) json in
  openBrace ∉ g1 -> closeBrace ∉ g2 ->
  Exists (fun r => IsPrint r = false /\ r <> 32 /\ r <> 10) line ->
  DecodeMessage kept = Ok msg ->
  (forall l, hasBinaryData IsPrint l = true
             <-> Exists (fun r => IsPrint r = false /\ r <> 32 /\ r <> 10) l)
  /\ (forall l, jsonData IsPrint l
                = if hasBinaryData IsPrint l then sanitizeBinaryString IsPrint l else l)
  /\ jsonData IsPrint line = kept
  /\ (jsonData IsPrint line = json
      <-> Forall (fun r => IsPrint r || isSpace r = true) json)
  /\ parseAndForwardJSONRPC IsPrint DecodeMessage EncodeMessage p line
     = fst (SendResponseMessage (fst (ForwardResponseToClients EncodeMessage p msg)) msg).
Proof.
  intros json line kept H1 H2 Hbin Hdec.
  assert (forall l, hasBinaryData IsPrint l = true
                    <-> Exists (fun r => IsPrint r = false /\ r <> 32 /\ r <> 10) l) as Hiff.
  { intros l. rewrite hasBinaryData_existsb, existsb_exists, Exists_exists.
    split; intros (r & Hin & Hr); exists r.
    - apply list_elem_of_In in Hin. split; [done|].
      apply andb_true_iff in Hr as [Hr1 Hr2].
      apply negb_true_iff in Hr1. apply negb_true_iff in Hr2.
      unfold isSpace in Hr2. apply orb_false_iff in Hr2 as [?%Z.eqb_neq ?%Z.eqb_neq].
      done.
    - apply list_elem_of_In in Hin. split; [done|].
      destruct Hr as (Hr1 & Hr2 & Hr3). rewrite Hr1. unfold isSpace.
      apply Z.eqb_neq in Hr2. apply Z.eqb_neq in Hr3. by rewrite Hr2, Hr3. }
  assert (jsonData IsPrint line = kept) as Hjson.
  { unfold jsonData, sanitizeJSONString.
    apply Hiff in Hbin. rewrite Hbin. by apply sanitize_cut_and_filter. }
  split; [exact Hiff|]. split; [done|]. split; [exact Hjson|]. split.
  - rewrite Hjson. split; [apply filter_all_inv|apply filter_all].
  - unfold parseAndForwardJSONRPC. rewrite Hjson, Hdec.
    destruct (ForwardResponseToClients _ _ _) as [p1 r1]. cbn [fst].
    by destruct (SendResponseMessage _ _) as [p2 r2].
Qed.

(** A line with an escape sequence before the object and a bell inside
    it: the object is handed over without the bell. *)
Lemma dirty_line_recovery_witness :
  jsonData asciiIsPrint ([27; 91] ++ runes "0m {" ++ [7] ++ runes "}" ++ [7; 13])
  = runes "{}".
Proof.
  pose proof (dirty_line_recovery asciiIsPrint
                (fun l => Ok l) (fun m : list rune => Ok "{}")
                NewHTTPSSEProxy ([27; 91] ++ runes "0m ") [7] [7; 13] (runes "{}")) as H.
  cbv zeta in H.
  destruct H as (_ & _ & H & _).
  - vm_compute. intros Hin. repeat (apply elem_of_cons in Hin as [Hin|Hin]; [done|]).
    by apply elem_of_nil in Hin.
  - vm_compute. intros Hin. repeat (apply elem_of_cons in Hin as [Hin|Hin]; [done|]).
    by apply elem_of_nil in Hin.
  - apply Exists_cons_hd. by vm_compute.
  - reflexivity.
  - exact H.
Defined.

(** The earlier revision of the recovery also removes the spaces inside
    string literals, so it does not always hand over the object as it is:
    here the object is {"a b"}, with the quotes 34. *)
Lemma legacy_recovery_strips_spaces :
  legacy.jsonData asciiIsPrint legacy.asciiIsSpace
    ([1] ++ runes "{" ++ [34] ++ runes "a b" ++ [34] ++ runes "}")
  = runes "{" ++ [34] ++ runes "ab" ++ [34] ++ runes "}".
Proof. reflexivity. Qed.

End RecoveryTheorems.

(** ** Overlapping calls to Stop *)

Section ConcurrentStop.
Import strings transport.
Context (a : Answers) (t0 : StdioTransport).

(** [Stop] on an open transport is the close followed by the teardown. *)
Lemma Stop_open (t : StdioTransport) :
  shutdownCh t = false ->
  Stop a t = (fst (teardown a (closeShutdown t)),
              CloseShutdownCh :: snd (teardown a (closeShutdown t)), Ok ()).
Proof.
  intros Hs. destruct t as [cid cname rt dbg sh prx sin mon]. cbn in Hs. subst sh.
  unfold Stop, teardown, closeShutdown;
    cbn [shutdownCh monitor httpProxy stdin runtime containerID containerName debug fst snd].
  destruct mon, prx, sin, (rt && negb (String.eqb cid "")); cbn [app];
    try destruct (isContainerRunning a) as [[]| |]; reflexivity.
Qed.

(** A call that runs alone goes through [Stop]. *)
Lemma run_alone :
  run a [0; 0; 0; 0; 0]%nat (calling 1 t0)
  = ([Returned], {| transportOf := fst (fst (Stop a t0)); mutex := false;
                    effectsOf := snd (fst (Stop a t0)) |}).
Proof.
  destruct (shutdownCh t0) eqn:Hs.
  - unfold Stop. rewrite Hs. unfold run, calling. cbn [fold_left replicate fst snd].
    unfold step at 5. cbn [fst snd lookup list_lookup stepCall transportOf].
    rewrite Hs. cbn [insert list_insert].
    by repeat (unfold step at 1; cbn [fst snd lookup list_lookup stepCall insert list_insert]).
  - rewrite (Stop_open _ Hs). unfold run, calling. cbn [fold_left replicate fst snd].
    unfold step at 5. cbn [fst snd lookup list_lookup stepCall transportOf mutex].
    rewrite Hs. cbn [insert list_insert].
    unfold step at 4. cbn [fst snd lookup list_lookup stepCall transportOf mutex
                           insert list_insert].
    unfold step at 3. cbn [fst snd lookup list_lookup stepCall transportOf mutex
                           insert list_insert].
    rewrite Hs.
    unfold step at 2. cbn [fst snd lookup list_lookup stepCall transportOf mutex
                           insert list_insert].
    rewrite Hs.
    unfold step at 1. cbn [fst snd lookup list_lookup stepCall transportOf mutex effectsOf
                           insert list_insert].
    by destruct (teardown a (closeShutdown t0)).
Qed.

(** A call that does not newly take the mutex keeps the exclusion. *)
Lemma exclusive_insert (pcs : list pc) (i : nat) (p p' : pc) :
  pcs !! i = Some p -> exclusive pcs ->
  (holdsMutex p' = true -> holdsMutex p = true) ->
  exclusive (<[i := p']> pcs).
Proof.
  intros Hi Hex Hp j k q r Hj Hk Hq Hr.
  apply list_lookup_insert_Some in Hj as [(Hij & Hq' & _)|(Hij & Hj)];
    apply list_lookup_insert_Some in Hk as [(Hik & Hr' & _)|(Hik & Hk)].
  - congruence.
  - subst. exfalso. apply Hik. eapply (Hex j k); eauto.
  - subst. exfalso. apply Hij. eapply (Hex k j); eauto.
  - eapply Hex; eauto.
Qed.

(** A call that takes the free mutex is the only one to hold it. *)
Lemma exclusive_acquire (pcs : list pc) (i : nat) (p' : pc) :
  Forall (fun p => holdsMutex p = false) pcs -> exclusive (<[i := p']> pcs).
Proof.
  intros Hfree j k q r Hj Hk Hq Hr.
  apply list_lookup_insert_Some in Hj as [(Hij & Hq' & _)|(Hij & Hj)];
    apply list_lookup_insert_Some in Hk as [(Hik & Hr' & _)|(Hik & Hk)].
  - congruence.
  - eapply Forall_lookup_1 in Hfree; [|exact Hk]. congruence.
  - eapply Forall_lookup_1 in Hfree; [|exact Hj]. congruence.
  - eapply Forall_lookup_1 in Hfree; [|exact Hj]. congruence.
Qed.

(** When the holder of the mutex moves on, the other calls hold nothing. *)
Lemma Forall_insert_holder (pcs : list pc) (i : nat) (p p' : pc) (P P' : pc -> Prop) :
  pcs !! i = Some p -> holdsMutex p = true -> exclusive pcs ->
  Forall P pcs ->
  (forall q, P q -> holdsMutex q = false -> P' q) -> P' p' ->
  Forall P' (<[i := p']> pcs).
Proof.
  intros Hi Hp Hex HP Himp Hp'. apply Forall_lookup_2. intros j q Hj.
  apply list_lookup_insert_Some in Hj as [(_ & <- & _)|(Hij & Hj)]; [done|].
  apply Himp; [by eapply Forall_lookup_1 in HP|].
  destruct (holdsMutex q) eqn:Hq; [|done].
  exfalso. apply Hij. eapply (Hex i j); eauto.
Qed.

Hypothesis Hopen : shutdownCh t0 = false.

Lemma step_invariant (st : list pc * Shared) (i : nat) :
  phase a t0 st /\ exclusion st -> phase a t0 (step a st i) /\ exclusion (step a st i).
Proof.
  destruct st as [pcs s]. intros [Hphase [Hex Hfree]].
  fold (exclusive pcs) in Hex.
  unfold step. cbn [fst snd].
  destruct (pcs !! i) as [p|] eqn:Hi; [|by repeat split].
  assert (holdsMutex p = true -> mutex s = true) as Hheld.
  { intros Hp. destruct (mutex s) eqn:Hm; [done|].
    specialize (Hfree eq_refl). eapply Forall_lookup_1 in Hfree; [|exact Hi]. congruence. }
  assert (forall P : pc -> Prop, Forall P pcs -> P p) as Hat
    by (intros P HP; by eapply Forall_lookup_1 in HP).
  destruct Hphase as [(Ht & He & Hpcs)|[(Ht & He & Hm & Hpcs & Htd)|(Ht & He & Hpcs)]].
  - (* still open *)
    assert (shutdownCh (transportOf s) = false) as Hs by (by rewrite Ht).
    pose proof (Hat _ Hpcs) as [->|[->|[->| ->]]]; cbn [stepCall]; rewrite ?Hs.
    + (* first look: open *)
      split; [left; repeat split; [done..|apply Forall_insert; auto]|].
      split; [by eapply exclusive_insert|].
      intros Hm. apply Forall_insert; auto.
    + (* waiting for the mutex *)
      destruct (mutex s) eqn:Hm.
      * rewrite list_insert_id by done. split; [left; by repeat split|].
        split; [done|intros; congruence].
      * split; [left; repeat split; [done..|apply Forall_insert; auto]|].
        cbn [mutex]. split; [|done]. by apply exclusive_acquire, Hfree.
    + (* second look: open *)
      split; [left; repeat split; [done..|apply Forall_insert; auto]|].
      split; [by eapply exclusive_insert|].
      intros Hm. rewrite Hheld in Hm; done.
    + (* the close *)
      assert (mutex s = true) as Hm by (by apply Hheld).
      split.
      * right; left. cbn [transportOf effectsOf mutex]. rewrite Ht, He.
        repeat split; [done| |].
        -- eapply (Forall_insert_holder pcs i Closing); eauto.
           intros q [->|[->|[->| ->]]] Hq; auto; done.
        -- apply Exists_exists. exists TearDown. split; [|done].
           apply list_elem_of_lookup. exists i. apply list_lookup_insert_eq.
           by eapply lookup_lt_Some.
      * split; [by eapply exclusive_insert|]. cbn [mutex]. intros; congruence.
  - (* closed, one call tears down *)
    assert (shutdownCh (transportOf s) = true) as Hs by (by rewrite Ht).
    pose proof (Hat _ Hpcs) as [->|[->|[->| ->]]]; cbn [stepCall]; rewrite ?Hs, ?Hm.
    + (* first look: closed *)
      split; [|split; [by eapply exclusive_insert|intros; congruence]].
      right; left. repeat split; [done..|apply Forall_insert; auto|].
      apply Exists_exists in Htd as (q & Hq & ->).
      apply list_elem_of_lookup in Hq as [j Hj].
      apply Exists_exists. exists TearDown. split; [|done].
      apply list_elem_of_lookup. exists j. rewrite list_lookup_insert_ne; [done|].
      intros ->. congruence.
    + (* waiting for the mutex, which is held *)
      rewrite list_insert_id by done. split; [right; left; by repeat split|].
      split; [done|intros; congruence].
    + (* the teardown *)
      rewrite Ht. destruct (teardown a (closeShutdown t0)) as [t effects] eqn:Htear.
      split.
      * right; right. cbn [transportOf effectsOf]. rewrite He, Htear. cbn [fst snd].
        repeat split.
        eapply (Forall_insert_holder pcs i TearDown); eauto.
        intros q [->|[->|[->| ->]]] Hq; auto; done.
      * split; [by eapply exclusive_insert|]. intros _.
        eapply (Forall_insert_holder pcs i TearDown _ (fun _ => True)); eauto.
        by apply Forall_true.
    + (* returned *)
      rewrite list_insert_id by done. split; [right; left; by repeat split|].
      split; [done|intros; congruence].
  - (* torn down *)
    assert (shutdownCh (transportOf s) = true) as Hs by (by rewrite Ht).
    pose proof (Hat _ Hpcs) as [->|[->|[->| ->]]]; cbn [stepCall]; rewrite ?Hs.
    + (* first look: closed *)
      split; [right; right; repeat split; [done..|apply Forall_insert; auto]|].
      split; [by eapply exclusive_insert|].
      intros Hm. apply Forall_insert; auto.
    + (* waiting for the mutex *)
      destruct (mutex s) eqn:Hm.
      * rewrite list_insert_id by done. split; [right; right; by repeat split|].
        split; [done|intros; congruence].
      * split; [right; right; repeat split; [done..|apply Forall_insert; auto]|].
        cbn [mutex]. split; [|done]. by apply exclusive_acquire, Hfree.
    + (* second look: closed, the mutex is released *)
      split; [right; right; repeat split; [done..|apply Forall_insert; auto]|].
      split; [by eapply exclusive_insert|]. cbn [mutex]. intros _.
      eapply (Forall_insert_holder pcs i Locked _ (fun _ => True)); eauto.
      by apply Forall_true.
    + (* returned *)
      rewrite list_insert_id by done. split; [right; right; by repeat split|].
      by split.
Qed.

Lemma run_invariant (schedule : list nat) (st : list pc * Shared) :
  phase a t0 st /\ exclusion st -> phase a t0 (run a schedule st) /\ exclusion (run a schedule st).
Proof.
  revert st. induction schedule as [|i schedule IH]; intros st H; [done|].
  cbn [run fold_left]. apply IH. by apply step_invariant.
Qed.

Lemma calling_invariant (n : nat) : phase a t0 (calling n t0) /\ exclusion (calling n t0).
Proof.
  unfold calling, phase, exclusion. split; [left|]; repeat split.
  - apply Forall_replicate. by left.
  - intros i j p q [-> _]%lookup_replicate. done.
  - intros _. by apply Forall_replicate.
Qed.

(** X28: However [n] calls to [Stop] on an open transport are interleaved, no
    call panics, the effects so far are a prefix of those of a single stop,
    so that nothing is torn down twice, and once a call has returned the
    teardown is complete. *)
Theorem overlapping_stops_tear_down_once (n : nat) (schedule : list nat) :
  let '(pcs, s) := run a schedule (calling n t0) in
  Forall (fun p => p <> Panicked) pcs
  /\ effectsOf s `prefix_of` snd (fst (Stop a t0))
  /\ (Exists (fun p => p = Returned) pcs ->
      Forall (fun p => p <> TearDown) pcs ->
      effectsOf s = snd (fst (Stop a t0)) /\ transportOf s = fst (fst (Stop a t0))).
Proof.
  pose proof (run_invariant schedule _ (calling_invariant n)) as [Hphase _].
  destruct (run a schedule (calling n t0)) as [pcs s].
  pose proof (Stop_open _ Hopen) as HStop.
  rewrite HStop. cbn [fst snd].
  destruct Hphase as [(Ht & He & Hpcs)|[(Ht & He & Hm & Hpcs & Htd)|(Ht & He & Hpcs)]].
  - split; [eapply Forall_impl; [exact Hpcs|]; intros p [->|[->|[->| ->]]]; done|].
    split; [rewrite He; apply prefix_nil|].
    intros Hret _. exfalso. apply Exists_exists in Hret as (p & Hp & ->).
    rewrite Forall_forall in Hpcs. by destruct (Hpcs _ Hp) as [?|[?|[?|?]]].
  - split; [eapply Forall_impl; [exact Hpcs|]; intros p [->|[->|[->| ->]]]; done|].
    split; [rewrite He; by apply prefix_cons, prefix_nil|].
    intros _ Hnt. exfalso. apply Exists_exists in Htd as (p & Hp & ->).
    rewrite Forall_forall in Hnt. by apply (Hnt _ Hp).
  - split; [eapply Forall_impl; [exact Hpcs|]; intros p [->|[->|[->| ->]]]; done|].
    split; [by rewrite He|]. by intros _ _.
Qed.

End ConcurrentStop.

Section ConcurrentStopExample.
Import strings transport.

(** Two calls that both pass the first look before either takes the mutex:
    the first tears down, the second finds the channel closed at its second
    look and returns. *)
Example two_overlapping_stops :
  let a := {| proxyStop := Ok (); stdinClose := Ok (); isContainerRunning := Ok true;
              stopContainer := Ok (); removeContainer := Ok () |} in
  let t := {| containerID := "abc123"; containerName := "fetch"; runtime := true;
              debug := false; shutdownCh := false; httpProxy := true; stdin := true;
              monitor := true |} in
  let '(pcs, s) := run a [0; 1; 0; 1; 0; 0; 0; 1; 1]%nat (calling 2 t) in
  pcs = [Returned; Returned]
  /\ effectsOf s = [CloseShutdownCh; StopMonitoring; ProxyStop; StdinClose;
                    IsContainerRunning "abc123"; StopContainer "abc123"]
  /\ mutex s = false.
Proof. vm_compute. done. Qed.

End ConcurrentStopExample.
(** ** More on the egress proxy ACL document *)

Section SquidDocument.
Import strings docker squid.
Context {U : UnicodeTables}.

(** The allow-all document, line by line. *)
Lemma squidConfText_allow_all_lines (np : option NetworkPermissions) (host : string)
    (ports : list string) :
  match np with
  | None => true
  | Some np => match Outbound np with Some o => InsecureAllowAll o | None => false end
  end = true ->
  squidConfText np host ports
  = Ok (unlines (headerLines host ++ ["# Allow all traffic"; "http_access allow all"]
                 ++ ingressLines host ports ++ ["http_access deny all"])).
Proof.
  intros Hb. unfold squidConfText.
  destruct np as [np|]; [rewrite Hb|];
    rewrite writeIngressProxyConfig_lines; unfold WriteString;
    rewrite squidConfHeader_lines; f_equal;
    repeat (rewrite ?unlines_app; cbn [unlines app]);
    by rewrite ?string_app_assoc, ?string_app_nil_r.
Qed.

(** Every document that is produced is made of the header, a body, the
    reverse proxy set-up of the ingress ports and the closing rule. *)
Lemma squidConfText_shape (np : option NetworkPermissions) (host : string)
    (ports : list string) (text : string) :
  squidConfText np host ports = Ok text ->
  exists body, text = unlines (headerLines host ++ body ++ ingressLines host ports
                               ++ ["http_access deny all"]).
Proof.
  intros Ht.
  destruct np as [[[o|]]|].
  - destruct (InsecureAllowAll o) eqn:Hins.
    + rewrite squidConfText_allow_all_lines in Ht by (cbn; exact Hins).
      injection Ht as <-. by exists ["# Allow all traffic"; "http_access allow all"].
    + rewrite squidConfText_restricted in Ht by exact Hins.
      exists (portsLines o ++ dstsLines o ++ rulesLines o).
      injection Ht as <-. unfold restrictedLines. by rewrite <- !app_assoc.
  - discriminate Ht.
  - rewrite squidConfText_allow_all_lines in Ht by done.
    injection Ht as <-. by exists ["# Allow all traffic"; "http_access allow all"].
Qed.

Lemma createTempSquidConf_Ok (fs : TempFileSystem) (np : option NetworkPermissions)
    (host : string) (ports : list string) (name text : string) :
  createTempSquidConf fs np host ports = Ok (name, text) ->
  squidConfText np host ports = Ok text /\ CreateTemp fs = Ok name
  /\ FileWrite fs text = true.
Proof.
  unfold createTempSquidConf.
  destruct (squidConfText np host ports) as [t| |]; [|done..].
  destruct (CreateTemp fs) as [n| |]; [|done..].
  destruct (FileWrite fs t) eqn:Hw; [|done].
  intros [= <- <-]. done.
Qed.

(** The lines of a text that starts with whole lines end with the lines of
    what follows them. *)
Lemma lines_unlines_pre (ls : list string) :
  exists pre, forall rest, lines (unlines ls +:+ rest) = pre ++ lines rest.
Proof.
  induction ls as [|l ls [pre IH]].
  - exists []. reflexivity.
  - exists (lines l ++ pre). intros rest. cbn [unlines].
    rewrite !string_app_assoc, lines_app_nl, IH. by rewrite app_assoc.
Qed.

Lemma lines_unlines_around (l1 mid l2 : list string) :
  Forall (fun l => singleLine l = true) mid ->
  exists before after,
    lines (unlines (l1 ++ mid ++ l2)) = before ++ mid ++ after
    /\ after = lines (unlines l2).
Proof.
  intros Hmid. destruct (lines_unlines_pre l1) as [pre Hpre].
  exists pre, (lines (unlines l2)). split; [|done].
  by rewrite !unlines_app, Hpre, lines_unlines_app.
Qed.

Lemma ingressBlock_singleLine (host port : string) :
  singleLine host = true -> singleLine port = true ->
  Forall (fun l => singleLine l = true) (ingressBlock host port).
Proof.
  intros Hh Hp. apply singleLine_SplitFirst in Hp.
  unfold ingressBlock. repeat constructor; by rewrite ?singleLine_app, ?Hh, ?Hp.
Qed.

(** X1: Default deny: whatever the permissions, the server name and the ingress
    ports, a document that [createTempSquidConf] writes ends with the line
    [http_access deny all], and no [http_access] rule follows it. *)
Theorem deny_all_is_final_rule (fs : TempFileSystem) (np : option NetworkPermissions)
    (host : string) (ports : list string) (name text : string) :
  createTempSquidConf fs np host ports = Ok (name, text) ->
  finalRule text = Some "http_access deny all"
  /\ exists before, lines text = before ++ ["http_access deny all"; ""].
Proof.
  intros (Ht & _ & _)%createTempSquidConf_Ok.
  destruct (squidConfText_shape _ _ _ _ Ht) as [body ->].
  assert (exists before,
            lines (unlines (headerLines host ++ body ++ ingressLines host ports
                            ++ ["http_access deny all"]))
            = before ++ ["http_access deny all"; ""]) as [before Hl].
  { rewrite !app_assoc.
    destruct (lines_unlines_pre ((headerLines host ++ body) ++ ingressLines host ports))
      as [pre Hpre].
    exists pre. by rewrite unlines_app, Hpre. }
  split; [|by exists before].
  unfold finalRule. rewrite Hl, filter_app.
  change (filter _ ["http_access deny all"; ""]) with ["http_access deny all"].
  by rewrite last_snoc.
Qed.

(** X2: Every ingress port gets its reverse proxy set-up, whatever the outbound
    permissions: the five lines of the block for the port (with an empty
    line in front) are consecutive lines of the document, and the closing
    [http_access deny all] comes after them. The server name and the port
    are taken to hold no line feed. *)
Theorem ingress_block_for_every_port (fs : TempFileSystem)
    (np : option NetworkPermissions) (host : string) (ports : list string)
    (name text port : string) :
  createTempSquidConf fs np host ports = Ok (name, text) ->
  In port ports ->
  singleLine host = true -> singleLine port = true ->
  exists before after,
    lines text = before ++ ingressBlock host port ++ after
    /\ In "http_access deny all" after.
Proof.
  intros (Ht & _ & _)%createTempSquidConf_Ok Hin Hh Hp.
  destruct (squidConfText_shape _ _ _ _ Ht) as [body ->].
  apply in_split in Hin as (p1 & p2 & ->).
  unfold ingressLines. rewrite flat_map_app. cbn [flat_map].
  fold (ingressLines host p1). fold (ingressLines host p2).
  rewrite <- !app_assoc.
  rewrite (app_assoc (headerLines host)), (app_assoc _ (ingressLines host p1)).
  destruct (lines_unlines_around
              ((headerLines host ++ body) ++ ingressLines host p1)
              (ingressBlock host port)
              (ingressLines host p2 ++ ["http_access deny all"])
              (ingressBlock_singleLine _ _ Hh Hp)) as (before & after & Hl & Ha).
  exists before, after. split; [exact Hl|].
  subst after. destruct (lines_unlines_pre (ingressLines host p2)) as [pre Hpre].
  rewrite unlines_app, Hpre. apply in_or_app. right. by left.
Qed.

End SquidDocument.

Section SquidDocumentWitnesses.
Import strings docker squid.
Existing Instance asciiTables.

Lemma deny_all_is_final_rule_witness :
  finalRule (unlines (restrictedLines
                        {| InsecureAllowAll := false; AllowTransport := ["tcp"];
                           AllowHost := ["example.com"]; AllowPort := [443] |}
                        "fetch" ["8080/tcp"]))
  = Some "http_access deny all".
Proof.
  refine (proj1 (deny_all_is_final_rule
                   {| CreateTemp := Ok "/tmp/squid-1.conf"; FileWrite := fun _ => true |}
                   (Some {| Outbound := Some {| InsecureAllowAll := false;
                                                AllowTransport := ["tcp"];
                                                AllowHost := ["example.com"];
                                                AllowPort := [443] |} |})
                   "fetch" ["8080/tcp"] "/tmp/squid-1.conf" _ _)).
  vm_compute. reflexivity.
Defined.

Lemma ingress_block_for_every_port_witness :
  exists before after,
    lines (unlines (restrictedLines
                      {| InsecureAllowAll := false; AllowTransport := [];
                         AllowHost := ["example.com"]; AllowPort := [] |}
                      "fetch" ["8080/tcp"; "9090/tcp"]))
    = before ++ ingressBlock "fetch" "9090/tcp" ++ after
    /\ In "http_access deny all" after.
Proof.
  refine (ingress_block_for_every_port
            {| CreateTemp := Ok "/tmp/squid-1.conf"; FileWrite := fun _ => true |}
            (Some {| Outbound := Some {| InsecureAllowAll := false;
                                         AllowTransport := [];
                                         AllowHost := ["example.com"];
                                         AllowPort := [] |} |})
            "fetch" ["8080/tcp"; "9090/tcp"] "/tmp/squid-1.conf" _ "9090/tcp" _ _ _ _).
  - vm_compute. reflexivity.
  - right. by left.
  - reflexivity.
  - reflexivity.
Defined.

Lemma allow_all_document_witness :
  exists text,
    createTempSquidConf {| CreateTemp := Ok "/tmp/squid-1.conf"; FileWrite := fun _ => true |}
      None "fetch" ["8080/tcp"] = Ok ("/tmp/squid-1.conf", text)
    /\ hasLine text "http_access allow all".
Proof.
  apply (allow_all_document
           {| CreateTemp := Ok "/tmp/squid-1.conf"; FileWrite := fun _ => true |}
           "/tmp/squid-1.conf" None "fetch" ["8080/tcp"]).
  - reflexivity.
  - reflexivity.
  - by left.
Defined.

End SquidDocumentWitnesses.
(** ** More on the comparison of an existing container with the desired
    configuration *)

Section ComparePorts.
Import strings docker reconcile.

Lemma rangeAll_spec {A} (f : nat -> A -> bool) (k : nat) (l : list A) :
  rangeAll f k l = true <-> forall j x, l !! j = Some x -> f (k + j)%nat x = true.
Proof.
  revert k. induction l as [|y l IH]; intros k; cbn [rangeAll].
  - split; [intros _ j x Hj; by rewrite lookup_nil in Hj|done].
  - rewrite andb_true_iff, IH. split.
    + intros [Hy Hrest] [|j] x Hj; cbn in Hj.
      * simplify_eq. by rewrite Nat.add_0_r.
      * rewrite <- Nat.add_succ_comm. by apply Hrest.
    + intros H. split.
      * specialize (H 0%nat y eq_refl). by rewrite Nat.add_0_r in H.
      * intros j x Hj. rewrite Nat.add_succ_comm. by apply (H (S j)).
Qed.

(** The test that [comparePortConfig] makes on the bindings of one port
    holds exactly when the two lists of bindings are the same. *)
Lemma compareBindings_eq (existingBindings bindings : list PortBinding) :
  (length existingBindings =? length bindings)%nat
  && rangeAll (fun i binding =>
       match existingBindings !! i with
       | None => false
       | Some eb => String.eqb (HostIP eb) (HostIP binding)
                    && String.eqb (HostPort eb) (HostPort binding)
       end) 0 bindings = true
  <-> existingBindings = bindings.
Proof.
  rewrite andb_true_iff, Nat.eqb_eq, rangeAll_spec. split.
  - intros [Hlen H]. apply list_eq_same_length with (length bindings); [done..|].
    intros i x y _ Hx Hy. specialize (H i y Hy). cbn in H. rewrite Hx in H.
    apply andb_true_iff in H as [H1%String.eqb_eq H2%String.eqb_eq].
    destruct x, y; cbn in *; congruence.
  - intros ->. split; [done|]. intros j x Hj. cbn. rewrite Hj.
    by rewrite !String.eqb_refl.
Qed.

(** X5: The ports of an existing container match exactly when it exposes the
    same set of ports and binds the same ports to the same host addresses,
    in the same order: nothing more is tolerated on this dimension, unlike
    labels and environment. *)
Theorem comparePortConfig_eq (existing : InspectResponse) (desired : Config)
    (desiredHost : HostConfig) :
  comparePortConfig existing desired desiredHost = true <->
  ExposedPorts (ExistingConfig existing) = ExposedPorts desired
  /\ PortBindings (ExistingHostConfig existing) = PortBindings desiredHost.
Proof.
  unfold comparePortConfig.
  set (EPe := ExposedPorts (ExistingConfig existing)).
  set (EPd := ExposedPorts desired).
  set (PBe := PortBindings (ExistingHostConfig existing)).
  set (PBd := PortBindings desiredHost).
  split.
  - destruct (Nat.eqb_spec (size EPe) (size EPd)) as [Hs|]; cbn [negb]; [|done].
    destruct (bool_decide_reflect (set_Forall (fun port => port ∈ EPe) EPd)) as [Hsub|];
      cbn [negb]; [|done].
    destruct (Nat.eqb_spec (size PBe) (size PBd)) as [Hsb|]; cbn [negb]; [|done].
    intros Hb%bool_decide_eq_true. split.
    + symmetry. apply set_subseteq_size_eq; [exact Hsub|]. by rewrite Hs.
    + symmetry. apply map_subseteq_size_eq; [|by rewrite Hsb].
      apply map_subseteq_spec. intros port bindings Hport.
      specialize (Hb port bindings Hport). cbn in Hb.
      destruct (PBe !! port) as [eb|]; [|done].
      apply compareBindings_eq in Hb. by subst.
  - intros [-> ->].
    rewrite Nat.eqb_refl. cbn [negb].
    rewrite bool_decide_eq_true_2 by (by intros port Hport). cbn [negb].
    rewrite Nat.eqb_refl. cbn [negb].
    apply bool_decide_eq_true. intros port bindings Hport. cbn.
    rewrite Hport. by apply compareBindings_eq.
Qed.

End ComparePorts.

Section CompareMounts.
Import strings docker reconcile.

(** The map that [compareMounts] builds holds, under each target, the
    last existing mount with that target. *)
Lemma existingMountsMap_snoc (l : list DockerMount) (mt : DockerMount) :
  fold_left (fun m mt => <[MountTarget mt := mt]> m) (l ++ [mt]) (∅ : gmap string DockerMount)
  = <[MountTarget mt := mt]> (fold_left (fun m mt => <[MountTarget mt := mt]> m) l ∅).
Proof. by rewrite fold_left_app. Qed.

Lemma existingMountsMap_lookup (l : list DockerMount) (t : string) (e : DockerMount) :
  fold_left (fun m mt => <[MountTarget mt := mt]> m) l (∅ : gmap string DockerMount) !! t
  = Some e ->
  e ∈ l /\ MountTarget e = t.
Proof.
  induction l as [|mt l IH] using rev_ind.
  - cbn. by rewrite lookup_empty.
  - rewrite existingMountsMap_snoc.
    destruct (decide (MountTarget mt = t)) as [<-|Hne].
    + rewrite lookup_insert_eq. intros [= <-]. split; [|done].
      apply elem_of_app. right. by apply list_elem_of_singleton.
    + rewrite lookup_insert_ne by done. intros [Hin Ht]%IH. split; [|done].
      apply elem_of_app. by left.
Qed.

Lemma existingMountsMap_lookup_NoDup (l : list DockerMount) (e : DockerMount) :
  NoDup (MountTarget <$> l) -> e ∈ l ->
  fold_left (fun m mt => <[MountTarget mt := mt]> m) l (∅ : gmap string DockerMount)
    !! MountTarget e = Some e.
Proof.
  induction l as [|mt l IH] using rev_ind; intros Hnd Hin.
  - by apply elem_of_nil in Hin.
  - rewrite existingMountsMap_snoc.
    rewrite fmap_app in Hnd. apply NoDup_app in Hnd as (Hnd & Hdisj & _).
    apply elem_of_app in Hin as [Hin|Hin].
    + rewrite lookup_insert_ne; [by apply IH|].
      intros Heq. apply (Hdisj (MountTarget e)).
      * apply list_elem_of_fmap. by exists e.
      * rewrite <- Heq. cbn. by apply list_elem_of_singleton.
    + apply list_elem_of_singleton in Hin as ->. by rewrite lookup_insert_eq.
Qed.

(** X6: When the existing mounts have distinct targets, they match the desired
    ones exactly when there are as many of each and every desired mount has
    an existing mount with the same target, source and read-only flag: the
    order of the mounts and their type are not compared. *)
Theorem compareMounts_by_target (existing : InspectResponse) (desired : HostConfig) :
  NoDup (MountTarget <$> Mounts (ExistingHostConfig existing)) ->
  compareMounts existing desired = true <->
  length (Mounts (ExistingHostConfig existing)) = length (Mounts desired)
  /\ Forall (fun d => exists e, e ∈ Mounts (ExistingHostConfig existing)
                                /\ MountTarget e = MountTarget d
                                /\ MountSource e = MountSource d
                                /\ MountReadOnly e = MountReadOnly d)
            (Mounts desired).
Proof.
  intros Hnd. unfold compareMounts.
  destruct (Nat.eqb_spec (length (Mounts (ExistingHostConfig existing)))
                         (length (Mounts desired))) as [Hlen|Hlen]; cbn [negb].
  - rewrite forallb_forall, Forall_forall. split.
    + intros H. split; [done|]. intros d Hd%list_elem_of_In. specialize (H d Hd).
      destruct (_ !! MountTarget d) as [e|] eqn:He; [|done].
      apply existingMountsMap_lookup in He as [Hin Ht].
      apply andb_true_iff in H as [Hs%String.eqb_eq Hr%Bool.eqb_prop].
      by exists e.
    + intros [_ H] d Hd%list_elem_of_In. destruct (H d Hd) as (e & Hin & Ht & Hs & Hr).
      rewrite <- Ht, (existingMountsMap_lookup_NoDup _ e Hnd Hin).
      rewrite Hs, Hr, String.eqb_refl. by destruct (MountReadOnly d).
  - split; [done|]. by intros [? _].
Qed.

Lemma compareMounts_by_target_witness :
  compareMounts
    {| InspectName := "/fetch"; Running := true;
       ExistingConfig := fake.fetchConfig;
       ExistingHostConfig :=
         {| Mounts := [{| MountType := "bind"; MountSource := "/a"; MountTarget := "/data";
                          MountReadOnly := true |};
                       {| MountType := "bind"; MountSource := "/b"; MountTarget := "/work";
                          MountReadOnly := false |}];
            NetworkMode := "none"; CapAdd := []; CapDrop := ["ALL"]; SecurityOpt := [];
            RestartPolicy := "unless-stopped"; PortBindings := ∅; DNS := [] |};
       Networks := ∅ |}
    {| Mounts := [{| MountType := "volume"; MountSource := "/b"; MountTarget := "/work";
                     MountReadOnly := false |};
                  {| MountType := "bind"; MountSource := "/a"; MountTarget := "/data";
                     MountReadOnly := true |}];
       NetworkMode := "none"; CapAdd := []; CapDrop := ["ALL"]; SecurityOpt := [];
       RestartPolicy := "unless-stopped"; PortBindings := ∅; DNS := [] |}
  = true.
Proof.
  apply compareMounts_by_target.
  - cbn. apply NoDup_cons. split; [|apply NoDup_singleton].
    intros Hin%list_elem_of_singleton. discriminate Hin.
  - split; [reflexivity|]. cbn. repeat constructor.
    + eexists. split; [apply list_elem_of_In; right; left; reflexivity|done].
    + eexists. split; [apply list_elem_of_In; left; reflexivity|done].
Defined.

End CompareMounts.

Section CompareEnv.
Import strings docker reconcile client.

(** A key without an equals sign is cut off its value again. *)
Lemma cutEquals_join (k v : string) :
  ~ In "="%char (String.list_ascii_of_string k) ->
  cutEquals (k +:+ "=" +:+ v) = Some (k, v).
Proof.
  induction k as [|c k IH]; intros Hk; [reflexivity|].
  rewrite string_app_cons. cbn [cutEquals].
  cbn [String.list_ascii_of_string] in Hk.
  destruct (Ascii.eqb_spec c "=") as [->|_]; [exfalso; apply Hk; by left|].
  rewrite IH; [done|]. intros Hin. apply Hk. by right.
Qed.

Lemma envSliceToMap_snoc (l : list string) (e : string) :
  envSliceToMap (l ++ [e])
  = match cutEquals e with
    | Some (k, v) => <[k := v]> (envSliceToMap l)
    | None => envSliceToMap l
    end.
Proof. unfold envSliceToMap. by rewrite fold_left_app. Qed.

Lemma envSliceToMap_pairs (kvs : list (string * string)) :
  Forall (fun kv => ~ In "="%char (String.list_ascii_of_string (fst kv))) kvs ->
  NoDup (fst <$> kvs) ->
  envSliceToMap ((fun kv => fst kv +:+ "=" +:+ snd kv) <$> kvs) = list_to_map kvs.
Proof.
  induction kvs as [|[k v] kvs IH] using rev_ind; intros Hk Hnd; [reflexivity|].
  apply Forall_app in Hk as [Hk Hkv]. rewrite Forall_singleton in Hkv. cbn in Hkv.
  rewrite fmap_app in Hnd. apply NoDup_app in Hnd as (Hnd & Hdisj & _).
  rewrite fmap_app. cbn [fmap list_fmap]. rewrite envSliceToMap_snoc. cbn [fst snd].
  rewrite (cutEquals_join _ _ Hkv), (IH Hk Hnd).
  apply map_eq. intros i.
  destruct (decide (k = i)) as [<-|Hne].
  - rewrite lookup_insert_eq. symmetry.
    apply elem_of_list_to_map_1.
    + rewrite fmap_app. apply NoDup_app. split; [done|]. split; [exact Hdisj|].
      cbn. apply NoDup_singleton.
    + apply elem_of_app. right. by apply list_elem_of_singleton.
  - rewrite lookup_insert_ne by done.
    destruct (list_to_map kvs !! i) as [x|] eqn:Hx.
    + symmetry. apply elem_of_list_to_map_1.
      * rewrite fmap_app. apply NoDup_app. split; [done|]. split; [exact Hdisj|].
        cbn. apply NoDup_singleton.
      * apply elem_of_app. left. by apply elem_of_list_to_map_2.
    + symmetry. apply not_elem_of_list_to_map_1.
      rewrite fmap_app. intros [Hin|Hin]%elem_of_app.
      * by apply not_elem_of_list_to_map in Hx.
      * cbn in Hin. apply list_elem_of_singleton in Hin. done.
Qed.

(** Round trip: the environment that [convertEnvVars] builds from a map of
    variables is read back as that map by [envSliceToMap], when no name
    of a variable holds an equals sign. *)
Lemma envSliceToMap_convertEnvVars (envVars : gmap string string) :
  map_Forall (fun k _ => ~ In "="%char (String.list_ascii_of_string k)) envVars ->
  envSliceToMap (convertEnvVars envVars) = envVars.
Proof.
  intros Hk. unfold convertEnvVars.
  rewrite envSliceToMap_pairs.
  - apply list_to_map_to_list.
  - apply Forall_forall. intros [k v] Hin%elem_of_map_to_list.
    by apply (Hk k v).
  - apply NoDup_fst_map_to_list.
Qed.

(** X7: The environments of two containers, each built by [convertEnvVars],
    compare as their maps of variables do: the existing container passes
    exactly when it has every desired variable with the desired value,
    whatever the order in which the two maps were listed. *)
Theorem compareEnvVars_convertEnvVars (existingVars desiredVars : gmap string string) :
  map_Forall (fun k _ => ~ In "="%char (String.list_ascii_of_string k)) existingVars ->
  map_Forall (fun k _ => ~ In "="%char (String.list_ascii_of_string k)) desiredVars ->
  compareEnvVars (convertEnvVars existingVars) (convertEnvVars desiredVars) = true
  <-> desiredVars ⊆ existingVars.
Proof.
  intros He Hd. unfold compareEnvVars.
  rewrite !envSliceToMap_convertEnvVars by done.
  by rewrite bool_decide_eq_true, map_subseteq_spec.
Qed.

Lemma compareEnvVars_convertEnvVars_witness :
  compareEnvVars
    (convertEnvVars {["MCP_TRANSPORT" := "stdio"; "HTTP_PROXY" := "http://fetch-egress:3128"]})
    (convertEnvVars {["MCP_TRANSPORT" := "stdio"]})
  = true.
Proof.
  apply compareEnvVars_convertEnvVars.
  - intros k v Hk.
    apply lookup_insert_Some in Hk as [[<- _]|[_ Hk]];
      [|apply lookup_singleton_Some in Hk as [<- _]];
      cbn; intuition discriminate.
  - intros k v Hk.
    apply lookup_singleton_Some in Hk as [<- _].
    cbn; intuition discriminate.
  - apply map_subseteq_spec. intros k v Hk.
    apply lookup_singleton_Some in Hk as [<- <-].
    by rewrite lookup_insert_eq.
Defined.

End CompareEnv.

Section FindByName.
Import strings docker reconcile client.
Context {E : Type} (api : API E).

Lemma findByName_found (containers : list Summary) (name id : string) :
  findByName containers name = id -> id <> "" ->
  exists cont, cont ∈ containers /\ ID cont = id
               /\ (("/" +:+ name) ∈ Names cont \/ name ∈ Names cont).
Proof.
  induction containers as [|cont rest IH]; cbn [findByName]; intros Hid Hne.
  - congruence.
  - destruct (existsb _ (Names cont)) eqn:Hex.
    + exists cont. split; [by left|]. split; [done|].
      apply existsb_exists in Hex as (n & Hn%list_elem_of_In & Hb).
      apply orb_true_iff in Hb as [->%String.eqb_eq| ->%String.eqb_eq]; [by left|by right].
    + destruct (IH Hid Hne) as (c & Hc & Hrest). exists c. split; [by right|done].
Qed.

(** X8: The engine's name filter may answer with containers whose name only
    holds the wanted name; [findExistingContainer] never takes one of
    those: an id that it returns belongs to a container of the answer one
    of whose names is the wanted name, with or without the leading slash.
    (When no container has the name, the id is empty.) *)
Theorem findExistingContainer_exact_name (name id : string) (w w' : World E) :
  findExistingContainer api name w = (Ok id, w') -> id <> "" ->
  exists containers cont,
    fst (doContainerList api {| All := true; Filters := [("name", name)] |} (engine w))
      = Ok containers
    /\ cont ∈ containers /\ ID cont = id
    /\ (("/" +:+ name) ∈ Names cont \/ name ∈ Names cont).
Proof.
  unfold findExistingContainer, orFail, try, call, mbind, M_bind, mret, M_ret, fail, panic.
  destruct (doContainerList api _ (engine w)) as [[containers|e|p] e'] eqn:Hl;
    cbn [engine calls fst]; [|done..].
  intros [= Hid _] Hne.
  exists containers. destruct (findByName_found _ _ _ Hid Hne) as (cont & H).
  by exists cont.
Qed.

End FindByName.

Section FindByNameWitness.
Import strings docker reconcile client.

Lemma findExistingContainer_exact_name_witness :
  exists containers cont,
    fst (doContainerList fake.api {| All := true; Filters := [("name", "fetch")] |}
           [fake.existingFetch]) = Ok containers
    /\ cont ∈ containers /\ ID cont = "abc123"
    /\ ("/fetch" ∈ Names cont \/ "fetch" ∈ Names cont).
Proof.
  refine (findExistingContainer_exact_name fake.api "fetch" "abc123"
            {| engine := [fake.existingFetch]; calls := [] |} _ _ _).
  - reflexivity.
  - discriminate.
Defined.

End FindByNameWitness.
(** ** What a deployment creates *)

Section Returns.
Import strings docker reconcile client calllog trace.
Context {E : Type}.

Lemma returns_ret {A} (R : A -> Prop) (a : A) : R a -> returns (E:=E) R (mret a).
Proof. intros HR w a' w' [= <- _]. exact HR. Qed.

Lemma returns_fail {A} (R : A -> Prop) e : returns R (@fail E A e).
Proof. intros w a w' H. discriminate H. Qed.

Lemma returns_panic {A} (R : A -> Prop) p : returns R (@panic E A p).
Proof. intros w a w' H. discriminate H. Qed.

Lemma returns_lift {A} (r : result A) : returns (E:=E) (fun a => r = Ok a) (lift r).
Proof. intros w a w' [= -> _]. done. Qed.

Lemma returns_bind {A B} (R1 : A -> Prop) (R : B -> Prop) (m : M E A) (f : A -> M E B) :
  returns R1 m -> (forall a, R1 a -> returns R (f a)) -> returns R (m ≫= f).
Proof.
  intros Hm Hf w b w'. unfold mbind, M_bind.
  destruct (m w) as [[a|e|p] w1] eqn:Hmw; [|done..].
  intros Hfa. exact (Hf a (Hm _ _ _ Hmw) _ _ _ Hfa).
Qed.

Lemma returns_True {A} (m : M E A) : returns (fun _ => True) m.
Proof. done. Qed.

Lemma returns_orFail {A} (R : A -> Prop) (m : M E A) wrap :
  returns R m -> returns R (orFail m wrap).
Proof.
  intros Hm w a w'. unfold orFail, try, mbind, M_bind.
  destruct (m w) as [[a'|e|p] w1] eqn:Hmw; [|done..].
  intros [= <- _]. exact (Hm _ _ _ Hmw).
Qed.

Lemma logs_bind_post {A B} P (R : A -> Prop) (m : M E A) (f : A -> M E B) :
  logs P m -> returns R m -> (forall a, R a -> logs P (f a)) -> logs P (m ≫= f).
Proof.
  intros Hm HR Hf w. unfold mbind, M_bind.
  destruct (Hm w) as (cs1 & E1 & F1).
  destruct (m w) as [[a|e|p] w1] eqn:Hmw; cbn [snd] in *; [|by exists cs1..].
  destruct (Hf a (HR _ _ _ Hmw) w1) as (cs2 & E2 & F2).
  exists (cs1 ++ cs2). rewrite E2, E1, app_assoc. split; [done|by apply Forall_app].
Qed.

End Returns.

Section SetupFacts.
Import strings docker reconcile client.
Context (ext : Externals).

(** [setupExposedPorts] only touches the exposed ports. *)
Lemma setupExposedPorts_fields (config config' : Config) (exposedPorts : gset string) :
  setupExposedPorts ext config exposedPorts = Ok config' ->
  Image config' = Image config /\ Cmd config' = Cmd config /\ Env config' = Env config
  /\ Labels config' = Labels config /\ Tty config' = Tty config.
Proof.
  unfold setupExposedPorts. destruct (size exposedPorts =? 0)%nat.
  - by intros [= <-].
  - destruct (fold_left _ _ _) as [ports| |]; [|done..]. by intros [= <-].
Qed.

(** [setupPortBindings] only touches the port bindings. *)
Lemma setupPortBindings_fields (hostConfig hostConfig' : HostConfig)
    (portBindings : gmap string (list PortBinding)) :
  setupPortBindings ext hostConfig portBindings = Ok hostConfig' ->
  Mounts hostConfig' = Mounts hostConfig /\ NetworkMode hostConfig' = NetworkMode hostConfig
  /\ CapAdd hostConfig' = CapAdd hostConfig /\ CapDrop hostConfig' = CapDrop hostConfig
  /\ SecurityOpt hostConfig' = SecurityOpt hostConfig
  /\ RestartPolicy hostConfig' = RestartPolicy hostConfig
  /\ DNS hostConfig' = DNS hostConfig.
Proof.
  unfold setupPortBindings. destruct (size portBindings =? 0)%nat.
  - by intros [= <-].
  - destruct (fold_left _ _ _) as [bindings| |]; [|done..]. by intros [= <-].
Qed.

Lemma getPermissionConfigFromProfile_fields (profile : option Profile)
    (transportType : string) (permissionConfig : PermissionConfig) :
  getPermissionConfigFromProfile ext profile transportType = Ok permissionConfig ->
  PermNetworkMode permissionConfig = "none" /\ PermCapDrop permissionConfig = ["ALL"]
  /\ PermCapAdd permissionConfig = [] /\ PermSecurityOpt permissionConfig = [].
Proof.
  unfold getPermissionConfigFromProfile. destruct profile as [profile|]; [|done].
  destruct (_ && _); [done|]. by intros [= <-].
Qed.

Lemma proxy_env_lookups (base : gmap string string) (egressHost : string) :
  let m := <["no_proxy" := "localhost,127.0.0.1,::1"]>
             (<["NO_PROXY" := "localhost,127.0.0.1,::1"]>
                (<["https_proxy" := egressHost]>
                   (<["http_proxy" := egressHost]>
                      (<["HTTPS_PROXY" := egressHost]>
                         (<["HTTP_PROXY" := egressHost]> base))))) in
  m !! "HTTP_PROXY" = Some egressHost
  /\ m !! "HTTPS_PROXY" = Some egressHost
  /\ m !! "http_proxy" = Some egressHost
  /\ m !! "https_proxy" = Some egressHost
  /\ m !! "NO_PROXY" = Some "localhost,127.0.0.1,::1"
  /\ m !! "no_proxy" = Some "localhost,127.0.0.1,::1"
  /\ forall k, k ∉ trace.proxyVariables -> m !! k = base !! k.
Proof.
  intros m. subst m. repeat split.
  - by rewrite !lookup_insert_ne, lookup_insert_eq by done.
  - by rewrite !lookup_insert_ne, lookup_insert_eq by done.
  - by rewrite !lookup_insert_ne, lookup_insert_eq by done.
  - by rewrite !lookup_insert_ne, lookup_insert_eq by done.
  - by rewrite !lookup_insert_ne, lookup_insert_eq by done.
  - by rewrite lookup_insert_eq.
  - intros k Hk. unfold trace.proxyVariables in Hk.
    rewrite !not_elem_of_cons in Hk. destruct Hk as (?&?&?&?&?&?&_).
    by rewrite !lookup_insert_ne by congruence.
Qed.

End SetupFacts.

Section Creating.
Import strings docker reconcile client calllog trace.
Context {U : UnicodeTables} {E : Type} (api : API E) (ext : Externals).
Context (R : string -> Config -> HostConfig -> gset string -> Prop).
Context (N : string -> NetworkCreateOptions -> Prop).

Lemma creating_findExistingContainer name : logs (creating R N) (findExistingContainer api name).
Proof. unfold findExistingContainer. logs_auto. Qed.
Local Hint Resolve creating_findExistingContainer : logs.

Lemma creating_IsWorkloadRunning id : logs (creating R N) (IsWorkloadRunning api id).
Proof. unfold IsWorkloadRunning. logs_auto. Qed.
Local Hint Resolve creating_IsWorkloadRunning : logs.

Lemma creating_stopCompanion n t : logs (creating R N) (stopCompanion api n t).
Proof. unfold stopCompanion. logs_auto. Qed.
Local Hint Resolve creating_stopCompanion : logs.

Lemma creating_StopWorkload id : logs (creating R N) (StopWorkload api id).
Proof. unfold StopWorkload. logs_auto. Qed.
Local Hint Resolve creating_StopWorkload : logs.

Lemma creating_deleteNetwork n : logs (creating R N) (deleteNetwork api n).
Proof. unfold deleteNetwork. logs_auto. Qed.
Local Hint Resolve creating_deleteNetwork : logs.

Lemma creating_createNetwork n l i :
  N n {| Driver := "bridge"; Internal := i; NetworkLabels := l |} ->
  logs (creating R N) (createNetwork api n l i).
Proof.
  intros HN. unfold createNetwork.
  apply logs_bind; [apply logs_orFail, logs_call; exact I|intros networks].
  destruct (0 <? length networks)%nat; [apply logs_ret|]. cbv zeta.
  apply logs_bind; [apply logs_call; exact HN|intros _; apply logs_ret].
Qed.

Lemma creating_removeCompanion n what : logs (creating R N) (removeCompanion api n what).
Proof. unfold removeCompanion. logs_auto. Qed.
Local Hint Resolve creating_removeCompanion : logs.

Lemma creating_RemoveWorkload id : logs (creating R N) (RemoveWorkload api id).
Proof. unfold RemoveWorkload. logs_auto. Qed.
Local Hint Resolve creating_RemoveWorkload : logs.

Lemma creating_handleExistingContainer id config hostConfig :
  logs (creating R N) (handleExistingContainer api id config hostConfig).
Proof. unfold handleExistingContainer. logs_auto. Qed.
Local Hint Resolve creating_handleExistingContainer : logs.

Lemma creating_createContainer name config hostConfig eps :
  R name config hostConfig eps ->
  logs (creating R N) (createContainer api name config hostConfig eps).
Proof.
  intros HR. unfold createContainer. logs_auto.
  apply logs_call. exact HR.
Qed.

Lemma creating_PullImage image : logs (creating R N) (PullImage api image).
Proof. unfold PullImage. logs_auto. Qed.

Lemma creating_writeSquidConf perm host ports :
  logs (creating R N) (writeSquidConf (E:=E) ext perm host ports).
Proof.
  intros w. unfold writeSquidConf.
  destruct (createTempSquidConf _ _ _ _) as [[n t]|e|p]; cbn [snd calls].
  - exists [WriteTempFile n t]. by repeat constructor.
  - exists []. by rewrite app_nil_r.
  - exists []. by rewrite app_nil_r.
Qed.

Lemma returns_writeSquidConf perm host ports :
  returns (fun path => exists text,
             createTempSquidConf (fs ext) perm host ports = Ok (path, text))
          (writeSquidConf (E:=E) ext perm host ports).
Proof.
  intros w path w'. unfold writeSquidConf.
  destruct (createTempSquidConf _ _ _ _) as [[n t]|e|p]; [|done..].
  intros [= <- _]. by exists t.
Qed.

Lemma creating_createContainerNetworks i e :
  N i {| Driver := "bridge"; Internal := true;
         NetworkLabels := AddNetworkLabels ext ∅ i |} ->
  N e {| Driver := "bridge"; Internal := false;
         NetworkLabels := AddNetworkLabels ext ∅ e |} ->
  logs (creating R N) (createContainerNetworks api ext i e).
Proof.
  intros Hi He. unfold createContainerNetworks. cbv zeta.
  apply logs_bind; [by apply logs_orFail, creating_createNetwork|intros _].
  apply logs_bind; [by apply logs_try, creating_createNetwork|intros _].
  apply logs_ret.
Qed.

End Creating.

Section DeploymentCreates.
Import strings docker reconcile client calllog trace.
Context {U : UnicodeTables} {E : Type} (api : API E) (ext : Externals).
Context (image name : string) (command : list string).
Context (envVars labels : option (gmap string string)).
Context (permissionProfile : option Profile) (options : option DeployWorkloadOptions).

Lemma creating_deployEgress (attachStdio : bool) :
  name <> "inspector" ->
  logs (creating (deploymentCreate ext image name command envVars labels
                    permissionProfile options) (networkCreate ext name))
       (deployEgress api ext name envVars permissionProfile options attachStdio).
Proof.
  intros Hname. unfold deployEgress.
  destruct permissionProfile as [profile|] eqn:Hprofile; [|apply logs_panic].
  destruct options as [opts|] eqn:Hopts; [|apply logs_panic].
  apply logs_bind; [|intros [[? ?] ?]; apply logs_ret].
  apply logs_orFail. unfold createEgressContainers. cbv zeta.
  apply logs_bind; [apply logs_orFail, creating_PullImage|intros _].
  apply logs_bind; [apply logs_orFail, creating_PullImage|intros _].
  apply logs_bind_post
    with (R := fun path => exists text,
                 createTempSquidConf (fs ext) (Network profile) name
                   (elements (OptExposedPorts opts)) = Ok (path, text)).
  { apply logs_orFail, creating_writeSquidConf. }
  { apply returns_orFail, returns_writeSquidConf. }
  intros path [text Hconf].
  apply logs_bind.
  { apply logs_orFail, creating_createContainer.
    right; left. unfold companionCreate. cbn.
    repeat split; try done. by exists profile, opts, path, text. }
  intros dnsContainerId.
  apply logs_bind; [apply logs_orFail, logs_call; exact I|intros dnsContainerResponse].
  destruct (Networks dnsContainerResponse !! _) as [dnsContainerIP|]; [|apply logs_fail].
  eapply logs_bind_post.
  { apply logs_orFail, logs_lift. }
  { apply returns_orFail, returns_lift. }
  intros config (Hi & Hc & He & Hl & Ht)%setupExposedPorts_fields.
  eapply logs_bind_post.
  { apply logs_orFail, logs_lift. }
  { apply returns_orFail, returns_lift. }
  intros hostConfig (Hm & Hn & Hca & Hcd & Hs & Hr & Hd)%setupPortBindings_fields.
  apply logs_bind; [|intros; apply logs_ret].
  apply logs_orFail, creating_createContainer.
  right; right. unfold companionCreate.
  rewrite Hi, Hc, He, Ht, Hm, Hn, Hca, Hcd, Hs, Hr. cbn.
  repeat split; try done. by exists profile, opts, path, text.
Qed.

Lemma returns_deployEgress (attachStdio : bool) :
  returns (fun r => exists m, snd r = Some m
             /\ m !! "HTTP_PROXY" = Some ("http://" +:+ name +:+ "-egress:3128")
             /\ m !! "HTTPS_PROXY" = Some ("http://" +:+ name +:+ "-egress:3128")
             /\ m !! "http_proxy" = Some ("http://" +:+ name +:+ "-egress:3128")
             /\ m !! "https_proxy" = Some ("http://" +:+ name +:+ "-egress:3128")
             /\ m !! "NO_PROXY" = Some "localhost,127.0.0.1,::1"
             /\ m !! "no_proxy" = Some "localhost,127.0.0.1,::1"
             /\ forall k, k ∉ proxyVariables -> m !! k = default ∅ envVars !! k)
          (deployEgress api ext name envVars permissionProfile options attachStdio).
Proof.
  unfold deployEgress.
  destruct permissionProfile as [profile|]; [|apply returns_panic].
  destruct options as [opts|]; [|apply returns_panic].
  eapply returns_bind; [apply returns_True|].
  intros [[? ?] dnsContainerIP] _. apply returns_ret. cbn [snd].
  eexists. split; [reflexivity|].
  pose proof (proxy_env_lookups (match envVars with Some m => m | None => ∅ end)
                ("http://" +:+ (name +:+ "-egress") +:+ ":3128")) as H.
  cbv zeta in H.
  assert ("http://" +:+ (name +:+ "-egress") +:+ ":3128"
          = "http://" +:+ name +:+ "-egress:3128") as Heq
    by (by rewrite !string_app_assoc).
  rewrite <- Heq. destruct envVars; exact H.
Qed.

(** Whatever the engine answers, every container that [DeployWorkload]
    asks it to create is the main container, the dns container or the
    egress container of the workload, configured as the code sets them up. *)
Lemma DeployWorkload_creates (transportType : string) (w : World E) :
  exists newCalls,
    calls (snd (DeployWorkload api ext image name command envVars labels
                  permissionProfile transportType options w)) = calls w ++ newCalls
    /\ Forall (creating (deploymentCreate ext image name command envVars labels
                    permissionProfile options) (networkCreate ext name)) newCalls.
Proof.
  revert w. change (logs (creating (deploymentCreate ext image name command envVars labels
                    permissionProfile options) (networkCreate ext name))
                      (DeployWorkload api ext image name command envVars labels
                         permissionProfile transportType options)).
  unfold DeployWorkload. cbv zeta.
  eapply logs_bind_post.
  { apply logs_orFail, logs_lift. }
  { apply returns_orFail, returns_lift. }
  intros permissionConfig (Hpn & Hpd & Hpa & Hps)%getPermissionConfigFromProfile_fields.
  apply logs_bind; [|intros _].
  { apply logs_orFail, creating_createContainerNetworks.
    - split; [done|]. split; [done|]. by left.
    - split; [done|]. split; [done|]. by right. }
  apply logs_bind_post
    with (R := fun r : string * option (gmap string string) =>
            exists m, default ∅ (snd r) = m
              /\ if String.eqb name "inspector" then m = default ∅ envVars
                 else m !! "HTTP_PROXY" = Some ("http://" +:+ name +:+ "-egress:3128")
                  /\ m !! "HTTPS_PROXY" = Some ("http://" +:+ name +:+ "-egress:3128")
                  /\ m !! "http_proxy" = Some ("http://" +:+ name +:+ "-egress:3128")
                  /\ m !! "https_proxy" = Some ("http://" +:+ name +:+ "-egress:3128")
                  /\ m !! "NO_PROXY" = Some "localhost,127.0.0.1,::1"
                  /\ m !! "no_proxy" = Some "localhost,127.0.0.1,::1"
                  /\ forall k, k ∉ proxyVariables -> m !! k = default ∅ envVars !! k).
  { destruct (String.eqb_spec name "inspector") as [Hn|Hn]; cbn [negb].
    - apply logs_ret.
    - by apply creating_deployEgress. }
  { destruct (String.eqb_spec name "inspector") as [Hn|Hn]; cbn [negb].
    - apply returns_ret. by eexists.
    - intros w r w' Hr.
      destruct (returns_deployEgress _ _ _ _ Hr) as (m & Hm & H).
      exists m. rewrite Hm. done. }
  intros [additionalDNS envVars'] (m & Hm & Henv). cbn [snd] in Hm.
  destruct labels as [l|] eqn:Hlabels; [|apply logs_panic].
  apply logs_bind_post
    with (R := fun r : Config * HostConfig =>
            Image (fst r) = image /\ Cmd (fst r) = command /\ Tty (fst r) = false
            /\ Labels (fst r) = <["toolhive-main-workload" := "true"]> l
            /\ Env (fst r) = convertEnvVars m
            /\ NetworkMode (snd r) = "none" /\ CapDrop (snd r) = ["ALL"]
            /\ CapAdd (snd r) = [] /\ SecurityOpt (snd r) = []
            /\ RestartPolicy (snd r) = "unless-stopped").
  { destruct options as [opts|]; [|apply logs_ret].
    apply logs_bind; [apply logs_orFail, logs_lift|intros ?].
    apply logs_bind; [apply logs_orFail, logs_lift|intros ?]. apply logs_ret. }
  { destruct options as [opts|].
    - eapply returns_bind; [apply returns_orFail, returns_lift|].
      intros config (Hi & Hc & He & Hl & Ht)%setupExposedPorts_fields.
      eapply returns_bind; [apply returns_orFail, returns_lift|].
      intros hostConfig (_ & Hn & Hca & Hcd & Hs & Hr & _)%setupPortBindings_fields.
      apply returns_ret. cbn [fst snd].
      rewrite Hi, Hc, He, Hl, Ht, Hn, Hca, Hcd, Hs, Hr. cbn.
      by rewrite Hm, Hpn, Hpd, Hpa, Hps.
    - apply returns_ret. cbn. by rewrite Hm, Hpn, Hpd, Hpa, Hps. }
  intros [config hostConfig] (Hi & Hc & Ht & Hl & He & Hn & Hcd & Hca & Hs & Hr).
  cbn [fst snd] in *.
  apply logs_orFail, creating_createContainer.
  left. unfold mainCreate. repeat split; try done.
  - by exists l.
  - by exists m.
Qed.

End DeploymentCreates.

Section DeploymentTheorems.
Import strings docker reconcile client calllog trace.
Context {U : UnicodeTables} {E : Type} (api : API E) (ext : Externals).

Lemma In_convertEnvVars (m : gmap string string) (e : string) :
  e ∈ convertEnvVars m <-> exists k v, m !! k = Some v /\ e = k +:+ "=" +:+ v.
Proof.
  unfold convertEnvVars. rewrite list_elem_of_fmap. split.
  - intros ([k v] & -> & Hkv%elem_of_map_to_list). by exists k, v.
  - intros (k & v & Hkv & ->). exists (k, v). split; [done|].
    by apply elem_of_map_to_list.
Qed.

(** X9: Whatever the engine answers and whatever the profile allows, each
    create request that [DeployWorkload] issues for the main container asks
    for the given image and command, carries the label
    toolhive-main-workload=true on top of the given labels, and is locked
    down: network mode none, all capabilities dropped and none added, no
    security options, restart policy unless-stopped. *)
Theorem main_container_hardening (image name : string) (command : list string)
    (envVars labels : option (gmap string string)) (profile : option Profile)
    (transportType : string) (options : option DeployWorkloadOptions) (w : World E) :
  exists newCalls,
    calls (snd (DeployWorkload api ext image name command envVars labels profile
                               transportType options w)) = calls w ++ newCalls
    /\ forall config hostConfig eps,
         In (ContainerCreate name config hostConfig eps) newCalls ->
         Image config = image /\ Cmd config = command /\ Tty config = false
         /\ (exists l, labels = Some l
                       /\ Labels config = <["toolhive-main-workload" := "true"]> l)
         /\ Labels config !! "toolhive-main-workload" = Some "true"
         /\ NetworkMode hostConfig = "none" /\ CapDrop hostConfig = ["ALL"]
         /\ CapAdd hostConfig = [] /\ SecurityOpt hostConfig = []
         /\ RestartPolicy hostConfig = "unless-stopped".
Proof.
  destruct (DeployWorkload_creates api ext image name command envVars labels profile
              options transportType w) as (cs & Hcs & HP).
  exists cs. split; [exact Hcs|].
  intros config hostConfig eps Hin%list_elem_of_In.
  rewrite Forall_forall in HP. specialize (HP _ Hin). cbn in HP.
  destruct HP as [HP|[HP|HP]].
  - destruct HP as (_ & Hi & Hc & Ht & (l & Hl & Hll) & _ & Hn & Hcd & Hca & Hs & Hr).
    repeat split; try done.
    + by exists l.
    + by rewrite Hll, lookup_insert_eq.
  - destruct HP as (Hn & _). symmetry in Hn. by apply string_app_neq in Hn.
  - destruct HP as (Hn & _). symmetry in Hn. by apply string_app_neq in Hn.
Qed.

(** X10: For a workload other than the inspector, each create request for the
    main container carries an environment in which the six proxy variables
    point to the egress container of the workload (values given by the
    caller for these names are replaced), and every other variable of the
    caller is kept. *)
Theorem main_container_proxy_env (image name : string) (command : list string)
    (envVars labels : option (gmap string string)) (profile : option Profile)
    (transportType : string) (options : option DeployWorkloadOptions) (w : World E) :
  name <> "inspector" ->
  exists newCalls,
    calls (snd (DeployWorkload api ext image name command envVars labels profile
                               transportType options w)) = calls w ++ newCalls
    /\ forall config hostConfig eps,
         In (ContainerCreate name config hostConfig eps) newCalls ->
         exists m : gmap string string,
           (forall e, e ∈ Env config
                      <-> exists k v, m !! k = Some v /\ e = k +:+ "=" +:+ v)
           /\ m !! "HTTP_PROXY" = Some ("http://" +:+ name +:+ "-egress:3128")
           /\ m !! "HTTPS_PROXY" = Some ("http://" +:+ name +:+ "-egress:3128")
           /\ m !! "http_proxy" = Some ("http://" +:+ name +:+ "-egress:3128")
           /\ m !! "https_proxy" = Some ("http://" +:+ name +:+ "-egress:3128")
           /\ m !! "NO_PROXY" = Some "localhost,127.0.0.1,::1"
           /\ m !! "no_proxy" = Some "localhost,127.0.0.1,::1"
           /\ forall k, k ∉ proxyVariables -> m !! k = default ∅ envVars !! k.
Proof.
  intros Hname.
  destruct (DeployWorkload_creates api ext image name command envVars labels profile
              options transportType w) as (cs & Hcs & HP).
  exists cs. split; [exact Hcs|].
  intros config hostConfig eps Hin%list_elem_of_In.
  rewrite Forall_forall in HP. specialize (HP _ Hin). cbn in HP.
  destruct HP as [HP|[HP|HP]].
  - destruct HP as (_ & _ & _ & _ & _ & (m & Hm & Henv) & _).
    apply String.eqb_neq in Hname. rewrite Hname in Henv.
    exists m. split; [|exact Henv].
    intros e. rewrite Hm. apply In_convertEnvVars.
  - destruct HP as (Hn & _). symmetry in Hn. by apply string_app_neq in Hn.
  - destruct HP as (Hn & _). symmetry in Hn. by apply string_app_neq in Hn.
Qed.

(** X11: [DeployWorkload] asks the engine for no other container than the main
    one, the dns and the egress container of the workload, and for the
    last two only when the workload is not the inspector. Each of the two
    is created from its fixed image, in bridge mode, on the internal
    network of the workload and on the shared external network, with the
    ACL document generated for the profile mounted read-only at
    /etc/squid/squid.conf; only the egress container is given
    capabilities. *)
Theorem companion_containers (image name : string) (command : list string)
    (envVars labels : option (gmap string string)) (profile : option Profile)
    (transportType : string) (options : option DeployWorkloadOptions) (w : World E) :
  exists newCalls,
    calls (snd (DeployWorkload api ext image name command envVars labels profile
                               transportType options w)) = calls w ++ newCalls
    /\ forall n config hostConfig eps,
         In (ContainerCreate n config hostConfig eps) newCalls ->
         n = name
         \/ (name <> "inspector"
             /\ ((n = name +:+ "-dns" /\ Image config = DnsImage
                  /\ CapAdd hostConfig = [])
                 \/ (n = name +:+ "-egress" /\ Image config = EgressImage
                     /\ CapAdd hostConfig = ["CAP_SETUID"; "CAP_SETGID"]))
             /\ eps = {["toolhive-" +:+ name +:+ "-internal"; "toolhive-external"]}
             /\ NetworkMode hostConfig = "bridge"
             /\ CapDrop hostConfig = [] /\ SecurityOpt hostConfig = []
             /\ RestartPolicy hostConfig = "unless-stopped"
             /\ Env config = []
             /\ exists p opts path text,
                  profile = Some p /\ options = Some opts
                  /\ createTempSquidConf (fs ext) (Network p) name
                       (elements (OptExposedPorts opts)) = Ok (path, text)
                  /\ Mounts hostConfig
                     = [{| MountType := "bind"; MountSource := path;
                           MountTarget := "/etc/squid/squid.conf";
                           MountReadOnly := true |}]).
Proof.
  destruct (DeployWorkload_creates api ext image name command envVars labels profile
              options transportType w) as (cs & Hcs & HP).
  exists cs. split; [exact Hcs|].
  intros n config hostConfig eps Hin%list_elem_of_In.
  rewrite Forall_forall in HP. specialize (HP _ Hin). cbn in HP.
  destruct HP as [HP|[HP|HP]].
  - left. by destruct HP as (-> & _).
  - right.
    destruct HP as (Hn & Hname & Hi & _ & He & _ & Hm & Hnm & Hca & Hcd & Hs & Hr & Heps).
    split; [exact Hname|]. split; [by left|]. done.
  - right.
    destruct HP as (Hn & Hname & Hi & _ & He & _ & Hm & Hnm & Hca & Hcd & Hs & Hr & Heps).
    split; [exact Hname|]. split; [by right|]. done.
Qed.

(** X12: Whatever the engine answers, [DeployWorkload] asks it to create no
    other network than the internal network of the workload and the shared
    external one, both with the bridge driver and the labels of
    [AddNetworkLabels]; the internal network is always requested as an
    internal one, the external network never. This holds also for the calls
    made while an existing container is stopped, removed and created
    again. *)
Theorem deployment_networks (image name : string) (command : list string)
    (envVars labels : option (gmap string string)) (profile : option Profile)
    (transportType : string) (options : option DeployWorkloadOptions) (w : World E) :
  exists newCalls,
    calls (snd (DeployWorkload api ext image name command envVars labels profile
                               transportType options w)) = calls w ++ newCalls
    /\ forall n networkOptions,
         In (NetworkCreate n networkOptions) newCalls ->
         Driver networkOptions = "bridge"
         /\ NetworkLabels networkOptions = AddNetworkLabels ext ∅ n
         /\ ((n = "toolhive-" +:+ name +:+ "-internal"
              /\ Internal networkOptions = true)
             \/ (n = "toolhive-external" /\ Internal networkOptions = false)).
Proof.
  destruct (DeployWorkload_creates api ext image name command envVars labels profile
              options transportType w) as (cs & Hcs & HP).
  exists cs. split; [exact Hcs|].
  intros n networkOptions Hin%list_elem_of_In.
  rewrite Forall_forall in HP. exact (HP _ Hin).
Qed.

(** A transport type other than sse, stdio and inspector is refused before
    the engine is asked for anything: [DeployWorkload] fails and leaves no
    network and no container behind. *)
Theorem deploy_unsupported_transport (image name : string) (command : list string)
    (envVars labels : option (gmap string string)) (profile : Profile)
    (transportType : string) (options : option DeployWorkloadOptions) (w : World E) :
  transportType <> "sse" -> transportType <> "stdio" -> transportType <> "inspector" ->
  DeployWorkload api ext image name command envVars labels (Some profile)
                 transportType options w
  = (Error (Errorf "failed to get permission config"), w).
Proof.
  intros H1%String.eqb_neq H2%String.eqb_neq H3%String.eqb_neq.
  unfold DeployWorkload, getPermissionConfigFromProfile. cbv zeta.
  rewrite H1, H2, H3. reflexivity.
Qed.

End DeploymentTheorems.

Section DeploymentWitnesses.
Import strings docker reconcile client calllog trace fake.
Existing Instance asciiTables.

Lemma main_container_proxy_env_witness :
  exists newCalls,
    calls (snd (DeployWorkload api ext "ghcr.io/example/fetch:latest" "fetch" ["--serve"]
                  (Some {["MCP_TRANSPORT" := "stdio"]})
                  (Some {["toolhive" := "true"; "toolhive-name" := "fetch"]})
                  (Some fetchProfile) "stdio" (Some fetchOptions) emptyWorld))
    = calls emptyWorld ++ newCalls
    /\ forall config hostConfig eps,
         In (ContainerCreate "fetch" config hostConfig eps) newCalls ->
         exists m : gmap string string,
           (forall e, e ∈ Env config
                      <-> exists k v, m !! k = Some v /\ e = k +:+ "=" +:+ v)
           /\ m !! "HTTP_PROXY" = Some ("http://" +:+ "fetch" +:+ "-egress:3128")
           /\ m !! "HTTPS_PROXY" = Some ("http://" +:+ "fetch" +:+ "-egress:3128")
           /\ m !! "http_proxy" = Some ("http://" +:+ "fetch" +:+ "-egress:3128")
           /\ m !! "https_proxy" = Some ("http://" +:+ "fetch" +:+ "-egress:3128")
           /\ m !! "NO_PROXY" = Some "localhost,127.0.0.1,::1"
           /\ m !! "no_proxy" = Some "localhost,127.0.0.1,::1"
           /\ forall k, k ∉ proxyVariables
                        -> m !! k = default (∅ : gmap string string)
                                            (Some {["MCP_TRANSPORT" := "stdio"]}) !! k.
Proof.
  apply (main_container_proxy_env api ext "ghcr.io/example/fetch:latest" "fetch" ["--serve"]
           (Some {["MCP_TRANSPORT" := "stdio"]})
           (Some {["toolhive" := "true"; "toolhive-name" := "fetch"]})
           (Some fetchProfile) "stdio" (Some fetchOptions) emptyWorld).
  discriminate.
Defined.

Lemma deploy_unsupported_transport_witness :
  DeployWorkload api ext "ghcr.io/example/fetch:latest" "fetch" ["--serve"]
    (Some {["MCP_TRANSPORT" := "stdio"]}) (Some ∅) (Some fetchProfile) "http"
    (Some fetchOptions) emptyWorld
  = (Error (Errorf "failed to get permission config"), emptyWorld).
Proof.
  apply (deploy_unsupported_transport api ext); discriminate.
Defined.

End DeploymentWitnesses.
(** ** The mounts of a permission profile *)

Section Mounts.
Import strings docker reconcile client.
Context (ext : Externals).

Lemma getPermissionConfigFromProfile_mounts (profile : Profile) (transportType : string)
    (permissionConfig : PermissionConfig) :
  getPermissionConfigFromProfile ext (Some profile) transportType = Ok permissionConfig ->
  PermMounts permissionConfig
  = addReadWriteMounts ext (addReadOnlyMounts ext [] (Read profile)) (Write profile).
Proof.
  unfold getPermissionConfigFromProfile. destruct (_ && _); [done|]. by intros [= <-].
Qed.

(** One round of each of the two loops. *)
Lemma addReadOnlyMounts_app (mounts : list Mount) (l1 l2 : list string) :
  addReadOnlyMounts ext mounts (l1 ++ l2)
  = addReadOnlyMounts ext (addReadOnlyMounts ext mounts l1) l2.
Proof. unfold addReadOnlyMounts. by rewrite fold_left_app. Qed.

Lemma addReadWriteMounts_app (mounts : list Mount) (l1 l2 : list string) :
  addReadWriteMounts ext mounts (l1 ++ l2)
  = addReadWriteMounts ext (addReadWriteMounts ext mounts l1) l2.
Proof. unfold addReadWriteMounts. by rewrite fold_left_app. Qed.

Lemma addReadOnlyMounts_cons (mounts : list Mount) (d : string) (l : list string) :
  addReadOnlyMounts ext mounts (d :: l)
  = addReadOnlyMounts ext
      (match resolveMount ext d with
       | None => mounts
       | Some (absPath, target) =>
           mounts ++ [{| Source := absPath; Target := target; ReadOnly := true |}]
       end) l.
Proof. reflexivity. Qed.

Lemma addReadWriteMounts_cons (mounts : list Mount) (d : string) (l : list string) :
  addReadWriteMounts ext mounts (d :: l)
  = addReadWriteMounts ext
      (match resolveMount ext d with
       | None => mounts
       | Some (absPath, target) =>
           match upgradeMount mounts target with
           | Some mounts' => mounts'
           | None => mounts ++ [{| Source := absPath; Target := target; ReadOnly := false |}]
           end
       end) l.
Proof. reflexivity. Qed.

Lemma upgradeMount_Some (mounts mounts' : list Mount) (target : string) :
  upgradeMount mounts target = Some mounts' ->
  exists l1 m l2,
    mounts = l1 ++ m :: l2 /\ Target m = target
    /\ Forall (fun x => Target x <> target) l1
    /\ mounts' = l1 ++ {| Source := Source m; Target := Target m; ReadOnly := false |} :: l2.
Proof.
  revert mounts'. induction mounts as [|m rest IH]; intros mounts'; cbn [upgradeMount];
    [done|].
  destruct (String.eqb_spec (Target m) target) as [Heq|Hne].
  - intros [= <-]. exists [], m, rest. repeat split; [done|constructor].
  - destruct (upgradeMount rest target) as [r'|] eqn:Hr; cbn; [|done].
    intros [= <-]. destruct (IH _ eq_refl) as (l1 & x & l2 & -> & Hx & Hl1 & ->).
    exists (m :: l1), x, l2. repeat split; try done. by constructor.
Qed.

Lemma upgradeMount_None (mounts : list Mount) (target : string) :
  upgradeMount mounts target = None -> Forall (fun x => Target x <> target) mounts.
Proof.
  induction mounts as [|m rest IH]; cbn [upgradeMount]; [constructor|].
  destruct (String.eqb_spec (Target m) target) as [Heq|Hne]; [done|].
  destruct (upgradeMount rest target); cbn; [done|]. intros _. constructor; auto.
Qed.

Lemma find_target_app_Some (l1 l2 : list Mount) (t : string) (m : Mount) :
  List.find (fun m => String.eqb (Target m) t) l1 = Some m ->
  List.find (fun m => String.eqb (Target m) t) (l1 ++ l2) = Some m.
Proof.
  induction l1 as [|x l1 IH]; cbn; [done|].
  destruct (String.eqb (Target x) t); [done|exact IH].
Qed.

Lemma find_target_app_None (l1 l2 : list Mount) (t : string) :
  Forall (fun x => Target x <> t) l1 ->
  List.find (fun m => String.eqb (Target m) t) (l1 ++ l2)
  = List.find (fun m => String.eqb (Target m) t) l2.
Proof.
  induction 1 as [|x l1 Hx _ IH]; cbn; [done|].
  apply String.eqb_neq in Hx. by rewrite Hx.
Qed.

Lemma find_target_None_Forall (l : list Mount) (t : string) :
  List.find (fun m => String.eqb (Target m) t) l = None ->
  Forall (fun x => Target x <> t) l.
Proof.
  induction l as [|x l IH]; cbn; [constructor|].
  destruct (String.eqb_spec (Target x) t); [done|]. intros H. constructor; auto.
Qed.

(** A round of the loop of addReadWriteMounts for the target [t] leaves
    the first mount on [t] writable. *)
Lemma write_round_makes_writable (mounts : list Mount) (absPath t : string) :
  exists m,
    List.find (fun m => String.eqb (Target m) t)
      (match upgradeMount mounts t with
       | Some mounts' => mounts'
       | None => mounts ++ [{| Source := absPath; Target := t; ReadOnly := false |}]
       end) = Some m
    /\ ReadOnly m = false.
Proof.
  destruct (upgradeMount mounts t) as [mounts'|] eqn:Hup.
  - apply upgradeMount_Some in Hup as (l1 & x & l2 & -> & Hx & Hl1 & ->).
    eexists. rewrite (find_target_app_None _ _ _ Hl1). cbn.
    apply String.eqb_eq in Hx. rewrite Hx. done.
  - apply upgradeMount_None in Hup.
    eexists. rewrite (find_target_app_None _ _ _ Hup). cbn.
    rewrite String.eqb_refl. done.
Qed.

(** A round for any target keeps the first mount on [t] writable. *)
Lemma write_round_keeps_writable (mounts : list Mount) (absPath t t' : string) :
  (exists m, List.find (fun m => String.eqb (Target m) t) mounts = Some m
             /\ ReadOnly m = false) ->
  exists m,
    List.find (fun m => String.eqb (Target m) t)
      (match upgradeMount mounts t' with
       | Some mounts' => mounts'
       | None => mounts ++ [{| Source := absPath; Target := t'; ReadOnly := false |}]
       end) = Some m
    /\ ReadOnly m = false.
Proof.
  intros (m & Hm & Hrw).
  destruct (upgradeMount mounts t') as [mounts'|] eqn:Hup.
  - apply upgradeMount_Some in Hup as (l1 & x & l2 & -> & Hx & Hl1 & ->).
    destruct (List.find (fun m => String.eqb (Target m) t) l1) as [y|] eqn:Hy.
    + rewrite (find_target_app_Some _ _ _ _ Hy) in Hm.
      rewrite (find_target_app_Some _ _ _ _ Hy). exists y. by simplify_eq.
    + apply find_target_None_Forall in Hy.
      rewrite (find_target_app_None _ _ _ Hy) in Hm.
      rewrite (find_target_app_None _ _ _ Hy). cbn in Hm |- *.
      destruct (String.eqb (Target x) t); [by eexists|by exists m].
  - exists m. split; [by apply find_target_app_Some|done].
Qed.

Lemma addReadWriteMounts_keeps_writable (decls : list string) (mounts : list Mount)
    (t : string) :
  (exists m, List.find (fun m => String.eqb (Target m) t) mounts = Some m
             /\ ReadOnly m = false) ->
  exists m, List.find (fun m => String.eqb (Target m) t)
              (addReadWriteMounts ext mounts decls) = Some m
            /\ ReadOnly m = false.
Proof.
  revert mounts. induction decls as [|d decls IH]; intros mounts H; [exact H|].
  rewrite addReadWriteMounts_cons. apply IH.
  destruct (resolveMount ext d) as [[absPath t']|]; [|exact H].
  by apply write_round_keeps_writable.
Qed.

(** X13: A path that the profile declares for writing is mounted read-write:
    the first mount on its target (the one a later mount on the same target
    would not replace) is writable, whether the path was also declared for
    reading or not. *)
Theorem write_declaration_is_read_write (profile : Profile) (transportType : string)
    (permissionConfig : PermissionConfig) (d source target : string) :
  getPermissionConfigFromProfile ext (Some profile) transportType = Ok permissionConfig ->
  In d (Write profile) ->
  resolveMount ext d = Some (source, target) ->
  exists m, List.find (fun m => String.eqb (Target m) target) (PermMounts permissionConfig)
            = Some m
            /\ ReadOnly m = false.
Proof.
  intros Hpc Hin Hd. rewrite (getPermissionConfigFromProfile_mounts _ _ _ Hpc).
  apply in_split in Hin as (l1 & l2 & ->).
  rewrite addReadWriteMounts_app, addReadWriteMounts_cons, Hd.
  apply addReadWriteMounts_keeps_writable, write_round_makes_writable.
Qed.

Lemma addReadOnlyMounts_incl (decls : list string) (mounts : list Mount) (m : Mount) :
  In m mounts -> In m (addReadOnlyMounts ext mounts decls).
Proof.
  revert mounts. induction decls as [|d decls IH]; intros mounts H; [exact H|].
  rewrite addReadOnlyMounts_cons. apply IH.
  destruct (resolveMount ext d) as [[absPath t]|]; [|exact H].
  apply in_or_app. by left.
Qed.

Lemma addReadWriteMounts_keeps (decls : list string) (mounts : list Mount) (m : Mount) :
  (forall d s, In d decls -> resolveMount ext d <> Some (s, Target m)) ->
  In m mounts -> In m (addReadWriteMounts ext mounts decls).
Proof.
  revert mounts. induction decls as [|d decls IH]; intros mounts Hd H; [exact H|].
  rewrite addReadWriteMounts_cons. apply IH.
  { intros d' s Hin. apply Hd. by right. }
  destruct (resolveMount ext d) as [[absPath t]|] eqn:Hr; [|exact H].
  assert (t <> Target m) as Ht.
  { intros ->. by apply (Hd d absPath); [left|]. }
  destruct (upgradeMount mounts t) as [mounts'|] eqn:Hup.
  - apply upgradeMount_Some in Hup as (l1 & x & l2 & -> & Hx & _ & ->).
    apply in_app_or in H as [H|[->|H]].
    + apply in_or_app. by left.
    + congruence.
    + apply in_or_app. right. by right.
  - apply in_or_app. by left.
Qed.

(** X14: A path that the profile declares for reading, and whose target no
    write declaration names, is mounted read-only from the declared source. *)
Theorem read_declaration_is_read_only (profile : Profile) (transportType : string)
    (permissionConfig : PermissionConfig) (d source target : string) :
  getPermissionConfigFromProfile ext (Some profile) transportType = Ok permissionConfig ->
  In d (Read profile) ->
  resolveMount ext d = Some (source, target) ->
  (forall d' s, In d' (Write profile) -> resolveMount ext d' <> Some (s, target)) ->
  In {| Source := source; Target := target; ReadOnly := true |}
     (PermMounts permissionConfig).
Proof.
  intros Hpc Hin Hd Hw. rewrite (getPermissionConfigFromProfile_mounts _ _ _ Hpc).
  apply addReadWriteMounts_keeps; [exact Hw|].
  apply in_split in Hin as (l1 & l2 & ->).
  rewrite addReadOnlyMounts_app, addReadOnlyMounts_cons, Hd.
  apply addReadOnlyMounts_incl, in_or_app. right. by left.
Qed.

(** Where the mounts come from: the declarations [rs] give the sources, and
    the declarations [ws] make them writable. *)
Lemma addReadOnlyMounts_provenance (decls rs ws : list string) (mounts : list Mount) :
  (forall d, In d decls -> In d rs) ->
  Forall (fun m => (exists d, In d (rs ++ ws)
                              /\ resolveMount ext d = Some (Source m, Target m))
                   /\ (ReadOnly m = false
                       -> exists d s, In d ws /\ resolveMount ext d = Some (s, Target m)))
         mounts ->
  Forall (fun m => (exists d, In d (rs ++ ws)
                              /\ resolveMount ext d = Some (Source m, Target m))
                   /\ (ReadOnly m = false
                       -> exists d s, In d ws /\ resolveMount ext d = Some (s, Target m)))
         (addReadOnlyMounts ext mounts decls).
Proof.
  revert mounts. induction decls as [|d decls IH]; intros mounts Hsub H; [exact H|].
  rewrite addReadOnlyMounts_cons. apply IH.
  { intros d' Hd'. apply Hsub. by right. }
  destruct (resolveMount ext d) as [[absPath t]|] eqn:Hr; [|exact H].
  apply Forall_app. split; [exact H|]. apply Forall_singleton. cbn. split; [|done].
  exists d. split; [|done]. apply in_or_app. left. apply Hsub. by left.
Qed.

Lemma addReadWriteMounts_provenance (decls rs ws : list string) (mounts : list Mount) :
  (forall d, In d decls -> In d ws) ->
  Forall (fun m => (exists d, In d (rs ++ ws)
                              /\ resolveMount ext d = Some (Source m, Target m))
                   /\ (ReadOnly m = false
                       -> exists d s, In d ws /\ resolveMount ext d = Some (s, Target m)))
         mounts ->
  Forall (fun m => (exists d, In d (rs ++ ws)
                              /\ resolveMount ext d = Some (Source m, Target m))
                   /\ (ReadOnly m = false
                       -> exists d s, In d ws /\ resolveMount ext d = Some (s, Target m)))
         (addReadWriteMounts ext mounts decls).
Proof.
  revert mounts. induction decls as [|d decls IH]; intros mounts Hsub H; [exact H|].
  rewrite addReadWriteMounts_cons. apply IH.
  { intros d' Hd'. apply Hsub. by right. }
  destruct (resolveMount ext d) as [[absPath t]|] eqn:Hr; [|exact H].
  assert (In d ws) as Hd by (apply Hsub; by left).
  destruct (upgradeMount mounts t) as [mounts'|] eqn:Hup.
  - apply upgradeMount_Some in Hup as (l1 & x & l2 & -> & Hx & _ & ->).
    apply Forall_app in H as [H1 H2]. apply Forall_cons in H2 as [[Hx1 _] H2].
    apply Forall_app. split; [exact H1|]. apply Forall_cons. split; [|exact H2].
    cbn. split; [exact Hx1|]. intros _. exists d, absPath. by rewrite Hx.
  - apply Forall_app. split; [exact H|]. apply Forall_singleton. cbn. split.
    + exists d. split; [|done]. apply in_or_app. by right.
    + intros _. by exists d, absPath.
Qed.

(** The container is given no mount that the profile does not declare:
    every mount has the source and target of a read or write declaration,
    and a mount is writable only when a write declaration names its
    target. *)
Lemma mounts_come_from_profile (profile : Profile) (transportType : string)
    (permissionConfig : PermissionConfig) (m : Mount) :
  getPermissionConfigFromProfile ext (Some profile) transportType = Ok permissionConfig ->
  In m (PermMounts permissionConfig) ->
  (exists d, In d (Read profile ++ Write profile)
             /\ resolveMount ext d = Some (Source m, Target m))
  /\ (ReadOnly m = false
      -> exists d s, In d (Write profile) /\ resolveMount ext d = Some (s, Target m)).
Proof.
  intros Hpc Hin%list_elem_of_In.
  rewrite (getPermissionConfigFromProfile_mounts _ _ _ Hpc) in Hin.
  pose proof (addReadWriteMounts_provenance (Write profile) (Read profile) (Write profile)
                (addReadOnlyMounts ext [] (Read profile)) (fun _ H => H)
                (addReadOnlyMounts_provenance (Read profile) (Read profile) (Write profile)
                   [] (fun _ H => H) (Forall_nil_2 _))) as H.
  rewrite Forall_forall in H. exact (H m Hin).
Qed.

End Mounts.

Section ResolvedMounts.
Import strings docker reconcile client mounts.
Context (ext : Externals).
Context (Parse : string -> result (string * string)).
Context (IsAbs : string -> bool) (Getwd : result string).
Context (Join : string -> string -> string).

(** X15: With the declarations resolved as the two loops do, the container is
    given no mount that the profile does not declare: each mount has the
    target of a read or write declaration that parses, whose source is no
    resource URI (it does not contain ://), and is mounted from that source
    when the source is absolute, from the source joined to the working
    directory (which could then be read) when it is relative. *)
Theorem mounted_paths_follow_declarations (profile : Profile) (transportType : string)
    (permissionConfig : PermissionConfig) (m : Mount) :
  getPermissionConfigFromProfile (withMounts Parse IsAbs Getwd Join ext)
    (Some profile) transportType = Ok permissionConfig ->
  In m (PermMounts permissionConfig) ->
  exists d source,
    In d (Read profile ++ Write profile)
    /\ Parse d = Ok (source, Target m)
    /\ Contains source "://" = false
    /\ (if IsAbs source then Source m = source
        else exists cwd, Getwd = Ok cwd /\ Source m = Join cwd source).
Proof.
  intros Hpc Hin.
  destruct (mounts_come_from_profile _ _ _ _ _ Hpc Hin) as ((d & Hd & Hr) & _).
  cbn [withMounts resolveMount] in Hr. unfold resolveMountDeclaration in Hr.
  destruct (Parse d) as [[source target]| |] eqn:HP; [|done|done].
  destruct (Contains source "://") eqn:HC; [done|].
  unfold convertRelativePathToAbsolute in Hr.
  exists d, source.
  destruct (IsAbs source).
  - cbn in Hr. injection Hr as <- <-. done.
  - destruct Getwd as [cwd| |]; cbn in Hr; [|done|done].
    injection Hr as <- <-. repeat split; try done. by exists cwd.
Qed.

End ResolvedMounts.

Section MountsWitnesses.
Import strings docker reconcile client.

Lemma write_declaration_is_read_write_witness :
  let ext := {| fs := fs fake.ext; NewPort := NewPort fake.ext;
                AddStandardLabels := AddStandardLabels fake.ext;
                AddNetworkLabels := AddNetworkLabels fake.ext;
                resolveMount := fun d => Some ("/home/u" +:+ d, d) |} in
  exists m, List.find (fun m => String.eqb (Target m) "/data")
              [{| Source := "/home/u/data"; Target := "/data"; ReadOnly := false |};
               {| Source := "/home/u/etc"; Target := "/etc"; ReadOnly := true |}]
            = Some m
            /\ ReadOnly m = false.
Proof.
  intros ext.
  apply (write_declaration_is_read_write ext
           {| Read := ["/data"; "/etc"]; Write := ["/data"]; Network := None |} "stdio"
           {| PermMounts :=
                [{| Source := "/home/u/data"; Target := "/data"; ReadOnly := false |};
                 {| Source := "/home/u/etc"; Target := "/etc"; ReadOnly := true |}];
              PermNetworkMode := "none"; PermCapDrop := ["ALL"]; PermCapAdd := [];
              PermSecurityOpt := [] |} "/data" "/home/u/data" "/data").
  - reflexivity.
  - by left.
  - reflexivity.
Defined.

Lemma read_declaration_is_read_only_witness :
  let ext := {| fs := fs fake.ext; NewPort := NewPort fake.ext;
                AddStandardLabels := AddStandardLabels fake.ext;
                AddNetworkLabels := AddNetworkLabels fake.ext;
                resolveMount := fun d => Some ("/home/u" +:+ d, d) |} in
  In {| Source := "/home/u/etc"; Target := "/etc"; ReadOnly := true |}
     [{| Source := "/home/u/data"; Target := "/data"; ReadOnly := false |};
      {| Source := "/home/u/etc"; Target := "/etc"; ReadOnly := true |}].
Proof.
  intros ext.
  apply (read_declaration_is_read_only ext
           {| Read := ["/data"; "/etc"]; Write := ["/data"]; Network := None |} "stdio"
           {| PermMounts :=
                [{| Source := "/home/u/data"; Target := "/data"; ReadOnly := false |};
                 {| Source := "/home/u/etc"; Target := "/etc"; ReadOnly := true |}];
              PermNetworkMode := "none"; PermCapDrop := ["ALL"]; PermCapAdd := [];
              PermSecurityOpt := [] |} "/etc" "/home/u/etc" "/etc").
  - reflexivity.
  - right. by left.
  - reflexivity.
  - intros d' s [<-|[]]. cbn. discriminate.
Defined.

Lemma mounted_paths_follow_declarations_witness :
  exists d source,
    In d (["data"; "/etc"] ++ [])
    /\ (fun d => Ok (d, "/mnt/" +:+ d)) d = Ok (source, "/mnt/data")
    /\ mounts.Contains source "://" = false
    /\ (if String.prefix "/" source then "/home/u/data" = source
        else exists cwd, Ok "/home/u" = Ok cwd
                         /\ "/home/u/data" = (fun a b => a +:+ "/" +:+ b) cwd source).
Proof.
  apply (mounted_paths_follow_declarations fake.ext
           (fun d => Ok (d, "/mnt/" +:+ d)) (String.prefix "/") (Ok "/home/u")
           (fun a b => a +:+ "/" +:+ b)
           {| Read := ["data"; "/etc"]; Write := []; Network := None |} "stdio"
           {| PermMounts :=
                [{| Source := "/home/u/data"; Target := "/mnt/data"; ReadOnly := true |};
                 {| Source := "/etc"; Target := "/mnt//etc"; ReadOnly := true |}];
              PermNetworkMode := "none"; PermCapDrop := ["ALL"]; PermCapAdd := [];
              PermSecurityOpt := [] |}
           {| Source := "/home/u/data"; Target := "/mnt/data"; ReadOnly := true |}).
  - reflexivity.
  - by left.
Defined.

End MountsWitnesses.
(** ** Stopping and removing a workload *)

Section NeverFails.
Import strings docker reconcile client calllog trace.
Context {E : Type}.

Lemma neverFails_ret {A} (a : A) : neverFails (E:=E) (mret a).
Proof. intros w e. done. Qed.

Lemma neverFails_try {A} (m : M E A) : neverFails (try m).
Proof. intros w e. unfold try. by destruct (m w) as [[a|e'|p] w']. Qed.

Lemma neverFails_bind {A B} (m : M E A) (f : A -> M E B) :
  neverFails m -> (forall a, neverFails (f a)) -> neverFails (m ≫= f).
Proof.
  intros Hm Hf w e. unfold mbind, M_bind.
  specialize (Hm w). destruct (m w) as [[a|e'|p] w']; cbn in *.
  - apply Hf.
  - by destruct (Hm e').
  - done.
Qed.

End NeverFails.

Section StopWorkload.
Import strings docker reconcile client calllog trace.
Context {E : Type} (api : API E).

Lemma neverFails_stopCompanion (companionName : string) (timeoutSeconds : Z) :
  neverFails (stopCompanion api companionName timeoutSeconds).
Proof.
  unfold stopCompanion. apply neverFails_bind; [apply neverFails_try|].
  intros [companionId|e|p]; [|apply neverFails_ret..].
  apply neverFails_bind; [apply neverFails_try|]. intros _. apply neverFails_ret.
Qed.

Lemma bind_Ok {A B} (m : M E A) (f : A -> M E B) (w w' : World E) (a : A) :
  m w = (Ok a, w') -> (m ≫= f) w = f a w'.
Proof. intros H. unfold mbind, M_bind. by rewrite H. Qed.

Lemma IsWorkloadRunning_Ok (workloadID : string) (w : World E) (info : InspectResponse)
    (e1 : E) :
  doContainerInspect api workloadID (engine w) = (Ok info, e1) ->
  IsWorkloadRunning api workloadID w
  = (Ok (Running info),
     {| engine := e1; calls := calls w ++ [ContainerInspect workloadID] |}).
Proof.
  intros H. unfold IsWorkloadRunning, try, call, mbind, M_bind. by rewrite H.
Qed.

(** Stopping a workload that the engine does not know, or that is not
    running, succeeds at once: the engine is asked to inspect the workload
    and for nothing else, so nothing is stopped. *)
Lemma stop_missing_or_stopped_workload (workloadID : string) (w : World E)
    (r : result InspectResponse) (e' : E) :
  doContainerInspect api workloadID (engine w) = (r, e') ->
  match r with
  | Ok info => Running info = false
  | Error err => IsNotFound err = true
  | Panic _ => False
  end ->
  StopWorkload api workloadID w
  = (Ok (), {| engine := e'; calls := calls w ++ [ContainerInspect workloadID] |}).
Proof.
  intros Hinsp Hr.
  unfold StopWorkload, IsWorkloadRunning, try, call, mbind, M_bind, mret, M_ret, fail.
  rewrite Hinsp. destruct r as [info|err|p]; [| |done]; cbn [engine calls].
  - by rewrite Hr.
  - by rewrite Hr.
Qed.

(** Once the engine has stopped the workload itself, [StopWorkload] does
    not return an error, whatever becomes of the look-up and the stop of
    its egress and dns containers: their failures are only logged. *)
Lemma stop_workload_companions_best_effort (workloadID : string) (w : World E)
    (info : InspectResponse) (e1 e2 : E) :
  doContainerInspect api workloadID (engine w) = (Ok info, e1) ->
  Running info = true ->
  doContainerStop api workloadID 30 e1 = (Ok (), e2) ->
  forall err, fst (StopWorkload api workloadID w) <> Error err.
Proof.
  intros Hinsp Hrun Hstop err.
  unfold StopWorkload.
  erewrite bind_Ok; cycle 1.
  { unfold try. erewrite IsWorkloadRunning_Ok by exact Hinsp. reflexivity. }
  rewrite Hrun. cbn [negb]. cbv zeta.
  erewrite bind_Ok; cycle 1.
  { unfold orFail. erewrite bind_Ok; cycle 1.
    { unfold try, call. cbn [engine calls]. rewrite Hstop. reflexivity. }
    reflexivity. }
  apply neverFails_bind; [apply neverFails_try|].
  intros [containerResponse|e|p]; [|apply neverFails_ret..].
  apply neverFails_bind; [apply neverFails_stopCompanion|].
  intros _. apply neverFails_stopCompanion.
Qed.

(** X16: [StopWorkload], by what the engine answers to the inspection of the
    workload. A workload that the engine does not know, or that does not
    run, is stopped already: the call succeeds and the engine is asked for
    nothing more. Another failure of the inspection is returned. For a
    workload that runs, a failure to stop it is returned; once it is
    stopped, the call does not return an error any more, whatever becomes
    of the look-up and the stop of its egress and dns containers. *)
Theorem stop_workload_outcomes (workloadID : string) (w : World E)
    (r : result InspectResponse) (e1 : E) :
  doContainerInspect api workloadID (engine w) = (r, e1) ->
  let inspected := {| engine := e1; calls := calls w ++ [ContainerInspect workloadID] |} in
  match r with
  | Ok info =>
      if Running info then
        forall r2 e2,
          doContainerStop api workloadID 30 e1 = (r2, e2) ->
          match r2 with
          | Ok _ => forall err, fst (StopWorkload api workloadID w) <> Error err
          | Error err =>
              StopWorkload api workloadID w
              = (Error (ContainerError err workloadID "failed to stop workload"),
                 {| engine := e2;
                    calls := calls inspected ++ [ContainerStop workloadID 30] |})
          | Panic _ => True
          end
      else StopWorkload api workloadID w = (Ok (), inspected)
  | Error err =>
      if IsNotFound err then StopWorkload api workloadID w = (Ok (), inspected)
      else err <> ErrContainerNotFound ->
           StopWorkload api workloadID w
           = (Error (ContainerError err workloadID "failed to inspect workload"), inspected)
  | Panic _ => True
  end.
Proof.
  intros Hinsp inspected. subst inspected. cbn [calls].
  destruct r as [info|err|p]; [| |done].
  - destruct (Running info) eqn:Hrun.
    + intros [[]|err|p] e2 Hstop; [| |done].
      * by apply (stop_workload_companions_best_effort _ _ _ _ _ Hinsp Hrun Hstop).
      * unfold StopWorkload.
        erewrite bind_Ok; cycle 1.
        { unfold try. erewrite IsWorkloadRunning_Ok by exact Hinsp. reflexivity. }
        rewrite Hrun. cbn [negb]. cbv zeta.
        unfold orFail, try, call, mbind, M_bind, fail. cbn [engine calls].
        by rewrite Hstop.
    + by apply (stop_missing_or_stopped_workload _ _ (Ok info)).
  - destruct (IsNotFound err) eqn:Hnf.
    + by apply (stop_missing_or_stopped_workload _ _ (Error err)).
    + intros Hne.
      unfold StopWorkload, IsWorkloadRunning, try, call, mbind, M_bind, mret, M_ret, fail.
      rewrite Hinsp. cbn [engine calls]. rewrite Hnf. by destruct err.
Qed.

End StopWorkload.

Section RemoveWorkload.
Import strings docker reconcile client calllog trace.
Context {E : Type} (api : API E).

Lemma external_lookup_findExistingContainer (name : string) :
  logs (fun c => c <> NetworkList "toolhive-external") (findExistingContainer api name).
Proof.
  unfold findExistingContainer.
  apply logs_bind; [|intros ?; apply logs_ret].
  apply logs_orFail, logs_call. discriminate.
Qed.

Lemma external_lookup_removeCompanion (name what : string) :
  logs (fun c => c <> NetworkList "toolhive-external") (removeCompanion api name what).
Proof.
  unfold removeCompanion.
  apply logs_bind; [apply logs_try, external_lookup_findExistingContainer|].
  intros [companionId|e|p]; [|apply logs_ret..].
  apply logs_bind; [apply logs_try, logs_call; discriminate|].
  intros [?|e|p]; [apply logs_ret| |apply logs_panic].
  destruct (IsNotFound e); [apply logs_ret|apply logs_fail].
Qed.

Lemma external_lookup_deleteNetwork (name : string) :
  name <> "toolhive-external" ->
  logs (fun c => c <> NetworkList "toolhive-external") (deleteNetwork api name).
Proof.
  intros Hname. unfold deleteNetwork.
  apply logs_bind; [apply logs_call; congruence|].
  intros [|networkID ?]; [apply logs_fail|].
  apply logs_orFail, logs_call. discriminate.
Qed.

(** X17: The shared external network outlives the workload while other ToolHive
    containers remain: when the listing by the label toolhive=true is never
    empty, [RemoveWorkload] does not as much as look the network
    toolhive-external up, so it does not remove it. *)
Theorem remove_workload_keeps_external_network (workloadID : string) (w : World E) :
  (forall e containers e',
     doContainerList api {| All := true; Filters := [("label", "toolhive=true")] |} e
     = (Ok containers, e') -> containers <> []) ->
  exists newCalls,
    calls (snd (RemoveWorkload api workloadID w)) = calls w ++ newCalls
    /\ ~ In (NetworkList "toolhive-external") newCalls.
Proof.
  intros Hlist.
  assert (logs (fun c => c <> NetworkList "toolhive-external")
               (RemoveWorkload api workloadID)) as Hlogs.
  { unfold RemoveWorkload.
    apply logs_bind; [apply logs_try, logs_call; discriminate|]. intros r.
    apply logs_bind; [apply logs_try, logs_call; discriminate|].
    intros [?|e|p]; [| |apply logs_panic].
    2:{ destruct (IsNotFound e); [apply logs_ret|apply logs_fail]. }
    cbv zeta.
    apply logs_bind; [apply external_lookup_removeCompanion|]. intros goOn.
    destruct (negb goOn); [apply logs_ret|].
    apply logs_bind; [apply external_lookup_removeCompanion|]. intros goOn'.
    destruct (negb goOn'); [apply logs_ret|].
    apply logs_bind_post with (R := fun containers : list Summary => containers <> []).
    { apply logs_orFail, logs_call. discriminate. }
    { apply returns_orFail. intros w0 containers w1. unfold call.
      destruct (doContainerList api _ (engine w0)) as [r0 e0] eqn:Hl.
      intros [= -> _]. by apply (Hlist _ _ _ Hl). }
    intros containers Hne.
    apply logs_bind.
    { apply logs_try, external_lookup_deleteNetwork.
      intros Heq. symmetry in Heq. by apply internal_not_external in Heq. }
    intros _. destruct containers; [done|]. apply logs_ret. }
  destruct (Hlogs w) as (cs & Hcs & HP).
  exists cs. split; [exact Hcs|].
  intros Hin%list_elem_of_In. rewrite Forall_forall in HP. by apply (HP _ Hin).
Qed.

End RemoveWorkload.

Section StopRemoveWitnesses.
Import strings docker reconcile client calllog trace fake.

Lemma stop_workload_outcomes_witness :
  StopWorkload api "abc123" {| engine := [existingFetch]; calls := [] |}
  = (Ok (), {| engine := [existingFetch]; calls := [] ++ [ContainerInspect "abc123"] |}).
Proof.
  apply (stop_workload_outcomes api "abc123"
           {| engine := [existingFetch]; calls := [] |} (Ok (inspect existingFetch))).
  reflexivity.
Defined.

Lemma remove_workload_keeps_external_network_witness :
  let busy : API Engine :=
    {| doContainerList := fun _ e => (Ok [{| ID := "def456"; Names := ["/other"] |}], e);
       doContainerInspect := doContainerInspect api;
       doContainerCreate := doContainerCreate api;
       doContainerStart := doContainerStart api;
       doContainerStop := doContainerStop api;
       doContainerRemove := doContainerRemove api;
       doNetworkList := doNetworkList api;
       doNetworkCreate := doNetworkCreate api;
       doNetworkRemove := doNetworkRemove api;
       doImagePull := doImagePull api |} in
  exists newCalls,
    calls (snd (RemoveWorkload busy "abc123" {| engine := [existingFetch]; calls := [] |}))
    = [] ++ newCalls
    /\ ~ In (NetworkList "toolhive-external") newCalls.
Proof.
  intros busy.
  apply (remove_workload_keeps_external_network busy "abc123"
           {| engine := [existingFetch]; calls := [] |}).
  intros e containers e' [= <- _]. discriminate.
Defined.

End StopRemoveWitnesses.
(** ** More on the HTTP and SSE proxy *)

Section PostAccepted.
Import strings httpsse.
Context {Msg : Type} (DecodeMessage : string -> result Msg).

(** X18: What a request to /messages does to the proxy. It is answered 202
    exactly when it is a POST with a non-empty session id that names a
    client, its body can be read and decodes, and the channel to the
    container has room; the message is then the newest on that channel and
    nothing else changes. On every other answer the proxy is left exactly
    as it was: nothing reaches the container. *)
Theorem post_accepted_or_untouched (p : HTTPSSEProxy (Msg:=Msg)) (r : Request) :
  let '(p', resp) := handlePostRequest DecodeMessage p r in
  (Status resp = 202 <->
     Method r = "POST" /\ SessionID r <> ""
     /\ is_Some (sseClients p !! SessionID r)
     /\ (exists body msg, Body r = Ok body /\ DecodeMessage body = Ok msg)
     /\ (length (buffer (messageCh p)) < capacity (messageCh p))%nat)
  /\ (Status resp = 202 ->
      exists body msg,
        Body r = Ok body /\ DecodeMessage body = Ok msg
        /\ buffer (messageCh p') = buffer (messageCh p) ++ [msg]
        /\ capacity (messageCh p') = capacity (messageCh p)
        /\ sseClients p' = sseClients p /\ pendingMessages p' = pendingMessages p
        /\ responseCh p' = responseCh p)
  /\ (Status resp <> 202 -> p' = p).
Proof.
  unfold handlePostRequest.
  destruct (String.eqb_spec (Method r) "POST") as [Hm|Hm]; cbn [negb].
  2:{ cbn. split; [split; [done|by intros [? _]]|]. split; done. }
  destruct (String.eqb_spec (SessionID r) "") as [Hs|Hs].
  { cbn. split; [split; [done|by intros (_ & ? & _)]|]. split; done. }
  destruct (sseClients p !! SessionID r) as [client|] eqn:Hc.
  2:{ cbn. split; [split; [done|]|by split].
      intros (_ & _ & [? ?] & _). done. }
  destruct (Body r) as [body|e|e] eqn:Hb.
  2,3: cbn; (split; [split; [done|]|by split]);
       intros (_ & _ & _ & (? & ? & ? & _) & _); done.
  destruct (DecodeMessage body) as [msg|e|e] eqn:Hd.
  2,3: cbn; (split; [split; [done|]|by split]);
       intros (_ & _ & _ & (b & m & [= <-] & Hd') & _); congruence.
  unfold SendMessageToDestination, trySend.
  destruct (Nat.ltb_spec (length (buffer (messageCh p))) (capacity (messageCh p)))
    as [Hroom|Hfull]; cbn.
  - split; [split; [intros _|done]|split; [intros _|done]].
    + repeat split; try done. by exists body, msg.
    + by exists body, msg.
  - split; [split; [done|]|by split].
    intros (_ & _ & _ & _ & ?). lia.
Qed.

End PostAccepted.

Section Broadcast.
Import strings httpsse.
Context {Msg : Type} (EncodeMessage : Msg -> result string).

(** One forwarded message, seen from a client that has room for it. *)
Lemma forward_to_client (p : HTTPSSEProxy (Msg:=Msg)) (msg : Msg) (data : string)
    (id : string) (client : SSEClient) :
  EncodeMessage msg = Ok data ->
  sseClients p !! id = Some client ->
  (length (buffer (MessageCh client)) < capacity (MessageCh client))%nat ->
  sseClients (fst (ForwardResponseToClients EncodeMessage p msg)) !! id
  = Some {| MessageCh := {| buffer := buffer (MessageCh client) ++ [messageEvent data];
                            capacity := capacity (MessageCh client) |};
            CreatedAt := CreatedAt client |}
  /\ pendingMessages (fst (ForwardResponseToClients EncodeMessage p msg))
     = pendingMessages p.
Proof.
  intros Henc Hc Hroom. unfold ForwardResponseToClients. rewrite Henc.
  assert ((0 <? size (sseClients p))%nat = true) as ->.
  { apply Nat.ltb_lt. destruct (size (sseClients p)) eqn:Hsz; [|lia].
    apply map_size_empty_inv in Hsz. rewrite Hsz in Hc. by rewrite lookup_empty in Hc. }
  unfold sendSSEEvent, withClients. cbn [fst sseClients pendingMessages].
  split; [|done]. rewrite lookup_omap, Hc. cbn. unfold trySend.
  apply Nat.ltb_lt in Hroom. by rewrite Hroom.
Qed.

(** X19: Fan-out: a message from the container that finds clients connected is
    put at the end of the queue of every client that has room for it; a
    client whose queue is full is dropped from the proxy; the message is
    not kept as pending. *)
Theorem broadcast_reaches_every_client (p : HTTPSSEProxy (Msg:=Msg)) (msg : Msg)
    (data : string) :
  EncodeMessage msg = Ok data ->
  sseClients p <> ∅ ->
  let p' := fst (ForwardResponseToClients EncodeMessage p msg) in
  snd (ForwardResponseToClients EncodeMessage p msg) = Ok ()
  /\ pendingMessages p' = pendingMessages p
  /\ forall id,
       queueOf p' id
       = match sseClients p !! id with
         | Some client =>
             if (length (buffer (MessageCh client)) <? capacity (MessageCh client))%nat
             then Some (buffer (MessageCh client) ++ [messageEvent data])
             else None
         | None => None
         end.
Proof.
  intros Henc Hne p'. subst p'. unfold ForwardResponseToClients. rewrite Henc.
  assert ((0 <? size (sseClients p))%nat = true) as ->.
  { apply Nat.ltb_lt. destruct (size (sseClients p)) eqn:Hsz; [|lia].
    by apply map_size_empty_inv in Hsz. }
  unfold sendSSEEvent, withClients, queueOf. cbn [fst snd sseClients pendingMessages].
  split; [done|]. split; [done|].
  intros id. rewrite lookup_omap.
  destruct (sseClients p !! id) as [client|]; [|done]. unfold trySend, messageEvent.
  cbn [mbind option_bind].
  destruct (length (buffer (MessageCh client)) <? capacity (MessageCh client))%nat;
    reflexivity.
Qed.

(** X20: In order: the messages that the container emits while a client is
    connected and its queue has room for them are queued for that client
    in the order in which they were emitted, behind what was queued
    before; none of them is kept as pending. *)
Theorem connected_client_receives_in_order (msgs : list Msg) (datas : list string)
    (p : HTTPSSEProxy (Msg:=Msg)) (id : string) (client : SSEClient) :
  sseClients p !! id = Some client ->
  Forall2 (fun m d => EncodeMessage m = Ok d) msgs datas ->
  (length (buffer (MessageCh client)) + length msgs <= capacity (MessageCh client))%nat ->
  let p' := forwardAll EncodeMessage p msgs in
  queueOf p' id = Some (buffer (MessageCh client) ++ (messageEvent <$> datas))
  /\ pendingMessages p' = pendingMessages p.
Proof.
  intros Hc Henc. revert p client Hc.
  induction Henc as [|m d msgs datas Hm _ IH]; intros p client Hc Hlen p'; subst p'.
  - cbn. unfold queueOf. rewrite Hc. cbn. by rewrite app_nil_r.
  - cbn [length] in Hlen. unfold forwardAll. cbn [fold_left].
    destruct (forward_to_client p m d id client Hm Hc) as [Hc1 Hp1]; [lia|].
    specialize (IH _ _ Hc1). cbn [MessageCh buffer capacity] in IH.
    destruct IH as [IHq IHp]; [rewrite length_app; cbn; lia|].
    unfold forwardAll in IHq, IHp. rewrite IHq, IHp, Hp1.
    split; [|done]. cbn [fmap list_fmap]. by rewrite <- app_assoc.
Qed.

End Broadcast.

Section Connection.
Import strings httpsse.
Context {Msg : Type} (DecodeMessage : string -> result Msg).

Lemma sendPending_overflow (pending : list PendingSSEMessage) (ch : Chan string) :
  (length (buffer ch) <= capacity ch)%nat ->
  (capacity ch < length (buffer ch) + length pending)%nat ->
  sendPending ch pending
  = ({| buffer := buffer ch
                  ++ take (capacity ch - length (buffer ch))
                          ((fun m => ToSSEString (Message m)) <$> pending);
        capacity := capacity ch |}, false).
Proof.
  revert ch. induction pending as [|m pending IH]; intros ch Hle Hlt.
  - cbn in Hlt. lia.
  - cbn [sendPending]. unfold trySend.
    destruct (Nat.ltb_spec (length (buffer ch)) (capacity ch)) as [Hroom|Hfull].
    + rewrite IH; cbn [buffer capacity].
      * rewrite length_app. cbn [length fmap list_fmap].
        replace (capacity ch - length (buffer ch))%nat
          with (S (capacity ch - (length (buffer ch) + 1)))%nat by lia.
        cbn [take]. by rewrite <- app_assoc.
      * rewrite length_app. cbn. lia.
      * rewrite length_app. cbn [length] in *. lia.
    + replace (capacity ch - length (buffer ch))%nat with 0%nat by lia.
      cbn [take]. rewrite app_nil_r. by destruct ch.
Qed.

(** X21: More pending messages than a queue holds: the client that connects is
    sent the first 100 of them, oldest first, and the pending list is left
    as it is, whole, for the next client. *)
Theorem pending_overflow_keeps_pending (p : HTTPSSEProxy (Msg:=Msg)) (r : Request)
    (clientID : string) (now : Z) (flusher : bool) :
  (100 < length (pendingMessages p))%nat ->
  let p' := fst (handleSSEConnection p r clientID now flusher) in
  queueOf p' clientID
  = Some (take 100 ((fun m => ToSSEString (Message m)) <$> pendingMessages p))
  /\ pendingMessages p' = pendingMessages p.
Proof.
  intros Hlen p'. subst p'. unfold handleSSEConnection, processPendingMessages.
  cbn [withClients pendingMessages sseClients].
  destruct (Nat.eqb_spec (length (pendingMessages p)) 0) as [Hz|_]; [lia|].
  rewrite sendPending_overflow by (cbn; lia).
  cbn [makeChan buffer capacity length app Nat.sub withClients pendingMessages sseClients].
  unfold queueOf. destruct flusher; cbn; by rewrite lookup_insert_eq.
Qed.

(** X22: The session that is advertised is the session that is known:
    [handleSSEConnection] answers with the endpoint event for the URL
    <scheme>://<host>/messages?session_id=<id> (the scheme is the one of the
    X-Forwarded-Proto header when it is set, else https under TLS, else
    http); a client is then registered under that id, and a POST with that
    session id is no longer answered 404. *)
Theorem advertised_session_is_known (p : HTTPSSEProxy (Msg:=Msg)) (r r' : Request)
    (clientID : string) (now : Z) :
  clientID <> "" ->
  Method r' = "POST" ->
  SessionID r' = clientID ->
  let p' := fst (handleSSEConnection p r clientID now true) in
  let scheme := if String.eqb (XForwardedProto r) ""
                then (if TLS r then "https" else "http")
                else XForwardedProto r in
  snd (handleSSEConnection p r clientID now true)
  = Ok (ToSSEString (NewSSEMessage "endpoint"
          (scheme +:+ "://" +:+ Host r +:+ "/messages?session_id=" +:+ clientID)))
  /\ is_Some (sseClients p' !! clientID)
  /\ Status (snd (handlePostRequest DecodeMessage p' r')) <> 404.
Proof.
  intros Hid Hm Hs p' scheme.
  assert (is_Some (sseClients p' !! clientID)) as Hsome.
  { subst p'. unfold handleSSEConnection.
    destruct (processPendingMessages _ _ _) as [p1 ch]. cbn.
    rewrite lookup_insert_eq. by eexists. }
  split; [|split; [exact Hsome|]].
  - unfold handleSSEConnection. destruct (processPendingMessages _ _ _) as [p1 ch].
    cbn [negb snd]. subst scheme. unfold HTTPMessagesEndpoint.
    destruct (String.eqb (XForwardedProto r) ""); cbn [negb];
      by rewrite !string_app_assoc.
  - unfold handlePostRequest. rewrite Hm, Hs. apply String.eqb_neq in Hid.
    rewrite Hid. cbn [negb]. destruct Hsome as [client ->].
    destruct (Body r') as [body| |]; [|done..].
    destruct (DecodeMessage body) as [msg| |]; [|done..].
    by destruct (SendMessageToDestination _ _) as [? [| |]].
Qed.

(** X23: A connection whose writer cannot stream is refused with "Streaming not
    supported", but only after its client was registered and the pending
    messages were handed to it: the client stays in the proxy, and pending
    messages that fitted its queue are gone from the pending list. *)
Theorem connection_without_flusher_keeps_client (p : HTTPSSEProxy (Msg:=Msg))
    (r : Request) (clientID : string) (now : Z) :
  let '(p', res) := handleSSEConnection p r clientID now false in
  res = Error (Errorf "Streaming not supported")
  /\ is_Some (sseClients p' !! clientID)
  /\ ((length (pendingMessages p) <= 100)%nat ->
      pendingMessages p' = []
      /\ queueOf p' clientID
         = Some ((fun m => ToSSEString (Message m)) <$> pendingMessages p)).
Proof.
  unfold handleSSEConnection, processPendingMessages.
  cbn [withClients pendingMessages sseClients].
  destruct (Nat.eqb_spec (length (pendingMessages p)) 0) as [Hz|Hnz].
  - cbn. split; [done|]. split; [rewrite lookup_insert_eq; by eexists|].
    intros _. apply length_zero_iff_nil in Hz. rewrite Hz.
    split; [done|]. unfold queueOf. cbn. by rewrite lookup_insert_eq.
  - destruct (sendPending (makeChan 100) (pendingMessages p)) as [ch sent] eqn:Hsend.
    destruct sent; cbn.
    + split; [done|]. split; [rewrite lookup_insert_eq; by eexists|].
      intros Hlen. split; [done|].
      rewrite sendPending_fits in Hsend by (cbn; lia). simplify_eq.
      unfold queueOf. cbn. by rewrite lookup_insert_eq.
    + split; [done|]. split; [rewrite lookup_insert_eq; by eexists|].
      intros Hlen. rewrite sendPending_fits in Hsend by (cbn; lia). simplify_eq.
Qed.

End Connection.

Section ProxyWitnesses.
Import strings httpsse.

Lemma broadcast_reaches_every_client_witness :
  let p := withClients (NewHTTPSSEProxy (Msg:=string))
             {["client-1" := {| MessageCh := makeChan 100; CreatedAt := 0 |}]} in
  snd (ForwardResponseToClients (fun m : string => Ok m) p "ping") = Ok ().
Proof.
  intros p.
  refine (proj1 (broadcast_reaches_every_client (fun m : string => Ok m) p "ping" "ping"
                   _ _)).
  - reflexivity.
  - intros H. apply (f_equal (fun m => m !! "client-1")) in H.
    cbn in H. by rewrite lookup_singleton_eq, lookup_empty in H.
Defined.

Lemma connected_client_receives_in_order_witness :
  let p := withClients (NewHTTPSSEProxy (Msg:=string))
             {["client-1" := {| MessageCh := makeChan 100; CreatedAt := 0 |}]} in
  queueOf (forwardAll (fun m : string => Ok m) p ["first"; "second"]) "client-1"
  = Some ([] ++ (messageEvent <$> ["first"; "second"])).
Proof.
  intros p.
  refine (proj1 (connected_client_receives_in_order (fun m : string => Ok m)
                   ["first"; "second"] ["first"; "second"] p "client-1"
                   {| MessageCh := makeChan 100; CreatedAt := 0 |} _ _ _)).
  - apply lookup_singleton_eq.
  - by repeat constructor.
  - cbn. lia.
Defined.

Lemma pending_overflow_keeps_pending_witness :
  let msgs := (fun i => Itoa (Z.of_nat i)) <$> seq 0 101 in
  let p := forwardAll (fun m : string => Ok m) NewHTTPSSEProxy msgs in
  let r := {| Method := "GET"; Host := "localhost:8080"; TLS := false;
              XForwardedProto := ""; SessionID := ""; Body := Ok "" |} in
  pendingMessages (fst (handleSSEConnection p r "client-1" 0 true)) = pendingMessages p.
Proof.
  intros msgs p r.
  refine (proj2 (pending_overflow_keeps_pending p r "client-1" 0 true _)).
  vm_compute. lia.
Defined.

Lemma advertised_session_is_known_witness :
  let r := {| Method := "GET"; Host := "localhost:8080"; TLS := false;
              XForwardedProto := ""; SessionID := ""; Body := Ok "" |} in
  let r' := {| Method := "POST"; Host := "localhost:8080"; TLS := false;
               XForwardedProto := ""; SessionID := "client-1"; Body := Ok "ping" |} in
  Status (snd (handlePostRequest (fun body : string => Ok body)
                 (fst (handleSSEConnection NewHTTPSSEProxy r "client-1" 0 true)) r'))
  <> 404.
Proof.
  intros r r'.
  refine (proj2 (proj2 (advertised_session_is_known (fun body : string => Ok body)
                          NewHTTPSSEProxy r r' "client-1" 0 _ _ _))).
  - discriminate.
  - reflexivity.
  - reflexivity.
Defined.

End ProxyWitnesses.
(** ** More on the recovery of dirty output *)

Section Sanitize.
Import strings httpsse transport.
Context (IsPrint : rune -> bool).

Lemma filter_sublist (f : rune -> bool) (l : list rune) : List.filter f l `sublist_of` l.
Proof.
  induction l as [|r l IH]; cbn [List.filter]; [constructor|].
  destruct (f r); by constructor.
Qed.

Lemma filter_Forall (f : rune -> bool) (l : list rune) :
  Forall (fun r => f r = true) (List.filter f l).
Proof.
  induction l as [|r l IH]; cbn [List.filter]; [constructor|].
  destruct (f r) eqn:Hr; [by constructor|done].
Qed.

Lemma Index_split (input : list rune) (c : rune) :
  Index input c <> -1 ->
  exists g rest, input = g ++ c :: rest /\ (c ∉ g) /\ Index input c = Z.of_nat (length g).
Proof.
  induction input as [|r input IH]; cbn [Index]; [done|].
  destruct (Z.eqb_spec r c) as [->|Hr].
  - intros _. exists [], input. split; [done|]. split; [apply not_elem_of_nil|done].
  - destruct (Z.eqb_spec (Index input c) (-1)) as [|Hi]; [done|]. intros _.
    destruct (IH Hi) as (g & rest & -> & Hg & ->).
    exists (r :: g), rest. split; [done|]. split.
    + apply not_elem_of_cons. split; [congruence|done].
    + cbn [length]. lia.
Qed.

Lemma LastIndex_ge (input : list rune) (c : rune) : -1 <= LastIndex input c.
Proof.
  induction input as [|r input IH]; cbn [LastIndex]; [lia|].
  destruct (Z.eqb_spec (LastIndex input c) (-1)); [|lia].
  destruct (r =? c); lia.
Qed.

Lemma LastIndex_none_inv (input : list rune) (c : rune) :
  LastIndex input c = -1 -> c ∉ input.
Proof.
  induction input as [|r input IH]; cbn [LastIndex]; [intros _; apply not_elem_of_nil|].
  pose proof (LastIndex_ge input c).
  destruct (Z.eqb_spec (LastIndex input c) (-1)) as [Hl|Hl]; [|lia].
  destruct (Z.eqb_spec r c) as [|Hr]; [done|]. intros _.
  apply not_elem_of_cons. split; [congruence|by apply IH].
Qed.

Lemma LastIndex_split (input : list rune) (c : rune) :
  LastIndex input c <> -1 ->
  exists pre g, input = pre ++ c :: g /\ (c ∉ g)
                /\ LastIndex input c = Z.of_nat (length pre).
Proof.
  induction input as [|r input IH]; cbn [LastIndex]; [done|].
  destruct (Z.eqb_spec (LastIndex input c) (-1)) as [Hl|Hl].
  - destruct (Z.eqb_spec r c) as [->|Hr]; [|done]. intros _.
    exists [], input. split; [done|]. split; [by apply LastIndex_none_inv|done].
  - intros _. destruct (IH Hl) as (pre & g & -> & Hg & ->).
    exists (r :: pre), g. split; [done|]. split; [done|]. cbn [length]. lia.
Qed.

(** What the recovery answers: nothing, or the kept runes of the text from
    the first opening brace to the last closing brace. *)
Lemma sanitize_cases (input : list rune) :
  sanitizeBinaryString IsPrint input = []
  \/ exists g1 body g2,
       input = g1 ++ (openBrace :: body ++ [closeBrace]) ++ g2
       /\ sanitizeBinaryString IsPrint input
          = List.filter (fun r => IsPrint r || isSpace r)
                        (openBrace :: body ++ [closeBrace]).
Proof.
  unfold sanitizeBinaryString.
  destruct (Z.eqb_spec (Index input openBrace) (-1)) as [|Hi]; [by left|].
  destruct (Z.eqb_spec (LastIndex input closeBrace) (-1)) as [|Hl]; [by left|].
  cbn [orb].
  destruct (Z.ltb_spec (LastIndex input closeBrace) (Index input openBrace)) as [|Hle];
    [by left|]. right.
  destruct (Index_split _ _ Hi) as (g1 & rest & Hin1 & Hg1 & Hi1).
  destruct (LastIndex_split _ _ Hl) as (pre & g2 & Hin2 & Hg2 & Hl2).
  rewrite Hi1, Hl2 in Hle |- *.
  assert (exists body, pre = g1 ++ openBrace :: body) as [body ->].
  { rewrite Hin1 in Hin2. apply app_eq_app in Hin2 as [l [[-> Hl']|[-> Hl']]].
    - destruct l as [|x l].
      + cbn in Hl'. injection Hl' as Hb _. discriminate Hb.
      + rewrite length_app in Hle. cbn [length] in Hle. lia.
    - destruct l as [|x l].
      + cbn in Hl'. injection Hl' as Hb _. discriminate Hb.
      + cbn in Hl'. injection Hl' as <- _. by exists l. }
  exists g1, body, g2. split.
  { rewrite Hin2 at 1. rewrite <- !app_assoc. cbn [app]. by rewrite <- !app_assoc. }
  assert (slice input (Z.of_nat (length g1))
            (Z.of_nat (length (g1 ++ openBrace :: body)) + 1)
          = openBrace :: body ++ [closeBrace]) as ->.
  { unfold slice. rewrite Hin2, <- !app_assoc, Nat2Z.id, drop_app_length.
    rewrite length_app. cbn [length app].
    replace (Z.to_nat _) with (S (length body + 1)) by lia.
    cbn [take]. f_equal.
    replace (length body + 1)%nat with (length (body ++ [closeBrace]))
      by (rewrite length_app; cbn; lia).
    change (closeBrace :: g2) with ([closeBrace] ++ g2).
    by rewrite app_assoc, take_app_length. }
  by rewrite keep_fold_filter.
Qed.

(** X24: The recovery never adds to a line: what it hands to the decoder is made
    of runes of the line, in their order, each of them printable, a space
    or a line feed. And it is stable: when the braces are printable (as
    they are for unicode.IsPrint), recovering a recovered text changes
    nothing. *)
Theorem sanitize_clean_and_stable (input : list rune) :
  Forall (fun r => IsPrint r || isSpace r = true) (sanitizeBinaryString IsPrint input)
  /\ sanitizeBinaryString IsPrint input `sublist_of` input
  /\ (IsPrint openBrace = true -> IsPrint closeBrace = true ->
      sanitizeBinaryString IsPrint (sanitizeBinaryString IsPrint input)
      = sanitizeBinaryString IsPrint input).
Proof.
  destruct (sanitize_cases input) as [->|(g1 & body & g2 & Hin & ->)].
  - split; [constructor|]. split; [apply sublist_nil_l|done].
  - split; [apply filter_Forall|]. split.
    + rewrite Hin. apply sublist_inserts_l, sublist_inserts_r, filter_sublist.
    + intros Ho Hc. cbn [List.filter]. rewrite Ho. cbn [orb].
      rewrite List.filter_app. cbn [List.filter]. rewrite Hc. cbn [orb].
      pose proof (sanitize_between_garbage IsPrint []
                    (List.filter (fun r => IsPrint r || isSpace r) body) []) as H.
      cbv zeta in H. cbn [app] in H. rewrite app_nil_r in H. apply H.
      * apply not_elem_of_nil.
      * apply not_elem_of_nil.
      * constructor; [by rewrite Ho|]. apply Forall_app. split; [apply filter_Forall|].
        constructor; [by rewrite Hc|constructor].
Qed.

End Sanitize.

(** ** The lines of the container output *)

Section ProcessBuffer.
Import strings httpsse transport.
Context (IsPrint : rune -> bool) {Msg : Type}.
Context (DecodeMessage : list rune -> result Msg) (EncodeMessage : Msg -> result string).

(** X25: How the output arrives does not matter: processing a stretch of output
    in one go, or cut in two at any place (even inside a line) with the
    unfinished line carried over, parses the same lines and leaves the same
    unfinished line. *)
Theorem processBuffer_chunks (chunk1 chunk2 line : list rune)
    (p : HTTPSSEProxy (Msg:=Msg)) :
  processBuffer IsPrint DecodeMessage EncodeMessage p line (chunk1 ++ chunk2)
  = let '(p1, line1) :=
      processBuffer IsPrint DecodeMessage EncodeMessage p line chunk1 in
    processBuffer IsPrint DecodeMessage EncodeMessage p1 line1 chunk2.
Proof.
  revert p line. induction chunk1 as [|c chunk1 IH]; intros p line; [reflexivity|].
  cbn [app processBuffer]. destruct (c =? 10); apply IH.
Qed.

Lemma processBuffer_line (l line rest : list rune) (p : HTTPSSEProxy (Msg:=Msg)) :
  10 ∉ l ->
  processBuffer IsPrint DecodeMessage EncodeMessage p line (l ++ 10 :: rest)
  = processBuffer IsPrint DecodeMessage EncodeMessage
      (match line ++ l with
       | [] => p
       | _ => parseAndForwardJSONRPC IsPrint DecodeMessage EncodeMessage p (line ++ l)
       end) [] rest.
Proof.
  revert line. induction l as [|c l IH]; intros line Hl.
  - cbn [app processBuffer]. rewrite app_nil_r. reflexivity.
  - apply not_elem_of_cons in Hl as [Hc Hl]. cbn [app processBuffer].
    destruct (Z.eqb_spec c 10); [congruence|].
    rewrite (IH _ Hl). by rewrite <- app_assoc.
Qed.

(** X26: Framing: the output is cut at the line feeds; every line that is not
    empty is parsed, in order, without its line feed; what follows the last
    line feed is kept as the unfinished line. *)
Theorem processBuffer_lines (ls : list (list rune)) (rest : list rune)
    (p : HTTPSSEProxy (Msg:=Msg)) :
  Forall (fun l => 10 ∉ l) ls -> 10 ∉ rest ->
  processBuffer IsPrint DecodeMessage EncodeMessage p []
    (flat_map (fun l => l ++ [10]) ls ++ rest)
  = (fold_left (fun p l =>
                  match l with
                  | [] => p
                  | _ => parseAndForwardJSONRPC IsPrint DecodeMessage EncodeMessage p l
                  end) ls p,
     rest).
Proof.
  intros Hls Hrest. revert p. induction Hls as [|l ls Hl _ IH]; intros p.
  - cbn [flat_map app fold_left]. clear -Hrest.
    assert (forall line, processBuffer IsPrint DecodeMessage EncodeMessage p line rest
                         = (p, line ++ rest)) as H.
    { induction rest as [|c rest IH]; intros line; cbn [processBuffer].
      - by rewrite app_nil_r.
      - apply not_elem_of_cons in Hrest as [Hc Hrest].
        destruct (Z.eqb_spec c 10); [congruence|].
        rewrite (IH Hrest). by rewrite <- app_assoc. }
    apply H.
  - cbn [flat_map fold_left]. rewrite <- !app_assoc. cbn [app].
    rewrite (processBuffer_line _ _ _ _ Hl). cbn [app]. apply IH.
Qed.

End ProcessBuffer.

Section ProcessBufferWitness.
Import strings httpsse transport.

Lemma processBuffer_lines_witness :
  processBuffer asciiIsPrint (fun l => Ok l) (fun _ : list rune => Ok "{}")
    (NewHTTPSSEProxy (Msg:=list rune)) []
    (flat_map (fun l => l ++ [10]) [runes "{}"; []; runes "{}"] ++ runes "{")
  = (fold_left (fun p l =>
                  match l with
                  | [] => p
                  | _ => parseAndForwardJSONRPC asciiIsPrint (fun l => Ok l)
                           (fun _ : list rune => Ok "{}") p l
                  end) [runes "{}"; []; runes "{}"] NewHTTPSSEProxy,
     runes "{").
Proof.
  apply processBuffer_lines.
  - repeat constructor; vm_compute; intros Hin;
      repeat (apply elem_of_cons in Hin as [Hin|Hin]; [done|]);
      by apply elem_of_nil in Hin.
  - vm_compute. intros Hin.
    repeat (apply elem_of_cons in Hin as [Hin|Hin]; [done|]).
    by apply elem_of_nil in Hin.
Defined.

End ProcessBufferWitness.

(** ** Stopping, and the exit of the container *)

Section Teardown.
Import strings transport stdio.

(** X27: What stopping a running transport does, and in which order: the
    shutdown channel is closed first; then the monitor is stopped, the
    proxy is stopped and stdin is closed, each if it is set; then the
    runtime is asked whether the container runs, and the container is
    stopped exactly when the runtime is set, the container id is not empty
    and the answer is yes. The container is never removed, no error is
    returned, and the transport no longer reports that it runs. *)
Theorem stop_teardown (a : Answers) (t : StdioTransport) :
  shutdownCh t = false ->
  let '(t', effects, r) := Stop a t in
  r = Ok ()
  /\ IsRunning t' = Ok false
  /\ effects `sublist_of`
       [CloseShutdownCh; StopMonitoring; ProxyStop; StdinClose;
        IsContainerRunning (containerID t); StopContainer (containerID t)]
  /\ head effects = Some CloseShutdownCh
  /\ (In StopMonitoring effects <-> monitor t = true)
  /\ (In ProxyStop effects <-> httpProxy t = true)
  /\ (In StdinClose effects <-> stdin t = true)
  /\ (In (StopContainer (containerID t)) effects
      <-> runtime t = true /\ containerID t <> ""
          /\ isContainerRunning a = Ok true)
  /\ (forall id, ~ In (RemoveContainer id) effects).
Proof.
  intros Hs. unfold Stop. rewrite Hs.
  destruct (String.eqb_spec (containerID t) "") as [Hid|Hid];
    destruct (monitor t), (httpProxy t), (stdin t), (runtime t);
    cbn [andb negb app];
    try destruct (isContainerRunning a) as [[]| |];
    (split; [done|]); (split; [done|]);
    (split; [by repeat first [apply sublist_nil | apply sublist_skip | apply sublist_cons]|]);
    (split; [done|]); cbn [In];
    intuition (try done; try congruence; try discriminate).
Qed.

(** After the exit of the container has been handled, the transport does
    not run any more, and neither a call to [Stop] nor a second exit event
    does anything. *)
Theorem container_exit_stops_once (a a' : Answers) (t : StdioTransport) :
  let '(t1, _) := handleContainerExit a t in
  IsRunning t1 = Ok false
  /\ Stop a' t1 = (t1, [], Ok ())
  /\ handleContainerExit a' t1 = (t1, []).
Proof.
  unfold handleContainerExit, IsRunning.
  destruct (shutdownCh t) eqn:Hs.
  - rewrite Hs. split; [done|]. split; [by apply stop_when_shut_down|done].
  - destruct (Stop a t) as [[t1 effects] r] eqn:H.
    assert (shutdownCh t1 = true) as H1.
    { unfold Stop in H. rewrite Hs in H. by simplify_eq. }
    rewrite H1. split; [done|]. split; [by apply stop_when_shut_down|done].
Qed.

End Teardown.

Section TeardownWitness.
Import strings transport stdio.

Lemma stop_teardown_witness :
  let a := {| proxyStop := Ok (); stdinClose := Ok (); isContainerRunning := Ok true;
              stopContainer := Ok (); removeContainer := Ok () |} in
  let t := {| containerID := "abc123"; containerName := "fetch"; runtime := true;
              debug := false; shutdownCh := false; httpProxy := true; stdin := true;
              monitor := true |} in
  let '(t', effects, r) := Stop a t in
  r = Ok ()
  /\ IsRunning t' = Ok false
  /\ effects `sublist_of`
       [CloseShutdownCh; StopMonitoring; ProxyStop; StdinClose;
        IsContainerRunning (containerID t); StopContainer (containerID t)]
  /\ head effects = Some CloseShutdownCh
  /\ (In StopMonitoring effects <-> monitor t = true)
  /\ (In ProxyStop effects <-> httpProxy t = true)
  /\ (In StdinClose effects <-> stdin t = true)
  /\ (In (StopContainer (containerID t)) effects
      <-> runtime t = true /\ containerID t <> ""
          /\ isContainerRunning a = Ok true)
  /\ (forall id, ~ In (RemoveContainer id) effects).
Proof.
  intros a t. apply (stop_teardown a t). reflexivity.
Defined.

End TeardownWitness.

(** ** The middleware chain *)

Section Middlewares.
Import middlewares.
Context {Handler : Type}.

(** X29: The first middleware of the list ends up outermost: it is the first to
    see a request. Applying a list of middlewares is applying its tail and
    wrapping the result in its head; so a chain can be built in parts. *)
Theorem applyMiddlewares_outermost_first (handler : Handler)
    (middlewares1 middlewares2 : list (Handler -> Handler)) :
  applyMiddlewares handler (middlewares1 ++ middlewares2)
  = applyMiddlewares (applyMiddlewares handler middlewares2) middlewares1
  /\ applyMiddlewares handler middlewares1 = foldr (fun m h => m h) handler middlewares1
  /\ forall m, applyMiddlewares handler (m :: middlewares1)
               = m (applyMiddlewares handler middlewares1).
Proof.
  unfold applyMiddlewares. split; [|split].
  - by rewrite rev_app_distr, fold_left_app.
  - rewrite <- fold_left_rev_right, rev_involutive. reflexivity.
  - intros m. cbn [rev]. by rewrite fold_left_app.
Qed.

End Middlewares.

(** ** The transport types *)

Section TransportTypes.
Import strings docker reconcile client types.

(** Parsing accepts the four spellings stdio, STDIO, sse and SSE and nothing
    else; the type it answers is written in lower case and parses to
    itself; and every type that parses is a transport type that the
    permission configuration of a deployment supports. *)
Theorem ParseTransportType_round_trip (s : string) (t : TransportType) :
  ParseTransportType s = Some t ->
  (s = "stdio" \/ s = "STDIO" \/ s = "sse" \/ s = "SSE")
  /\ (t = TransportTypeStdio \/ t = TransportTypeSSE)
  /\ strings.upperASCII s = strings.upperASCII (TypeString t)
  /\ ParseTransportType (TypeString t) = Some t
  /\ forall ext profile,
       exists permissionConfig,
         getPermissionConfigFromProfile ext (Some profile) (TypeString t)
         = Ok permissionConfig.
Proof.
  unfold ParseTransportType, TypeString.
  destruct (String.eqb_spec s "stdio") as [->|H1]; cbn [orb].
  { intros [= <-]. repeat split; try (by left); try done. intros; by eexists. }
  destruct (String.eqb_spec s "STDIO") as [->|H2]; cbn [orb].
  { intros [= <-]. repeat split; try (by left); try done.
    - right; by left.
    - intros; by eexists. }
  destruct (String.eqb_spec s "sse") as [->|H3]; cbn [orb].
  { intros [= <-]. repeat split; try (by right); try done.
    - right; right; by left.
    - intros; by eexists. }
  destruct (String.eqb_spec s "SSE") as [->|H4]; cbn [orb]; [|done].
  intros [= <-]. repeat split; try (by right); try done.
  - right; right; by right.
  - intros; by eexists.
Qed.

Lemma ParseTransportType_round_trip_witness :
  ParseTransportType (TypeString TransportTypeStdio) = Some TransportTypeStdio.
Proof.
  refine (proj1 (proj2 (proj2 (proj2
            (ParseTransportType_round_trip "STDIO" TransportTypeStdio _))))).
  reflexivity.
Defined.

End TransportTypes.

(** ** The monitor *)

Section Monitor.
Import monitor.

(** X30: A monitor is good for one run. Starting a running monitor, and
    stopping a stopped one, changes nothing; but the stop channel is made
    only once, so when a monitor that was stopped is started again, the
    next stop closes the closed channel and panics. *)
Theorem monitor_single_use (m : Monitor) (isRunning : bool) (err : option error) :
  running m = true -> stopCh m = false ->
  StartMonitoring isRunning err m = (m, Ok ())
  /\ let '(m1, r1) := StopMonitoring m in
     r1 = Ok () /\ running m1 = false
     /\ StopMonitoring m1 = (m1, Ok ())
     /\ let '(m2, r2) := StartMonitoring true None m1 in
        r2 = Ok () /\ running m2 = true
        /\ StopMonitoring m2 = (m2, Panic "close of closed channel").
Proof.
  intros Hr Hs. unfold StartMonitoring, StopMonitoring. rewrite Hr, Hs. cbn.
  done.
Qed.

Lemma monitor_single_use_witness :
  let m := fst (StartMonitoring true None (NewMonitor "abc123" "fetch")) in
  StartMonitoring false None m = (m, Ok ()).
Proof.
  intros m.
  refine (proj1 (monitor_single_use m false None _ _)); reflexivity.
Defined.

End Monitor.
(** ** Overlapping stops, on an example *)

Section ConcurrentStopWitness.
Import strings transport.

Lemma overlapping_stops_tear_down_once_witness :
  let a := {| proxyStop := Ok (); stdinClose := Ok (); isContainerRunning := Ok true;
              stopContainer := Ok (); removeContainer := Ok () |} in
  let t := {| containerID := "abc123"; containerName := "fetch"; runtime := true;
              debug := false; shutdownCh := false; httpProxy := true; stdin := true;
              monitor := true |} in
  let '(pcs, s) := run a [0; 1; 0; 1; 0; 0; 0; 1; 1]%nat (calling 2 t) in
  Forall (fun p => p <> Panicked) pcs
  /\ effectsOf s `prefix_of` snd (fst (Stop a t))
  /\ (Exists (fun p => p = Returned) pcs ->
      Forall (fun p => p <> TearDown) pcs ->
      effectsOf s = snd (fst (Stop a t)) /\ transportOf s = fst (fst (Stop a t))).
Proof.
  intros a t.
  exact (overlapping_stops_tear_down_once a t eq_refl 2 [0; 1; 0; 1; 0; 0; 0; 1; 1]%nat).
Defined.

End ConcurrentStopWitness.
(** ** Reusing an existing container, dimension by dimension *)

Section MatchesDesired.
Import strings docker reconcile client reuse.



End MatchesDesired.

Section Reuse.
Import strings docker reconcile client calllog reuse.
Context {E : Type} (api : API E).


End Reuse.

Section ReuseExamples.
Import strings docker reconcile client calllog reuse fake.



End ReuseExamples.
